(** * InstaMailer backend: a shallow embedding of [main.py], [email_generator.py],
    [mailer.py] and [config.py], and the properties of its draft life cycle,
    its content generator and its statistics report.

    Layout: first the model of the Python values the code manipulates
    (strings, datetimes, floats), then the code of the four source files,
    then helper lemmas, then the properties, then further properties of the
    routes, the mailer, the generator and the statistics. The generator is
    given twice: on strings of code points below 256, as the routes use it,
    and on strings of any code points ([PyUni]), for the derivation of the
    subject; [generator_agrees] relates the two. *)

From Stdlib Require Import ZArith List String Ascii Bool Lia Permutation Sorted.
From Stdlib Require Import Floats.
From stdpp Require Import base option gmap sorting.
Import ListNotations.

Local Open Scope string_scope.
Local Open Scope Z_scope.

(* ===================================================================== *)
(** * Python strings *)
(* ===================================================================== *)

(** A [str] is modelled as a [string] whose characters are code points
    below 256, one [ascii] per code point: [len] and slicing count
    characters as Python does. *)
Module PyStr.

Definition LF : ascii := ascii_of_N 10.
Definition nl : string := String LF "".

(** [bool(s)]: a string is truthy when it is not empty. *)
Definition truthy (s : string) : bool :=
  match s with EmptyString => false | String _ _ => true end.

(** [len(s)] *)
Definition len (s : string) : Z := Z.of_nat (String.length s).

(** [str.isspace] on one character: the table of [Py_UNICODE_ISSPACE]
    restricted to code points below 256. *)
Definition isspace (c : ascii) : bool :=
  let n := N_of_ascii c in
  ((9 <=? n) && (n <=? 13) || (28 <=? n) && (n <=? 32)
   || (n =? 133) || (n =? 160))%N.

(** [str.lower] on one character: A-Z, and the Latin-1 capitals
    U+00C0..U+00DE without the multiplication sign U+00D7. *)
Definition lower_char (c : ascii) : ascii :=
  let n := N_of_ascii c in
  if ((65 <=? n) && (n <=? 90)
      || (192 <=? n) && (n <=? 222) && negb (n =? 215))%N
  then ascii_of_N (n + 32) else c.

Fixpoint lower (s : string) : string :=
  match s with
  | EmptyString => EmptyString
  | String c r => String (lower_char c) (lower r)
  end.

(** [s.lstrip()], [s.rstrip()], [s.strip()] *)
Fixpoint lstrip (s : string) : string :=
  match s with
  | EmptyString => EmptyString
  | String c r => if isspace c then lstrip r else s
  end.

Fixpoint rstrip (s : string) : string :=
  match s with
  | EmptyString => EmptyString
  | String c r =>
      match rstrip r with
      | EmptyString => if isspace c then EmptyString else String c EmptyString
      | r' => String c r'
      end
  end.

Definition strip (s : string) : string := rstrip (lstrip s).

(** [s.split(sep)] for a one-character separator. The result of Python's
    [split] with a separator is never empty, so it is returned as its
    element [0] and the list of the elements after it. *)
Fixpoint split_on (sep : ascii) (s : string) : string * list string :=
  match s with
  | EmptyString => (EmptyString, [])
  | String c r =>
      let '(h, t) := split_on sep r in
      if Ascii.eqb c sep then (EmptyString, h :: t) else (String c h, t)
  end.

(** [s.split()]: the maximal runs of characters that are not white space. *)
Fixpoint split_ws (s : string) : list string :=
  match s with
  | EmptyString => []
  | String c r =>
      if isspace c then split_ws r
      else match r with
           | EmptyString => [String c EmptyString]
           | String c' _ =>
               if isspace c' then String c EmptyString :: split_ws r
               else match split_ws r with
                    | w :: ws => String c w :: ws
                    | [] => [String c EmptyString]
                    end
           end
  end.

(** [sep.join(l)] *)
Fixpoint join (sep : string) (l : list string) : string :=
  match l with
  | [] => EmptyString
  | [w] => w
  | w :: ws => w ++ sep ++ join sep ws
  end.

(** [s[:n]] for [n >= 0] *)
Fixpoint take (n : nat) (s : string) : string :=
  match n, s with
  | S n', String c r => String c (take n' r)
  | _, _ => EmptyString
  end.

(** [x in l] for a list of strings *)
Definition mem (x : string) (l : list string) : bool :=
  existsb (String.eqb x) l.

(** [s.startswith(p)] and [s.endswith(p)], to state properties. *)
Definition startswith (s p : string) : Prop := exists r, s = p ++ r.
Definition endswith (s p : string) : Prop := exists r, s = r ++ p.

End PyStr.

(* ===================================================================== *)
(** * config.py *)
(* ===================================================================== *)

Record Settings : Type := mkSettings {
  smtp_host : string;
  smtp_port : Z;
  smtp_username : string;
  smtp_password : string;
  email_from : string;
  smtp_timeout : Z;
  email_api_key : string;
  email_api_url : string;
  email_model : string;
  email_api_configured : bool
}.

(** [Settings()] with no environment: every field at its default. *)
Definition default_settings : Settings :=
  mkSettings "" 587 "" "" "" 30 "" "" "gemini-2.0-flash" false.

(** [all([host, username, password, email_from])] *)
Definition smtp_configured (st : Settings) : bool :=
  forallb PyStr.truthy
    [smtp_host st; smtp_username st; smtp_password st; email_from st].

(** [email_api_configured and email_api_key and email_api_url], read for its
    truth value, the only way the code uses it. *)
Definition email_api_ready (st : Settings) : bool :=
  email_api_configured st
  && PyStr.truthy (email_api_key st) && PyStr.truthy (email_api_url st).

(* ===================================================================== *)
(** * email_generator.py *)
(* ===================================================================== *)

(** What the call to the generation backend can do, as far as
    [generate_email_content] tells the cases apart. *)
Inductive ApiReply : Type :=
| ApiRaised                      (* transport error, bad status, bad body *)
| ApiNoCandidates                (* no ["candidates"] key, or an empty list *)
| ApiText (text : string).       (* [candidates[0]["content"]["text"]] *)

(** The backend, as a function of the prompt of the payload. *)
Definition Backend : Type := string -> ApiReply.

(** The prompt of the payload: [f"Write a {tone} email about: {prompt}"] *)
Definition payload_prompt (prompt tone : string) : string :=
  "Write a " ++ tone ++ " email about: " ++ prompt.

Definition generate_email_content
    (st : Settings) (post : Backend) (prompt tone : string) : option string :=
  if negb (email_api_ready st) then None
  else
    match post (payload_prompt prompt tone) with
    | ApiText text => Some (PyStr.strip text)
    | ApiNoCandidates => None
    | ApiRaised => None
    end.

Record EmailData : Type := mkEmailData {
  ed_content : string;
  ed_subject : string
}.

Definition informal_tones : list string := ["friendly"; "casual"].

Definition fallback_greeting (tone : string) : string :=
  if PyStr.mem (PyStr.lower tone) informal_tones
  then "Hi there," else "Dear Sir/Madam,".

Definition fallback_closing (tone : string) : string :=
  if PyStr.mem (PyStr.lower tone) informal_tones
  then "Best," ++ PyStr.nl ++ "[Your Name]"
  else "Best regards," ++ PyStr.nl ++ "[Your Name]".

Definition fallback_content (prompt tone : string) : string :=
  fallback_greeting tone ++ PyStr.nl ++ PyStr.nl ++ prompt
  ++ PyStr.nl ++ PyStr.nl ++ fallback_closing tone.

Definition generate_email_with_subject
    (st : Settings) (post : Backend) (prompt tone : string) : EmailData :=
  let content := generate_email_content st post prompt tone in
  let content :=
    match content with
    | Some c => if PyStr.truthy c then c else fallback_content prompt tone
    | None => fallback_content prompt tone
    end in
  let first_line := fst (PyStr.split_on PyStr.LF (PyStr.strip content)) in
  let subject :=
    if PyStr.len first_line <? 80 then first_line
    else PyStr.join " " (firstn 7 (PyStr.split_ws prompt)) in
  mkEmailData content subject.

(* ===================================================================== *)
(** * Python strings over all code points, and the generator on them *)
(* ===================================================================== *)

(** The strings of [PyStr] hold code points below 256. The subject is derived
    from a prompt and from a text of the backend that can hold any character,
    so the string functions of [generate_email_with_subject] and the function
    itself are given here once more, on lists of code points. Only
    [str.lower] is not reproduced: it is the lower-casing of the Unicode
    character database, and the generator takes it as an argument. *)
Module PyUni.

Local Open Scope list_scope.

(** A [str]: its code points, in order. *)
Definition str : Type := list N.

(** A literal of the source. *)
Definition of_string (s : string) : str := map N_of_ascii (list_ascii_of_string s).

Definition LF : N := 10.
Definition SPACE : N := 32.

(** [bool(s)] *)
Definition truthy (s : str) : bool :=
  match s with [] => false | _ :: _ => true end.

(** [len(s)] *)
Definition len (s : str) : Z := Z.of_nat (length s).

(** [==] on two strings *)
Fixpoint eqb (a b : str) : bool :=
  match a, b with
  | [], [] => true
  | x :: a', y :: b' => (x =? y)%N && eqb a' b'
  | _, _ => false
  end.

(** [str.isspace] on one character, which is also the white space of
    [strip] and [split]: the table of [Py_UNICODE_ISSPACE]. *)
Definition isspace (c : N) : bool :=
  ((9 <=? c) && (c <=? 13) || (28 <=? c) && (c <=? 32)
   || (c =? 133) || (c =? 160) || (c =? 5760)
   || (8192 <=? c) && (c <=? 8202)
   || (c =? 8232) || (c =? 8233) || (c =? 8239) || (c =? 8287) || (c =? 12288))%N.

(** [s.lstrip()], [s.rstrip()], [s.strip()] *)
Fixpoint lstrip (s : str) : str :=
  match s with
  | [] => []
  | c :: r => if isspace c then lstrip r else s
  end.

Fixpoint rstrip (s : str) : str :=
  match s with
  | [] => []
  | c :: r =>
      match rstrip r with
      | [] => if isspace c then [] else [c]
      | r' => c :: r'
      end
  end.

Definition strip (s : str) : str := rstrip (lstrip s).

(** [s.split(sep)] for a one-character separator: element [0] of the
    result and the elements after it. *)
Fixpoint split_on (sep : N) (s : str) : str * list str :=
  match s with
  | [] => ([], [])
  | c :: r =>
      let '(h, t) := split_on sep r in
      if (c =? sep)%N then ([], h :: t) else (c :: h, t)
  end.

(** [s.split()]: the maximal runs of characters that are not white space. *)
Fixpoint split_ws (s : str) : list str :=
  match s with
  | [] => []
  | c :: r =>
      if isspace c then split_ws r
      else match r with
           | [] => [[c]]
           | c' :: _ =>
               if isspace c' then [c] :: split_ws r
               else match split_ws r with
                    | w :: ws => (c :: w) :: ws
                    | [] => [[c]]
                    end
           end
  end.

(** [sep.join(l)] *)
Fixpoint join (sep : str) (l : list str) : str :=
  match l with
  | [] => []
  | [w] => w
  | w :: ws => w ++ sep ++ join sep ws
  end.

(** [x in l] for a list of strings *)
Definition mem (x : str) (l : list str) : bool := existsb (eqb x) l.

(** What the call to the generation backend can do. *)
Inductive ApiReply : Type :=
| ApiRaised
| ApiNoCandidates
| ApiText (text : str).

Definition Backend : Type := str -> ApiReply.

Record EmailData : Type := mkEmailData {
  ed_content : str;
  ed_subject : str
}.

Definition nl : str := [LF].

Definition informal_tones : list str := [of_string "friendly"; of_string "casual"].

(** [f"Write a {tone} email about: {prompt}"] *)
Definition payload_prompt (prompt tone : str) : str :=
  of_string "Write a " ++ tone ++ of_string " email about: " ++ prompt.

Definition generate_email_content
    (st : Settings) (post : Backend) (prompt tone : str) : option str :=
  if negb (email_api_ready st) then None
  else
    match post (payload_prompt prompt tone) with
    | ApiText text => Some (strip text)
    | ApiNoCandidates => None
    | ApiRaised => None
    end.

Section Generator.

(** [str.lower] *)
Variable lower : str -> str.

Definition fallback_greeting (tone : str) : str :=
  if mem (lower tone) informal_tones
  then of_string "Hi there," else of_string "Dear Sir/Madam,".

Definition fallback_closing (tone : str) : str :=
  if mem (lower tone) informal_tones
  then of_string "Best," ++ nl ++ of_string "[Your Name]"
  else of_string "Best regards," ++ nl ++ of_string "[Your Name]".

Definition fallback_content (prompt tone : str) : str :=
  fallback_greeting tone ++ nl ++ nl ++ prompt ++ nl ++ nl ++ fallback_closing tone.

Definition generate_email_with_subject
    (st : Settings) (post : Backend) (prompt tone : str) : EmailData :=
  let content := generate_email_content st post prompt tone in
  let content :=
    match content with
    | Some c => if truthy c then c else fallback_content prompt tone
    | None => fallback_content prompt tone
    end in
  let first_line := fst (split_on LF (strip content)) in
  let subject :=
    if len first_line <? 80 then first_line
    else join [SPACE] (firstn 7 (split_ws prompt)) in
  mkEmailData content subject.

End Generator.

End PyUni.

(* ===================================================================== *)
(** * Python datetimes *)
(* ===================================================================== *)

(** The part of the [datetime] module the code uses: proleptic Gregorian
    ordinals ([_ymd2ord], [_ord2ymd]), [replace(day=...)], adding and
    subtracting a [timedelta] of whole days, comparison and
    [strftime("%b")]. *)
Module PyDate.

Definition MAXORDINAL : Z := 3652059.        (* date(9999, 12, 31) *)
Definition DI400Y : Z := 146097.
Definition DI100Y : Z := 36524.
Definition DI4Y : Z := 1461.

Definition DAYS_IN_MONTH (m : Z) : Z :=
  nth (Z.to_nat m) [-1; 31; 28; 31; 30; 31; 30; 31; 31; 30; 31; 30; 31] 0.

Definition DAYS_BEFORE_MONTH (m : Z) : Z :=
  nth (Z.to_nat m)
      [-1; 0; 31; 59; 90; 120; 151; 181; 212; 243; 273; 304; 334] 0.

Definition is_leap (y : Z) : bool :=
  (y mod 4 =? 0) && (negb (y mod 100 =? 0) || (y mod 400 =? 0)).

Definition days_before_year (year : Z) : Z :=
  let y := year - 1 in y * 365 + y / 4 - y / 100 + y / 400.

Definition days_in_month (year month : Z) : Z :=
  if (month =? 2) && is_leap year then 29 else DAYS_IN_MONTH month.

Definition days_before_month (year month : Z) : Z :=
  DAYS_BEFORE_MONTH month + (if (2 <? month) && is_leap year then 1 else 0).

Definition ymd2ord (year month day : Z) : Z :=
  days_before_year year + days_before_month year month + day.

Definition ord2ymd (n : Z) : Z * Z * Z :=
  let n := n - 1 in
  let n400 := n / DI400Y in let n := n mod DI400Y in
  let year := n400 * 400 + 1 in
  let n100 := n / DI100Y in let n := n mod DI100Y in
  let n4 := n / DI4Y in let n := n mod DI4Y in
  let n1 := n / 365 in let n := n mod 365 in
  let year := year + n100 * 100 + n4 * 4 + n1 in
  if (n1 =? 4) || (n100 =? 4) then (year - 1, 12, 31)
  else
    let leapyear := (n1 =? 3) && (negb (n4 =? 24) || (n100 =? 3)) in
    let month := Z.shiftr (n + 50) 5 in
    let preceding :=
      DAYS_BEFORE_MONTH month + (if (2 <? month) && leapyear then 1 else 0) in
    let '(month, preceding) :=
      if n <? preceding
      then (month - 1,
            preceding - (DAYS_IN_MONTH (month - 1)
                         + (if (month - 1 =? 2) && leapyear then 1 else 0)))
      else (month, preceding) in
    (year, month, n - preceding + 1).

Inductive timezone : Type := utc.

(** A [datetime]. The time of day is kept as one number, the microseconds
    since midnight ([0 <= tod < 86400000000]): the code never reads or
    writes the hour, minute, second or microsecond alone, and neither
    [replace(day=...)] nor a [timedelta] of whole days changes them. *)
Record datetime : Type := mkdatetime {
  year : Z;
  month : Z;
  day : Z;
  tod : Z;
  tzinfo : option timezone
}.

(** A well-formed value of the class. *)
Definition valid (d : datetime) : Prop :=
  1 <= year d <= 9999 /\ 1 <= month d <= 12
  /\ 1 <= day d <= days_in_month (year d) (month d)
  /\ 0 <= tod d < 86400000000.

Definition toordinal (d : datetime) : Z := ymd2ord (year d) (month d) (day d).

(** [d.replace(day=n)]; [ValueError] (here [None]) when the month has no
    such day. *)
Definition replace_day (d : datetime) (n : Z) : option datetime :=
  if (1 <=? n) && (n <=? days_in_month (year d) (month d))
  then Some (mkdatetime (year d) (month d) n (tod d) (tzinfo d))
  else None.

(** [d.replace(tzinfo=timezone.utc)] *)
Definition replace_tzinfo (d : datetime) (tz : option timezone) : datetime :=
  mkdatetime (year d) (month d) (day d) (tod d) tz.

(** [d + timedelta(days=n)]; [OverflowError] (here [None]) when the result
    leaves [date.min .. date.max]. *)
Definition add_days (d : datetime) (n : Z) : option datetime :=
  let o := toordinal d + n in
  if (0 <? o) && (o <=? MAXORDINAL)
  then let '(y, m, dd) := ord2ymd o in Some (mkdatetime y m dd (tod d) (tzinfo d))
  else None.

(** [d - timedelta(days=n)] is [d + (-timedelta(days=n))]. *)
Definition sub_days (d : datetime) (n : Z) : option datetime := add_days d (- n).

(** Comparison of two datetimes that are both aware, both in UTC: the
    fields, lexicographically. *)
Definition lt (a b : datetime) : bool :=
  (year a <? year b)
  || (year a =? year b)
     && ((month a <? month b)
         || (month a =? month b)
            && ((day a <? day b)
                || (day a =? day b) && (tod a <? tod b))).

Definition le (a b : datetime) : bool := negb (lt b a).

(** [a <= b]; [TypeError] (here [None]) between a naive and an aware
    datetime. *)
Definition cmp_le (a b : datetime) : option bool :=
  match tzinfo a, tzinfo b with
  | Some utc, Some utc | None, None => Some (le a b)
  | _, _ => None
  end.

(** [d.strftime("%b")] in the C locale. *)
Definition month_abbr (m : Z) : string :=
  nth (Z.to_nat m)
      [""; "Jan"; "Feb"; "Mar"; "Apr"; "May"; "Jun";
       "Jul"; "Aug"; "Sep"; "Oct"; "Nov"; "Dec"] "".

Definition strftime_b (d : datetime) : string := month_abbr (month d).

End PyDate.

(* ===================================================================== *)
(** * Python numbers *)
(* ===================================================================== *)

(** [success_rate] is the [int] 0 or a [float]; floats are IEEE binary64,
    the kernel's primitive floats. *)
Module PyNum.

Inductive number : Type :=
| Int (n : Z)
| Float (f : float).

(** [float(n)], exact for [0 <= n < 2^53]. *)
Definition of_Z (n : Z) : float := PrimFloat.of_uint63 (Uint63.of_Z n).

(** [a / b] on two [int]s with [b <> 0]: the float nearest to the
    quotient, which is the IEEE quotient of the two conversions as long as
    both are below [2^53]. *)
Definition truediv (a b : Z) : float := PrimFloat.div (of_Z a) (of_Z b).

(** The integer nearest to [n / d] ([d > 0]), ties to even. *)
Definition div_half_even (n d : Z) : Z :=
  let q := n / d in
  let r := n mod d in
  if 2 * r <? d then q
  else if d <? 2 * r then q + 1
  else if Z.even q then q else q + 1.

(** [round(x, 1)] on a float: CPython prints the exact binary value of [x]
    with one digit after the point, correctly rounded (ties to even), and
    reads the decimal back as the nearest float. [t] is that decimal in
    tenths; below [2^53] the nearest float to [t / 10] is the IEEE
    quotient. Infinities, NaN and zeros are returned as they are. *)
Definition round1 (x : float) : float :=
  match Prim2SF x with
  | S754_finite s m e =>
      let t :=
        if 0 <=? e then 10 * Z.pos m * 2 ^ e
        else div_half_even (10 * Z.pos m) (2 ^ (- e)) in
      let r := PrimFloat.div (of_Z t) (of_Z 10) in
      if s then PrimFloat.opp r else r
  | _ => x
  end.

(** [round(v, 1)]: an [int] is returned unchanged. *)
Definition round_1 (v : number) : number :=
  match v with
  | Int n => Int n
  | Float f => Float (round1 f)
  end.

End PyNum.

(* ===================================================================== *)
(** * mailer.py *)
(* ===================================================================== *)

Record Message : Type := mkMessage {
  msg_subject : string;
  msg_from : string;
  msg_to : string;
  msg_body : string
}.

Inductive Transport : Type :=
| SMTP_SSL       (* port 465: TLS from the first byte *)
| SMTP_STARTTLS. (* any other port: ehlo, starttls, ehlo *)

(** The calls [send_email] makes on [smtplib]. [Connect] is the constructor
    [SMTP_SSL(...)] or [SMTP(...)]; [Quit] is the [QUIT] that leaving the
    [with] block sends. *)
Inductive SmtpCall : Type :=
| Connect
| Ehlo
| StartTls
| EhloAfterTls
| Login
| SendMessage
| Quit.

(** The calls of one session, in the order of the source (lines 18-20 and
    22-27). *)
Definition session (t : Transport) : list SmtpCall :=
  match t with
  | SMTP_SSL => [Connect; Login; SendMessage; Quit]
  | SMTP_STARTTLS => [Connect; Ehlo; StartTls; EhloAfterTls; Login; SendMessage; Quit]
  end.

(** The SMTP relay: whether a call of the session raises. *)
Definition Smtp : Type := Transport -> Message -> SmtpCall -> bool.

(** The messages passed to [smtp.send_message], in order. *)
Definition Outbox : Type := list (Transport * Message).

Definition is_send_message (c : SmtpCall) : bool :=
  match c with SendMessage => true | _ => false end.

(** The calls are made in order until one raises. The result is whether
    every call returned, and whether [send_message] was called. (When a call
    after [Connect] raises, leaving the [with] block still sends [QUIT];
    that changes neither of the two.) *)
Fixpoint run_session (raises : SmtpCall -> bool) (calls : list SmtpCall)
  : bool * bool :=
  match calls with
  | [] => (true, false)
  | c :: rest =>
      if raises c then (false, is_send_message c)
      else
        let '(ok, handed) := run_session raises rest in
        (ok, is_send_message c || handed)
  end.

(** One [with smtplib...] block inside the [try]: [return True] is reached
    when no call raised, [return False] otherwise. *)
Definition smtp_session (smtp : Smtp) (t : Transport) (msg : Message)
  : bool * Outbox :=
  let '(ok, handed) := run_session (smtp t msg) (session t) in
  (ok, if handed : bool then [(t, msg)] else []).

Definition send_email
    (st : Settings) (smtp : Smtp) (to_email subject content : string)
  : bool * Outbox :=
  if negb (smtp_configured st) then (false, [])
  else
    let msg := mkMessage subject (email_from st) to_email content in
    if smtp_port st =? 465 then smtp_session smtp SMTP_SSL msg
    else smtp_session smtp SMTP_STARTTLS msg.

(* ===================================================================== *)
(** * main.py: the table of drafts *)
(* ===================================================================== *)

(** Modelled from the spec: [models.py], which declares [Draft], is not among
    the sources. The fields are those of the spec's data model (and of
    [EmailDraftResponse]); [status] starts at ["draft"], [sent_at] starts
    unset, [created_at] is set at insert and [id] is assigned by the
    store. *)
Record Draft : Type := mkDraft {
  id : Z;
  prompt : string;
  content : string;
  recipient : string;
  tone : string;
  status : string;
  type_ : string;
  created_at : PyDate.datetime;
  sent_at : option PyDate.datetime;
  subject : option string
}.

(** The table, by primary key. *)
Abbreviation Store := (gmap Z Draft).

(** Modelled from the spec: the id the store assigns to a new row, one more
    than the largest id in the table (1 in an empty table). *)
Definition next_id (db : Store) : Z :=
  1 + foldr Z.max 0 (map fst (map_to_list db)).

Definition set_content (c : string) (d : Draft) : Draft :=
  mkDraft (id d) (prompt d) c (recipient d) (tone d) (status d) (type_ d)
          (created_at d) (sent_at d) (subject d).

Definition set_status (s : string) (d : Draft) : Draft :=
  mkDraft (id d) (prompt d) (content d) (recipient d) (tone d) s (type_ d)
          (created_at d) (sent_at d) (subject d).

Definition set_sent_at (t : option PyDate.datetime) (d : Draft) : Draft :=
  mkDraft (id d) (prompt d) (content d) (recipient d) (tone d) (status d)
          (type_ d) (created_at d) t (subject d).

(** The clock: [datetime.now(timezone.utc)] is an aware datetime. *)
Definition now_utc (t : PyDate.datetime) : PyDate.datetime :=
  PyDate.replace_tzinfo t (Some PyDate.utc).

(** What the table keeps of a datetime that is written to it: the engine is
    SQLite (line 23), which stores no time zone, so the row comes back
    naive. This is what [ensure_aware] is there for. *)
Definition as_stored (t : PyDate.datetime) : PyDate.datetime :=
  PyDate.replace_tzinfo t None.

Definition ensure_aware (dt : option PyDate.datetime) : option PyDate.datetime :=
  match dt with
  | None => None
  | Some d =>
      match PyDate.tzinfo d with
      | None => Some (PyDate.replace_tzinfo d (Some PyDate.utc))
      | Some _ => Some d
      end
  end.

(* ===================================================================== *)
(** * main.py: exceptions and responses *)
(* ===================================================================== *)

Inductive exn : Type :=
| HTTPException (status_code : Z) (detail : string)
| OtherException.

(** The outcome of a handler body: a value, or a raised exception. *)
Definition outcome (A : Type) : Type := A + exn.

(** [except HTTPException: raise] followed by [except Exception: raise
    HTTPException(500, detail)] *)
Definition reraise_http_then_500 {A} (detail : string) (r : outcome A) : outcome A :=
  match r with
  | inl v => inl v
  | inr (HTTPException c d) => inr (HTTPException c d)
  | inr OtherException => inr (HTTPException 500 detail)
  end.

(** [except Exception: raise HTTPException(500, detail)] alone:
    [HTTPException] is an [Exception], so it is caught too. *)
Definition except_exception_500 {A} (detail : string) (r : outcome A) : outcome A :=
  match r with
  | inl v => inl v
  | inr _ => inr (HTTPException 500 detail)
  end.

Record GenerateRequest : Type := mkGenerateRequest {
  rq_prompt : string;
  rq_recipient : string;
  rq_tone : string;
  rq_type : string
}.

(* ===================================================================== *)
(** * main.py: the routes that write the table *)
(* ===================================================================== *)

(** [POST /generate]. [now] is the instant of the insert. *)
Definition generate
    (st : Settings) (post : Backend) (now : PyDate.datetime)
    (request : GenerateRequest) (db : Store) : Store * outcome Draft :=
  let email_data :=
    generate_email_with_subject st post (rq_prompt request) (rq_tone request) in
  let draft :=
    mkDraft (next_id db) (rq_prompt request) (ed_content email_data)
            (rq_recipient request) (rq_tone request) "draft" (rq_type request)
            now None (Some (ed_subject email_data)) in
  (<[next_id db := draft]> db, except_exception_500 "Error generating email" (inl draft)).

(** [draft.subject or draft.content.split("\n")[0][:50] if draft.content
    else "Email"]: the conditional expression binds weaker than [or]. *)
Definition send_subject (draft : Draft) : string :=
  if PyStr.truthy (content draft) then
    match subject draft with
    | Some s =>
        if PyStr.truthy s then s
        else PyStr.take 50 (fst (PyStr.split_on PyStr.LF (content draft)))
    | None => PyStr.take 50 (fst (PyStr.split_on PyStr.LF (content draft)))
    end
  else "Email".

Record SendResponse : Type := mkSendResponse {
  sr_status : string;
  sr_message : string
}.

(** [POST /send/{draft_id}]. [now] is the instant read after a successful
    dispatch. The result is the table, the response and what was handed to
    the relay. *)
Definition send
    (st : Settings) (smtp : Smtp) (now : PyDate.datetime)
    (draft_id : Z) (db : Store) : Store * outcome SendResponse * Outbox :=
  let '(db', r, out) :=
    match db !! draft_id with
    | None => (db, inr (HTTPException 404 "Draft not found"), [])
    | Some draft =>
        let subject := send_subject draft in
        let '(success, out) :=
          send_email st smtp (recipient draft) subject (content draft) in
        if success : bool then
          (<[draft_id := set_sent_at (Some (as_stored (now_utc now)))
                            (set_status "sent" draft)]> db,
           inl (mkSendResponse "sent" "Email sent successfully"), out)
        else
          (<[draft_id := set_status "failed" draft]> db,
           inr (HTTPException 500 "Failed to send email"), out)
    end in
  (db', reraise_http_then_500 "Internal server error" r, out).

(** [DELETE /emails/{draft_id}] *)
Definition delete_email (draft_id : Z) (db : Store) : Store * outcome string :=
  let '(db', r) :=
    match db !! draft_id with
    | None => (db, inr (HTTPException 404 "Draft not found"))
    | Some draft => (delete draft_id db, inl "Email deleted successfully")
    end in
  (db', except_exception_500 "Error deleting email" r).

(** [POST /update_draft/{draft_id}] *)
Definition update_draft (draft_id : Z) (new_content : string) (db : Store)
  : Store * outcome string :=
  let '(db', r) :=
    match db !! draft_id with
    | None => (db, inr (HTTPException 404 "Draft not found"))
    | Some draft => (<[draft_id := set_content new_content draft]> db, inl "Draft updated")
    end in
  (db', except_exception_500 "Error updating draft" r).

(** The status code a client sees. *)
Definition status_code_of {A} (r : outcome A) : Z :=
  match r with
  | inl _ => 200
  | inr (HTTPException c _) => c
  | inr OtherException => 500
  end.

(* ===================================================================== *)
(** * main.py: [GET /stats] *)
(* ===================================================================== *)

(** [sum(1 for d in l if p(d))] *)
Definition count_if {A} (p : A -> bool) (l : list A) : Z :=
  Z.of_nat (length (List.filter p l)).

Definition has_status (s : string) (d : Draft) : bool := String.eqb (status d) s.

(** [Counter(iterable)]: the keys in the order they are first met. *)
Fixpoint counter_add (k : string) (c : list (string * Z)) : list (string * Z) :=
  match c with
  | [] => [(k, 1)]
  | (k', n) :: r =>
      if String.eqb k' k then (k', n + 1) :: r else (k', n) :: counter_add k r
  end.

Definition Counter (l : list string) : list (string * Z) :=
  fold_left (fun c k => counter_add k c) l [].

(** [sorted(items, key=itemgetter(1), reverse=True)]: Python's sort is
    stable, also with [reverse=True], so items of equal count keep their
    order. *)
Fixpoint insert_desc (x : string * Z) (l : list (string * Z)) : list (string * Z) :=
  match l with
  | [] => [x]
  | y :: r => if snd x <? snd y then y :: insert_desc x r else x :: y :: r
  end.

Definition most_common (c : list (string * Z)) : list (string * Z) :=
  foldr insert_desc [] c.

Record MonthEntry : Type := mkMonthEntry {
  me_month : string;
  me_sent : Z;
  me_drafts : Z
}.

Record StatsReport : Type := mkStatsReport {
  total_sent : Z;
  total_drafts : Z;
  total_failed : Z;
  success_rate : PyNum.number;
  recent_activity : Z;
  popular_tones : list (string * Z);
  monthly_stats : list MonthEntry
}.

(** The clock of one request: [clock k] is what the [k]-th call of
    [datetime.now] reads (call 0 for [week_ago], call [1 + i] in round [i]
    of the loop). *)
Definition Clock : Type := nat -> PyDate.datetime.

(** [a <= b] on optional datetimes; [None] when Python raises [TypeError]. *)
Definition dt_le (a b : option PyDate.datetime) : option bool :=
  a ← a; b ← b; PyDate.cmp_le a b.

(** [lo <= x <= hi]: the second comparison is made only if the first holds. *)
Definition dt_between (lo x hi : option PyDate.datetime) : option bool :=
  a ← dt_le lo x; if a : bool then dt_le x hi else Some false.

(** [[d for d in l if p(d)]] where [p] may raise. *)
Fixpoint filter_raising {A} (p : A -> option bool) (l : list A) : option (list A) :=
  match l with
  | [] => Some []
  | x :: r =>
      b ← p x; r' ← filter_raising p r;
      Some (if b : bool then x :: r' else r')
  end.

(** Lines 183-185: the two ends of the window of round [i]. *)
Definition month_window (now : PyDate.datetime) (i : Z)
  : option (PyDate.datetime * PyDate.datetime) :=
  first ← PyDate.replace_day (now_utc now) 1;
  month_start ← PyDate.sub_days first (30 * i);
  anchored ← PyDate.replace_day month_start 1;
  month_end ← PyDate.add_days anchored 32;
  month_end ← PyDate.replace_day month_end 1;
  month_end ← PyDate.sub_days month_end 1;
  Some (month_start, month_end).

(** Lines 183-191: one round of the loop. *)
Definition month_entry (drafts : list Draft) (now : PyDate.datetime) (i : Z)
  : option MonthEntry :=
  '(month_start, month_end) ← month_window now i;
  month_drafts ←
    filter_raising
      (fun d => dt_between (Some month_start)
                           (ensure_aware (Some (created_at d)))
                           (Some month_end))
      drafts;
  Some (mkMonthEntry (PyDate.strftime_b month_start)
                     (count_if (has_status "sent") month_drafts)
                     (count_if (has_status "draft") month_drafts)).

(** [for i in range(6): ... append], then [reverse()]. *)
Definition monthly (drafts : list Draft) (clock : Clock) : option (list MonthEntry) :=
  entries ← mapM (fun i : nat => month_entry drafts (clock (S i)) (Z.of_nat i)) (seq 0 6);
  Some (rev entries).

Definition total_emails (drafts : list Draft) : Z := Z.of_nat (length drafts).

(** Line 173: [(total_sent / total_emails * 100) if total_emails else 0] *)
Definition raw_success_rate (drafts : list Draft) : PyNum.number :=
  if total_emails drafts =? 0 then PyNum.Int 0
  else PyNum.Float
         (PrimFloat.mul
            (PyNum.truediv (count_if (has_status "sent") drafts) (total_emails drafts))
            (PyNum.of_Z 100)).

(** The body of [get_stats] on the rows read from the table; [None] when an
    exception is raised. *)
Definition compute_stats (drafts : list Draft) (clock : Clock) : option StatsReport :=
  let total_sent := count_if (has_status "sent") drafts in
  let total_drafts := count_if (has_status "draft") drafts in
  let total_failed := count_if (has_status "failed") drafts in
  let success_rate := raw_success_rate drafts in
  week_ago ← PyDate.sub_days (now_utc (clock 0%nat)) 7;
  recent ←
    filter_raising
      (fun d => dt_le (Some week_ago) (ensure_aware (Some (created_at d))))
      drafts;
  let recent_activity := Z.of_nat (length recent) in
  let tone_counter := Counter (map tone drafts) in
  let popular_tones := most_common tone_counter in
  monthly_stats ← monthly drafts clock;
  Some (mkStatsReport total_sent total_drafts total_failed
                      (PyNum.round_1 success_rate) recent_activity
                      popular_tones monthly_stats).

(** The rows of the table in the order of their ids. *)
Definition by_id : relation (Z * Draft) := fun a b => fst a <= fst b.

#[global] Instance by_id_dec : RelDecision by_id :=
  fun a b => decide (fst a <= fst b).

Definition rows (db : Store) : list Draft :=
  map snd (merge_sort by_id (map_to_list db)).

Definition get_stats (db : Store) (clock : Clock) : outcome StatsReport :=
  except_exception_500 "Error calculating stats"
    (match compute_stats (rows db) clock with
     | Some r => inl r
     | None => inr OtherException
     end).

(* ===================================================================== *)
(** * main.py: start-up and [GET /emails] *)
(* ===================================================================== *)


(** [a] was not created before [b]. *)
Definition newer_first : relation Draft :=
  fun a b => PyDate.lt (created_at a) (created_at b) = false.

#[global] Instance newer_first_dec : RelDecision newer_first :=
  fun a b => decide (PyDate.lt (created_at a) (created_at b) = false).

(** [GET /emails]: the rows, [ORDER BY created_at DESC]. Rows created at the
    same instant come in the order the sort leaves them in. *)
Definition get_emails (db : Store) : outcome (list Draft) :=
  except_exception_500 "Error fetching emails"
    (inl (merge_sort newer_first (rows db))).

(* ===================================================================== *)
(** * A client of the API: sequences of requests *)
(* ===================================================================== *)

Inductive Request : Type :=
| ReqGenerate (post : Backend) (now : PyDate.datetime) (request : GenerateRequest)
| ReqSend (smtp : Smtp) (now : PyDate.datetime) (draft_id : Z)
| ReqUpdate (draft_id : Z) (new_content : string)
| ReqDelete (draft_id : Z)
| ReqStats (clock : Clock).

(** The table after one request. *)
Definition handle (st : Settings) (rq : Request) (db : Store) : Store :=
  match rq with
  | ReqGenerate post now request => fst (generate st post now request db)
  | ReqSend smtp now draft_id => fst (fst (send st smtp now draft_id db))
  | ReqUpdate draft_id c => fst (update_draft draft_id c db)
  | ReqDelete draft_id => fst (delete_email draft_id db)
  | ReqStats _ => db
  end.

Definition run (st : Settings) (rqs : list Request) (db : Store) : Store :=
  fold_left (fun db rq => handle st rq db) rqs db.

(** Whether a request is the deletion of draft [k]. *)
Definition deletes (k : Z) (rq : Request) : bool :=
  match rq with ReqDelete j => j =? k | _ => false end.

(** Whether a request is a send of draft [k]. *)
Definition sends (k : Z) (rq : Request) : bool :=
  match rq with ReqSend _ _ j => j =? k | _ => false end.

(* ===================================================================== *)
(** * The vocabulary of the lemmas and of the properties *)
(* ===================================================================== *)

(** ** Strings and the generator *)

(** What [lstrip] returns is empty or starts with a character that is not
    white space. *)
Definition no_leading_space (s : string) : Prop :=
  match s with
  | EmptyString => True
  | String c _ => PyStr.isspace c = false
  end.

(** The three ways the backend yields nothing: not configured, an error,
    no text (no candidate, or a text of white space only). *)
Definition backend_unusable
    (st : Settings) (post : Backend) (prompt tone : string) : Prop :=
  email_api_ready st = false
  \/ post (payload_prompt prompt tone) = ApiRaised
  \/ post (payload_prompt prompt tone) = ApiNoCandidates
  \/ exists text, post (payload_prompt prompt tone) = ApiText text
                  /\ PyStr.strip text = "".

(** ** The statuses, a sample configuration and sample drafts *)

(** The three values of [status] the code writes or reads. *)
Definition known_status (d : Draft) : Prop :=
  status d = "sent" \/ status d = "draft" \/ status d = "failed".

(** A draft that went through [send] at least once. *)
Definition settled (d : Draft) : Prop := status d = "sent" \/ status d = "failed".

(** 15 March 2024, 12:00:00, as the clock reads it. *)
Definition noon_2024_03_15 : PyDate.datetime :=
  PyDate.mkdatetime 2024 3 15 43200000000 None.

(** A relay with which no call raises, and one with which every call raises
    (so that the connection already fails). *)
Definition relay_up : Smtp := fun _ _ _ => false.
Definition relay_down : Smtp := fun _ _ _ => true.

(** A relay that refuses the login, and one that accepts the session up to
    [send_message] and refuses the message. *)
Definition relay_refuses_login : Smtp :=
  fun _ _ c => match c with Login => true | _ => false end.

Definition relay_refuses_message : Smtp :=
  fun _ _ c => match c with SendMessage => true | _ => false end.

(** Settings with SMTP configured and no generation backend. *)
Definition mail_settings : Settings :=
  mkSettings "smtp.example.org" 587 "robot" "secret" "robot@example.org" 30
             "" "" "gemini-2.0-flash" false.

(** A backend whose every call fails. *)
Definition no_backend : Backend := fun _ => ApiRaised.

Definition sample_draft (i : Z) (body : string) (subj : option string)
    (tn st : string) (created : PyDate.datetime) : Draft :=
  mkDraft i "renew license" body "ann@example.org" tn st "general" created None subj.

Definition sample_request : GenerateRequest :=
  mkGenerateRequest "renew license" "ann@example.org" "formal" "general".

(** One draft, generated, then sent while the relay is down. *)
Definition after_failed_send : Store :=
  run mail_settings
      [ReqGenerate no_backend noon_2024_03_15 sample_request;
       ReqSend relay_down noon_2024_03_15 1] ∅.

(** The same draft, sent again while the relay is up, and a third time while
    it is down again. *)
Definition after_second_send : Store :=
  run mail_settings [ReqSend relay_up noon_2024_03_15 1] after_failed_send.

Definition after_third_send : Store :=
  run mail_settings [ReqSend relay_down noon_2024_03_15 1] after_second_send.

(** ** Tone counts *)

(** How often [t] occurs in [l]. *)
Definition occurrences (t : string) (l : list string) : Z :=
  count_if (String.eqb t) l.

(** Where [t] is first met in [l] (the length of [l] if nowhere). *)
Fixpoint first_index (t : string) (l : list string) : nat :=
  match l with
  | [] => 0%nat
  | x :: r => if String.eqb x t then 0%nat else S (first_index t r)
  end.

(** The count stored under key [k]. *)
Fixpoint get_count (k : string) (c : list (string * Z)) : option Z :=
  match c with
  | [] => None
  | (k', n) :: r => if String.eqb k' k then Some n else get_count k r
  end.

(** The order of [popular_tones]: a larger count first, and among equal
    counts the tone first met earlier. *)
Definition tone_before (tones : list string) (a b : string * Z) : Prop :=
  snd b < snd a
  \/ (snd a = snd b /\ (first_index (fst a) tones < first_index (fst b) tones)%nat).

(** The order of a counter: first met, first listed. *)
Definition seen_before (tones : list string) (a b : string * Z) : Prop :=
  (first_index (fst a) tones < first_index (fst b) tones)%nat.

(** ** The calendar *)

(** [p] holds for the [fuel] integers from [z] on. *)
Fixpoint all_from (p : Z -> bool) (z : Z) (fuel : nat) : bool :=
  match fuel with
  | O => true
  | S f => p z && all_from p (z + 1) f
  end.

(** The end of [ord2ymd]: the month and the day of the [n]-th day (from 0)
    of a year. *)
Definition month_and_day (leapyear : bool) (n : Z) : Z * Z :=
  let month := Z.shiftr (n + 50) 5 in
  let preceding :=
    PyDate.DAYS_BEFORE_MONTH month + (if (2 <? month) && leapyear then 1 else 0) in
  let '(month, preceding) :=
    if n <? preceding
    then (month - 1,
          preceding - (PyDate.DAYS_IN_MONTH (month - 1)
                       + (if (month - 1 =? 2) && leapyear then 1 else 0)))
    else (month, preceding) in
  (month, n - preceding + 1).

(** What [month_and_day] owes: a month, a day of that month, and the day of
    the year it started from. *)
Definition month_and_day_ok (leapyear : bool) (n : Z) : bool :=
  let '(m, d) := month_and_day leapyear n in
  (1 <=? m) && (m <=? 12) && (1 <=? d)
  && (d <=? PyDate.DAYS_IN_MONTH m + (if (m =? 2) && leapyear then 1 else 0))
  && (PyDate.DAYS_BEFORE_MONTH m + (if (2 <? m) && leapyear then 1 else 0) + d =? n + 1).

(** The fields of two dates, compared as Python compares them. *)
Definition ymd_lt (y m d y' m' d' : Z) : Prop :=
  y < y' \/ (y = y' /\ (m < m' \/ (m = m' /\ d < d'))).

(** The month after month [m] of year [y]. *)
Definition next_month (y m : Z) : Z * Z :=
  if m =? 12 then (y + 1, 1) else (y, m + 1).

(** The first instant of the window the code is after: day 1 of the month of
    [d], at the time of day of [d]. *)
Definition first_of_month (d : PyDate.datetime) : PyDate.datetime :=
  PyDate.mkdatetime (PyDate.year d) (PyDate.month d) 1 (PyDate.tod d) (PyDate.tzinfo d).

(** The last day of the month of [d], at the time of day of [d]. *)
Definition last_of_month (d : PyDate.datetime) : PyDate.datetime :=
  PyDate.mkdatetime (PyDate.year d) (PyDate.month d)
    (PyDate.days_in_month (PyDate.year d) (PyDate.month d))
    (PyDate.tod d) (PyDate.tzinfo d).

(** The instants the code can run at without leaving [date.min .. date.max]
    in its date arithmetic. *)
Definition in_range (now : PyDate.datetime) : Prop :=
  PyDate.valid now /\ 2 <= PyDate.year now <= 9998.

(** ** The windows of the monthly statistics *)

(** What [ensure_aware] makes of a datetime that is there. *)
Definition as_utc (d : PyDate.datetime) : PyDate.datetime :=
  match PyDate.tzinfo d with
  | None => PyDate.replace_tzinfo d (Some PyDate.utc)
  | Some _ => d
  end.

(** The start of the window of round [i]: [30 * i] days before day 1 of the
    current month, at the time of day of the request. *)
Definition window_start (now : PyDate.datetime) (i : Z) : PyDate.datetime :=
  let '(y, m, d) := PyDate.ord2ymd (PyDate.toordinal (first_of_month now) - 30 * i) in
  PyDate.mkdatetime y m d (PyDate.tod now) (Some PyDate.utc).

(** Whether a draft was created within [lo .. hi]. *)
Definition created_within (lo hi : PyDate.datetime) (d : Draft) : bool :=
  PyDate.le lo (as_utc (created_at d)) && PyDate.le (as_utc (created_at d)) hi.

(** The entry of round [i], as the loop computes it. *)
Definition entry_of (drafts : list Draft) (now : PyDate.datetime) (i : Z) : MonthEntry :=
  let lo := window_start now i in
  let within := List.filter (created_within lo (last_of_month lo)) drafts in
  mkMonthEntry (PyDate.strftime_b lo)
               (count_if (has_status "sent") within)
               (count_if (has_status "draft") within).

(** The rounds of the loop, in the order of the report. *)
Definition rounds : list Z := [5; 4; 3; 2; 1; 0].

(** The calendar month [i] months before month [m]. *)
Definition calendar_month_back (m i : Z) : Z := (m - 1 - i) mod 12 + 1.

(** The labels of the current calendar month and the five before it, oldest
    first. *)
Definition calendar_labels (now : PyDate.datetime) : list string :=
  map (fun i => PyDate.month_abbr (calendar_month_back (PyDate.month now) i)) rounds.

(** A clock that reads the same instant at every call. *)
Definition at_instant (now : PyDate.datetime) : Clock := fun _ => now.

(** 1 March 2024, 09:00:00, and 10 January 2024, 00:00:00. *)
Definition march_1st_9am : PyDate.datetime :=
  PyDate.mkdatetime 2024 3 1 32400000000 None.

Definition january_10th : PyDate.datetime :=
  PyDate.mkdatetime 2024 1 10 0 None.

(** Two drafts that were sent, one created in March and one in January. *)
Definition two_sent_drafts : list Draft :=
  [sample_draft 1 "Dear Sir/Madam," None "formal" "sent" march_1st_9am;
   sample_draft 2 "Dear Sir/Madam," None "formal" "sent" january_10th].

(** One draft of each status. *)
Definition three_drafts : list Draft :=
  [sample_draft 1 "Dear Sir/Madam," None "formal" "sent" march_1st_9am;
   sample_draft 2 "Hi there," None "friendly" "draft" january_10th;
   sample_draft 3 "Hi there," None "casual" "failed" january_10th].

(** Six drafts with the tones a, b, a, c, a, b. *)
Definition tone_drafts : list Draft :=
  map (fun '(i, tn) => sample_draft i "Hi there," None tn "draft" january_10th)
      [(1, "a"); (2, "b"); (3, "a"); (4, "c"); (5, "a"); (6, "b")].

(** ** The vocabulary of the further properties *)

(** Some field that SMTP needs is empty. *)
Definition smtp_field_missing (st : Settings) : Prop :=
  smtp_host st = "" \/ smtp_username st = "" \/ smtp_password st = ""
  \/ email_from st = "".

(** The fields of a draft that [send] does not write. *)
Definition same_but_status (d d' : Draft) : Prop :=
  id d' = id d /\ prompt d' = prompt d /\ content d' = content d
  /\ recipient d' = recipient d /\ tone d' = tone d /\ type_ d' = type_ d
  /\ created_at d' = created_at d /\ subject d' = subject d.

(** The fields of a draft that [update_draft] does not write. *)
Definition same_but_content (d d' : Draft) : Prop :=
  id d' = id d /\ prompt d' = prompt d /\ recipient d' = recipient d
  /\ tone d' = tone d /\ status d' = status d /\ type_ d' = type_ d
  /\ created_at d' = created_at d /\ sent_at d' = sent_at d
  /\ subject d' = subject d.

(** Settings with SMTP on port 465. *)
Definition ssl_settings : Settings :=
  mkSettings "smtp.example.org" 465 "robot" "secret" "robot@example.org" 30
             "" "" "gemini-2.0-flash" false.

(** A table with one draft, under id 1. *)
Definition one_draft_table : Store :=
  {[ 1 := sample_draft 1 "Dear Sir/Madam," (Some "Your license") "formal" "draft"
            noon_2024_03_15 ]}.

(** Every character of [s] satisfies [p]. *)
Fixpoint forall_char (p : ascii -> bool) (s : string) : bool :=
  match s with
  | EmptyString => true
  | String c r => p c && forall_char p r
  end.

(** [s] holds no line feed. *)
Definition no_line_feed (s : string) : Prop :=
  forall_char (fun c => negb (Ascii.eqb c PyStr.LF)) s = true.

(** A word: not empty, no white space. *)
Definition is_word (w : string) : Prop :=
  w <> "" /\ forall_char (fun c => negb (PyStr.isspace c)) w = true.

(** Settings with the generation backend configured. *)
Definition api_settings : Settings :=
  mkSettings "" 587 "" "" "" 30 "key" "https://api.example.org/generate"
             "gemini-2.0-flash" true.

(** A backend that answers every call with the same text. *)
Definition canned_backend (text : string) : Backend := fun _ => ApiText text.

(** What holds of every row of a table the routes have built: it is stored
    under its own id, its status is one of the three, a draft that was never
    sent has no send time, a sent draft has one (without a time zone, as
    the SQLite table of line 23 keeps it), and its subject is there and is one
    line. *)
Definition row_ok (k : Z) (d : Draft) : Prop :=
  id d = k
  /\ known_status d
  /\ (status d = "draft" -> sent_at d = None)
  /\ (status d = "sent" ->
      exists t, sent_at d = Some t /\ PyDate.tzinfo t = None)
  /\ (exists s, subject d = Some s /\ no_line_feed s).

Definition table_ok (db : Store) : Prop :=
  forall k d, db !! k = Some d -> row_ok k d.

(** The sum of the counts of a counter. *)
Definition sum_counts (c : list (string * Z)) : Z :=
  fold_right (fun e acc => snd e + acc) 0 c.

(** Whether [c] is no earlier than 7 days before [now], to the microsecond:
    the days by their ordinals, then the times of day. *)
Definition created_since_week_ago (now c : PyDate.datetime) : bool :=
  (PyDate.toordinal now - 7 <? PyDate.toordinal c)
  || ((PyDate.toordinal c =? PyDate.toordinal now - 7)
      && (PyDate.tod now <=? PyDate.tod c)).

(** Three drafts, created on 15, 8 and 7 March 2024 at noon. *)
Definition march_drafts : list Draft :=
  [sample_draft 1 "Hi there," (Some "Hi there,") "casual" "draft" noon_2024_03_15;
   sample_draft 2 "Hi there," (Some "Hi there,") "casual" "sent"
     (PyDate.mkdatetime 2024 3 8 43200000000 None);
   sample_draft 3 "Hi there," (Some "Hi there,") "casual" "draft"
     (PyDate.mkdatetime 2024 3 7 43200000000 None)].

(** ** Rounding to one decimal *)

(** [t] is the integer nearest to [n / d] ([d > 0]), the even one when
    [n / d] is half-way between two integers. *)
Definition nearest_half_even (n d t : Z) : Prop :=
  2 * Z.abs (n - t * d) <= d
  /\ (2 * Z.abs (n - t * d) = d -> Z.even t = true).

(** The same, the larger one when [n / d] is half-way. *)
Definition nearest_half_up (n d t : Z) : Prop :=
  2 * Z.abs (n - t * d) <= d
  /\ (2 * Z.abs (n - t * d) = d -> n < t * d).

(** The float [y] is the float [x] rounded to one decimal: with
    [x = (-1)^s * m * 2^e] exactly, [y] is the float [t / 10] with the sign
    of [x], where [t] is the integer nearest to [10 * m * 2^e], the even one
    at a tie. Zeros, infinities and NaN are left as they are. *)
Definition rounded_to_tenth (x y : float) : Prop :=
  match Prim2SF x with
  | S754_finite s m e =>
      exists t,
        (if 0 <=? e then t = 10 * Z.pos m * 2 ^ e
         else nearest_half_even (10 * Z.pos m) (2 ^ (- e)) t)
        /\ y = (if s then PrimFloat.opp else fun r => r)
                 (PrimFloat.div (PyNum.of_Z t) (PyNum.of_Z 10))
  | _ => y = x
  end.

(** 80 drafts, 23 of them sent. *)
Definition drafts_23_of_80 : list Draft :=
  repeat (sample_draft 1 "Dear Sir/Madam," (Some "Your license") "formal" "sent"
            noon_2024_03_15) 23
  ++ repeat (sample_draft 1 "Dear Sir/Madam," (Some "Your license") "formal" "draft"
               noon_2024_03_15) 57.

(** ** The subject *)

(** [line] is the first line of [c]: it holds no line feed, [c] starts with
    it, and what follows is nothing or starts with a line feed. *)
Definition first_line_of (c line : PyUni.str) : Prop :=
  ~ In PyUni.LF line
  /\ exists rest, c = (line ++ rest)%list /\ (rest = [] \/ exists r, rest = PyUni.LF :: r).

(** [ws] are the white-space-separated tokens of [s], in order: [s] is white
    space and tokens, a token is not empty, holds no white space, and is
    followed by white space or by the end of [s]. *)
Inductive tokens_of : PyUni.str -> list PyUni.str -> Prop :=
| tokens_end : tokens_of [] []
| tokens_space c s ws :
    PyUni.isspace c = true -> tokens_of s ws -> tokens_of (c :: s) ws
| tokens_token w s ws :
    w <> [] ->
    Forall (fun c => PyUni.isspace c = false) w ->
    (s = [] \/ exists c s', s = c :: s' /\ PyUni.isspace c = true) ->
    tokens_of s ws ->
    tokens_of (w ++ s)%list (w :: ws).

(** The tokens [ws] with one space between each two. *)
Definition spaced (ws : list PyUni.str) : PyUni.str :=
  match ws with
  | [] => []
  | w :: rest => (w ++ flat_map (fun v => 32%N :: v) rest)%list
  end.

(** A prompt of ten tokens, set apart by runs of spaces, a tab and an
    ideographic space (U+3000). *)
Definition wordy_prompt : PyUni.str :=
  (PyUni.of_string "  please   renew" ++ [9%N] ++ PyUni.of_string "my fishing"
   ++ [12288%N] ++ PyUni.of_string "license for the next two years ")%list.

(** A text of the backend whose first line has 90 characters. *)
Definition long_first_line_text : PyUni.str :=
  (PyUni.of_string
     "Dear Sir or Madam, I am writing to ask you to renew my fishing license for two more years."
   ++ [PyUni.LF] ++ PyUni.of_string "Best regards")%list.

(** A reply of the backend in code points below 256, as a reply in code
    points. *)
Definition of_reply (r : ApiReply) : PyUni.ApiReply :=
  match r with
  | ApiRaised => PyUni.ApiRaised
  | ApiNoCandidates => PyUni.ApiNoCandidates
  | ApiText text => PyUni.ApiText (PyUni.of_string text)
  end.

(** ** The mailer *)

(** The transport [send_email] picks. *)
Definition transport_of (st : Settings) : Transport :=
  if smtp_port st =? 465 then SMTP_SSL else SMTP_STARTTLS.

(** The calls that come before [send_message] (lines 18-19 and 22-26). *)
Definition before_send (t : Transport) : list SmtpCall :=
  match t with
  | SMTP_SSL => [Connect; Login]
  | SMTP_STARTTLS => [Connect; Ehlo; StartTls; EhloAfterTls; Login]
  end.

(** [subj] is the first [n] characters of the first line of [c]: [c] starts
    with a line that holds no line feed and is followed by nothing or by a
    line feed, and [subj] is the prefix of that line of length [n], or the
    whole line when it is shorter. *)
Definition first_chars_of_first_line (n : nat) (c subj : string) : Prop :=
  exists line rest tail,
    c = line ++ rest
    /\ (rest = "" \/ exists r, rest = String PyStr.LF r)
    /\ no_line_feed line
    /\ line = subj ++ tail
    /\ String.length subj = Nat.min n (String.length line).

(** A draft with no stored subject whose first line has 60 characters. *)
Definition long_line_draft : Draft :=
  mkDraft 2 "renew license"
          ("Dear Sir/Madam, I am writing to renew my fishing license now" ++ PyStr.nl
           ++ "Best regards")
          "ann@example.org" "formal" "draft" "general" noon_2024_03_15 None None.

(* ===================================================================== *)
(** * Lemmas: strings and the generator *)
(* ===================================================================== *)

Section StringLemmas.
Import PyStr.

(** [String.append] is kept folded by [simpl]; its two equations. *)
Lemma append_nil (b : string) : "" ++ b = b.
Proof. reflexivity. Qed.

Lemma append_cons (x : ascii) (a b : string) : String x a ++ b = String x (a ++ b).
Proof. reflexivity. Qed.

Lemma append_assoc_str (a b c : string) : (a ++ b) ++ c = a ++ (b ++ c).
Proof.
  induction a as [|x a IH]; [reflexivity|].
  now rewrite !append_cons, IH.
Qed.

Lemma truthy_false (s : string) : truthy s = false <-> s = "".
Proof. destruct s; simpl; split; congruence. Qed.

Lemma lstrip_no_leading_space s : no_leading_space (lstrip s).
Proof.
  induction s as [|c r IH]; simpl; [exact I|].
  destruct (isspace c) eqn:E; [exact IH | simpl; exact E].
Qed.

Lemma lstrip_fixed s : no_leading_space s -> lstrip s = s.
Proof. destruct s as [|c r]; simpl; [reflexivity|]. now intros ->. Qed.

Lemma rstrip_no_leading_space s : no_leading_space s -> no_leading_space (rstrip s).
Proof.
  destruct s as [|c r]; simpl; [trivial|]. intros E.
  destruct (rstrip r); rewrite ?E; simpl; exact E.
Qed.

Lemma rstrip_idem s : rstrip (rstrip s) = rstrip s.
Proof.
  induction s as [|c r IH]; simpl; [reflexivity|].
  destruct (rstrip r) as [|c' r'] eqn:E.
  - destruct (isspace c) eqn:Ec; simpl; [reflexivity | now rewrite Ec].
  - simpl in *. now rewrite IH.
Qed.

Lemma strip_idem s : strip (strip s) = strip s.
Proof.
  unfold strip.
  rewrite (lstrip_fixed (rstrip (lstrip s))).
  - apply rstrip_idem.
  - apply rstrip_no_leading_space, lstrip_no_leading_space.
Qed.

(** A string that ends with a character that is not white space is left
    alone by [rstrip]. *)
Lemma rstrip_snoc s c : isspace c = false -> rstrip (s ++ String c "") = s ++ String c "".
Proof.
  intros E. induction s as [|x s IH].
  - rewrite append_nil. simpl. now rewrite E.
  - rewrite append_cons. simpl. rewrite IH. destruct s; reflexivity.
Qed.

Lemma strip_fixed c s c' :
  isspace c = false -> isspace c' = false ->
  strip (String c (s ++ String c' "")) = String c (s ++ String c' "").
Proof.
  intros E E'. unfold strip. rewrite lstrip_fixed by exact E.
  rewrite <- append_cons. now apply rstrip_snoc.
Qed.

End StringLemmas.

Section Generator.
Import PyStr.

Lemma unusable_falls_back st post prompt tone :
  backend_unusable st post prompt tone ->
  ed_content (generate_email_with_subject st post prompt tone)
  = fallback_content prompt tone.
Proof.
  unfold generate_email_with_subject, generate_email_content.
  intros [H | [H | [H | (text & H & E)]]]; rewrite H; simpl;
    try reflexivity; destruct (email_api_ready st); simpl;
    rewrite ?E; reflexivity.
Qed.

Lemma fallback_content_shape prompt tone :
  exists c s, isspace c = false
              /\ fallback_content prompt tone = String c (s ++ "]").
Proof.
  unfold fallback_content, fallback_greeting, fallback_closing.
  destruct (mem (lower tone) informal_tones).
  - exists "H"%char,
      ("i there," ++ nl ++ nl ++ prompt ++ nl ++ nl ++ "Best," ++ nl ++ "[Your Name").
    split; [reflexivity|]. rewrite !append_assoc_str. reflexivity.
  - exists "D"%char,
      ("ear Sir/Madam," ++ nl ++ nl ++ prompt ++ nl ++ nl
       ++ "Best regards," ++ nl ++ "[Your Name").
    split; [reflexivity|]. rewrite !append_assoc_str. reflexivity.
Qed.

Lemma strip_fallback_content prompt tone :
  strip (fallback_content prompt tone) = fallback_content prompt tone.
Proof.
  destruct (fallback_content_shape prompt tone) as (c & s & E & ->).
  now apply strip_fixed.
Qed.

(** The content the generator returns is already stripped. *)
Lemma content_is_stripped st post prompt tone :
  let c := ed_content (generate_email_with_subject st post prompt tone) in
  strip c = c.
Proof.
  unfold generate_email_with_subject, generate_email_content. simpl.
  destruct (negb _); [apply strip_fallback_content|].
  destruct (post _) as [| |text]; try apply strip_fallback_content.
  destruct (truthy (strip text)); [apply strip_idem | apply strip_fallback_content].
Qed.

End Generator.

(* ===================================================================== *)
(** * Lemmas: counting *)
(* ===================================================================== *)

Lemma count_if_cons {A} (p : A -> bool) (x : A) (l : list A) :
  count_if p (x :: l) = (if p x then 1 else 0) + count_if p l.
Proof. unfold count_if. simpl. destruct (p x); simpl length; lia. Qed.

Lemma count_if_nonneg {A} (p : A -> bool) (l : list A) : 0 <= count_if p l.
Proof. unfold count_if. lia. Qed.

Lemma count_if_le_length {A} (p : A -> bool) (l : list A) :
  count_if p l <= Z.of_nat (length l).
Proof.
  induction l as [|x l IH]; [unfold count_if; simpl; lia|].
  rewrite count_if_cons. simpl length. destruct (p x); lia.
Qed.

Lemma status_counts_partition (drafts : list Draft) :
  Forall known_status drafts ->
  count_if (has_status "sent") drafts + count_if (has_status "draft") drafts
  + count_if (has_status "failed") drafts = total_emails drafts.
Proof.
  unfold total_emails.
  induction 1 as [|d l Hd _ IH]; [reflexivity|].
  rewrite !count_if_cons. simpl length. unfold has_status at 1 3 5.
  destruct Hd as [-> | [-> | ->]]; simpl; lia.
Qed.

(** The fields of a report, read off the body of [compute_stats]. *)
Lemma compute_stats_fields (drafts : list Draft) (clock : Clock) (r : StatsReport) :
  compute_stats drafts clock = Some r ->
  total_sent r = count_if (has_status "sent") drafts
  /\ total_drafts r = count_if (has_status "draft") drafts
  /\ total_failed r = count_if (has_status "failed") drafts
  /\ success_rate r = PyNum.round_1 (raw_success_rate drafts)
  /\ popular_tones r = most_common (Counter (map tone drafts))
  /\ monthly drafts clock = Some (monthly_stats r).
Proof.
  unfold compute_stats. intros H.
  destruct (PyDate.sub_days _ 7) as [w|]; [|discriminate]. simpl in H.
  destruct (filter_raising _ drafts) as [rc|]; [|discriminate]. simpl in H.
  destruct (monthly drafts clock) as [ms|]; [|discriminate]. simpl in H.
  injection H as <-. simpl. repeat split; reflexivity.
Qed.

Section CounterLemmas.

Lemma first_index_app_in k l l' : In k l -> first_index k (l ++ l') = first_index k l.
Proof.
  induction l as [|x l IH]; simpl; [tauto|].
  intros [-> | H]; [now rewrite String.eqb_refl|].
  destruct (String.eqb x k); [reflexivity | now rewrite IH].
Qed.

Lemma first_index_lt k l : In k l -> (first_index k l < length l)%nat.
Proof.
  induction l as [|x l IH]; simpl; [tauto|].
  intros [-> | H]; [rewrite String.eqb_refl; lia|].
  destruct (String.eqb x k); [lia | specialize (IH H); lia].
Qed.

Lemma first_index_app_new k l : ~ In k l -> first_index k (l ++ [k]) = length l.
Proof.
  induction l as [|x l IH]; simpl; [now rewrite String.eqb_refl|].
  intros H. destruct (String.eqb_spec x k) as [->|_]; [tauto|].
  rewrite IH; tauto.
Qed.

Lemma occurrences_snoc k l t :
  occurrences k (l ++ [t]) = occurrences k l + (if String.eqb k t then 1 else 0).
Proof.
  unfold occurrences. induction l as [|x l IH].
  - simpl. rewrite count_if_cons. unfold count_if. simpl. lia.
  - change ((x :: l) ++ [t])%list with (x :: (l ++ [t]))%list.
    rewrite !count_if_cons, IH. lia.
Qed.

Lemma occurrences_notin k l : ~ In k l -> occurrences k l = 0.
Proof.
  unfold occurrences. induction l as [|x l IH]; [reflexivity|].
  intros H. rewrite count_if_cons.
  destruct (String.eqb_spec k x) as [->|_]; [simpl in H; tauto|].
  rewrite IH; [reflexivity | simpl in H; tauto].
Qed.

Lemma occurrences_pos k l : In k l -> 0 < occurrences k l.
Proof.
  unfold occurrences. induction l as [|x l IH]; simpl; [tauto|].
  intros H. rewrite count_if_cons. pose proof (count_if_nonneg (String.eqb k) l).
  destruct (String.eqb_spec k x) as [->|E]; [lia|].
  destruct H as [-> | H]; [congruence | specialize (IH H); lia].
Qed.

Lemma mem_In k l : PyStr.mem k l = true <-> In k l.
Proof.
  unfold PyStr.mem. rewrite existsb_exists. split.
  - intros (x & H & E). apply String.eqb_eq in E. now subst.
  - intros H. exists k. split; [exact H | apply String.eqb_refl].
Qed.

(** The keys after one more item. *)
Lemma counter_add_keys t c :
  map fst (counter_add t c)
  = if PyStr.mem t (map fst c) then map fst c else (map fst c ++ [t])%list.
Proof.
  induction c as [|[k n] c IH]; [reflexivity|]. simpl.
  unfold PyStr.mem in *. simpl.
  rewrite (String.eqb_sym t k).
  destruct (String.eqb k t); simpl; [reflexivity|].
  rewrite IH. destruct (existsb _ _); reflexivity.
Qed.

(** The counts after one more item. *)
Lemma counter_add_get t c k :
  get_count k (counter_add t c)
  = if String.eqb k t then Some (default 0 (get_count t c) + 1)
    else get_count k c.
Proof.
  induction c as [|[k' n] c IH]; simpl.
  - rewrite (String.eqb_sym t k). destruct (String.eqb k t); reflexivity.
  - destruct (String.eqb_spec k' t) as [->|E]; simpl.
    + rewrite (String.eqb_sym t k). destruct (String.eqb_spec k t); reflexivity.
    + rewrite IH. destruct (String.eqb_spec k' k) as [->|E'].
      * destruct (String.eqb_spec k t); [congruence | reflexivity].
      * reflexivity.
Qed.

Lemma Counter_snoc l t : Counter (l ++ [t]) = counter_add t (Counter l).
Proof. unfold Counter. now rewrite fold_left_app. Qed.

Lemma StronglySorted_snoc {A} (R : A -> A -> Prop) l x :
  StronglySorted R l -> Forall (fun y => R y x) l -> StronglySorted R (l ++ [x]).
Proof.
  induction 1 as [|y l Hs IH Hy]; intros Hx; simpl.
  - repeat constructor.
  - inversion Hx; subst. constructor; [auto|].
    apply Forall_app. split; [exact Hy | repeat constructor; assumption].
Qed.

Lemma StronglySorted_weaken {A} (R R' : A -> A -> Prop) l :
  (forall a b, In a l -> In b l -> R a b -> R' a b) ->
  StronglySorted R l -> StronglySorted R' l.
Proof.
  intros H Hs. induction Hs as [|y l Hs IH Hy]; constructor.
  - apply IH. intros a b Ha Hb. apply H; now right.
  - rewrite List.Forall_forall in *. intros b Hb.
    apply H; [now left | now right | auto].
Qed.

(** What [Counter] holds after a scan of [l]: one key per distinct item,
    in the order the items are first met, each with its number of
    occurrences. *)
Lemma Counter_spec l :
  let c := Counter l in
  NoDup (map fst c)
  /\ (forall k, In k (map fst c) <-> In k l)
  /\ (forall k, In k l -> get_count k c = Some (occurrences k l))
  /\ StronglySorted (fun a b => (first_index a l < first_index b l)%nat) (map fst c).
Proof.
  induction l as [|t l IH] using rev_ind.
  - simpl. repeat split; try constructor; simpl; tauto.
  - destruct IH as (Hnd & Hin & Hget & Hs). simpl.
    rewrite Counter_snoc, counter_add_keys.
    destruct (PyStr.mem t (map fst (Counter l))) eqn:Em.
    + apply mem_In, Hin in Em. repeat split.
      * exact Hnd.
      * rewrite Hin, in_app_iff. simpl. tauto.
      * rewrite Hin, in_app_iff. simpl. intros [H | [-> | []]]; [exact H | exact Em].
      * intros k Hk. rewrite counter_add_get, occurrences_snoc.
        destruct (String.eqb_spec k t) as [->|E].
        -- rewrite (Hget t Em). reflexivity.
        -- rewrite Hget; [f_equal; lia|].
           apply in_app_iff in Hk. simpl in Hk. destruct Hk as [H | [H | []]]; congruence.
      * eapply StronglySorted_weaken; [|exact Hs].
        intros a b Ha Hb. apply Hin in Ha, Hb.
        now rewrite !first_index_app_in.
    + assert (Hnt : ~ In t l).
      { intros H. apply Hin, mem_In in H. congruence. }
      repeat split.
      * apply NoDup_app. split; [exact Hnd|]. split.
        -- intros x Hx Hx'. apply list_elem_of_In in Hx, Hx'. simpl in Hx'.
           destruct Hx' as [<- | []]. apply Hin in Hx. tauto.
        -- repeat constructor. intros H. apply list_elem_of_In in H. simpl in H. tauto.
      * rewrite !in_app_iff, Hin. tauto.
      * rewrite !in_app_iff, Hin. tauto.
      * intros k Hk. rewrite counter_add_get, occurrences_snoc.
        destruct (String.eqb_spec k t) as [->|E].
        -- rewrite occurrences_notin by exact Hnt.
           destruct (get_count t (Counter l)) as [n|] eqn:Eg; [|reflexivity].
           exfalso. apply Hnt, Hin.
           clear -Eg. induction (Counter l) as [|[k' n'] c IH]; simpl in *; [discriminate|].
           destruct (String.eqb_spec k' t); [now left | right; auto].
        -- rewrite Hget; [f_equal; lia|].
           apply in_app_iff in Hk. simpl in Hk. destruct Hk as [H | [H | []]]; congruence.
      * apply StronglySorted_snoc.
        -- eapply StronglySorted_weaken; [|exact Hs].
           intros a b Ha Hb. apply Hin in Ha, Hb.
           now rewrite !first_index_app_in.
        -- apply List.Forall_forall. intros k Hk. apply Hin in Hk.
           rewrite first_index_app_in, first_index_app_new by assumption.
           now apply first_index_lt.
Qed.

End CounterLemmas.

Section MostCommon.

Lemma get_count_In k n c : get_count k c = Some n -> In (k, n) c.
Proof.
  induction c as [|[k' n'] c IH]; simpl; [discriminate|].
  destruct (String.eqb_spec k' k) as [->|_].
  - intros [= ->]. now left.
  - intros H. right. auto.
Qed.

Lemma In_get_count k n c : NoDup (map fst c) -> In (k, n) c -> get_count k c = Some n.
Proof.
  induction c as [|[k' n'] c IH]; simpl; [tauto|].
  intros Hnd [[= -> ->] | H].
  - now rewrite String.eqb_refl.
  - inversion Hnd as [|? ? Hk Hnd']; subst.
    destruct (String.eqb_spec k' k) as [->|_]; [|auto].
    exfalso. apply Hk. apply list_elem_of_In.
    change k with (fst (k, n)). now apply in_map.
Qed.

Lemma StronglySorted_keys {A B} (R : A -> A -> Prop) (c : list (A * B)) :
  StronglySorted R (map fst c) -> StronglySorted (fun a b => R (fst a) (fst b)) c.
Proof.
  induction c as [|x c IH]; simpl; intros H; [constructor|].
  inversion H as [|? ? Hs Hf]; subst. constructor; [auto|].
  rewrite List.Forall_forall in *. intros y Hy. apply Hf. now apply in_map.
Qed.

Lemma insert_desc_perm x l : Permutation (insert_desc x l) (x :: l).
Proof.
  induction l as [|y l IH]; simpl; [reflexivity|].
  destruct (snd x <? snd y); [|reflexivity].
  rewrite IH. apply perm_swap.
Qed.

Lemma most_common_perm c : Permutation (most_common c) c.
Proof.
  unfold most_common. induction c as [|x c IH]; simpl; [reflexivity|].
  rewrite insert_desc_perm. now constructor.
Qed.

Variable tones : list string.

Lemma tone_before_trans a b c :
  tone_before tones a b -> tone_before tones b c -> tone_before tones a c.
Proof. unfold tone_before. lia. Qed.

(** Putting one more item in front of those met after it keeps the order,
    and keeps it first among the items of equal count. *)
Lemma insert_desc_sorted x l :
  StronglySorted (tone_before tones) l ->
  Forall (seen_before tones x) l ->
  StronglySorted (tone_before tones) (insert_desc x l).
Proof.
  induction 1 as [|y l Hs IH Hy]; intros Hx; simpl.
  - repeat constructor.
  - inversion Hx as [|? ? Hxy Hxl]; subst.
    destruct (Z.ltb_spec (snd x) (snd y)) as [Hlt|Hge].
    + constructor; [auto|].
      eapply Permutation_Forall; [symmetry; apply insert_desc_perm|].
      constructor; [left; exact Hlt | exact Hy].
    + assert (Hfirst : tone_before tones x y).
      { unfold tone_before, seen_before in *. lia. }
      constructor; [constructor; assumption|].
      constructor; [exact Hfirst|].
      rewrite List.Forall_forall in *. intros z Hz.
      specialize (Hy z Hz). specialize (Hxl z Hz).
      unfold tone_before, seen_before in *. lia.
Qed.

Lemma most_common_sorted c :
  StronglySorted (seen_before tones) c ->
  StronglySorted (tone_before tones) (most_common c).
Proof.
  unfold most_common. induction 1 as [|x c Hs IH Hx]; simpl; [constructor|].
  apply insert_desc_sorted; [exact IH|].
  eapply Permutation_Forall; [symmetry; apply most_common_perm | exact Hx].
Qed.

End MostCommon.

(* ===================================================================== *)
(** * Lemmas: the table of drafts *)
(* ===================================================================== *)

Section StoreLemmas.

Lemma foldr_max_ge (l : list Z) k : In k l -> k <= foldr Z.max 0 l.
Proof.
  induction l as [|x l IH]; simpl; [tauto|].
  intros [-> | H]; [lia | specialize (IH H); lia].
Qed.

Lemma next_id_above (db : Store) k d : db !! k = Some d -> k < next_id db.
Proof.
  intros H. unfold next_id.
  enough (k <= foldr Z.max 0 (map fst (map_to_list db))) by lia.
  apply foldr_max_ge. apply elem_of_map_to_list in H.
  apply list_elem_of_In in H. change k with (fst (k, d)). now apply in_map.
Qed.

Lemma next_id_fresh (db : Store) : db !! next_id db = None.
Proof.
  destruct (db !! next_id db) as [d|] eqn:E; [|reflexivity].
  apply next_id_above in E. lia.
Qed.

Variable st : Settings.

Lemma generate_new post now request db :
  exists d, fst (generate st post now request db) !! next_id db = Some d
            /\ status d = "draft" /\ sent_at d = None.
Proof. unfold generate. simpl. rewrite lookup_insert_eq. eauto. Qed.

Lemma send_found smtp now k db d :
  db !! k = Some d ->
  exists d', fst (fst (send st smtp now k db)) !! k = Some d'
    /\ (if fst (send_email st smtp (recipient d) (send_subject d) (content d))
        then status d' = "sent" /\ sent_at d' = Some (as_stored (now_utc now))
             /\ status_code_of (snd (fst (send st smtp now k db))) = 200
        else status d' = "failed" /\ sent_at d' = sent_at d
             /\ status_code_of (snd (fst (send st smtp now k db))) = 500).
Proof.
  intros H. unfold send. rewrite H.
  destruct (send_email _ _ _ _ _) as [[|] out]; simpl;
    rewrite lookup_insert_eq; eauto.
Qed.

Lemma send_other smtp now j db k :
  j <> k -> fst (fst (send st smtp now j db)) !! k = db !! k.
Proof.
  intros Hne. unfold send. destruct (db !! j) as [d|]; [|reflexivity].
  destruct (send_email _ _ _ _ _) as [[|] out]; simpl;
    now rewrite lookup_insert_ne.
Qed.

(** A request that is not a send of draft [k] leaves the status and the
    send time of draft [k] alone. *)
Lemma handle_keeps rq db k d d' :
  db !! k = Some d -> handle st rq db !! k = Some d' -> sends k rq = false ->
  status d' = status d /\ sent_at d' = sent_at d.
Proof.
  intros Hd Hd' Hs. destruct rq as [post now request|smtp now j|j c|j|clock]; simpl in *.
  - unfold generate in Hd'. simpl in Hd'.
    rewrite lookup_insert_ne in Hd'; [split; congruence|].
    pose proof (next_id_above _ _ _ Hd). lia.
  - apply Z.eqb_neq in Hs. rewrite send_other in Hd' by exact Hs.
    split; congruence.
  - unfold update_draft in Hd'. destruct (db !! j) as [e|] eqn:Ej; simpl in Hd'.
    + destruct (decide (j = k)) as [->|Hne].
      * rewrite lookup_insert_eq in Hd'. injection Hd' as <-.
        rewrite Hd in Ej. injection Ej as <-. split; reflexivity.
      * rewrite lookup_insert_ne in Hd' by exact Hne. split; congruence.
    + split; congruence.
  - unfold delete_email in Hd'. destruct (db !! j) as [e|] eqn:Ej; simpl in Hd'.
    + destruct (decide (j = k)) as [->|Hne].
      * rewrite lookup_delete_eq in Hd'. discriminate.
      * rewrite lookup_delete_ne in Hd' by exact Hne. split; congruence.
    + split; congruence.
  - split; congruence.
Qed.

(** A request that is not the deletion of draft [k] keeps draft [k] in the
    table, and keeps it settled if it was. *)
Lemma handle_settled rq db k d :
  db !! k = Some d -> settled d -> deletes k rq = false ->
  exists d', handle st rq db !! k = Some d' /\ settled d'.
Proof.
  intros Hd Hset Hdel.
  destruct (sends k rq) eqn:Hs.
  - destruct rq as [| smtp now j | | |]; try discriminate.
    simpl in Hs. apply Z.eqb_eq in Hs. subst j. simpl.
    destruct (send_found smtp now k db d Hd) as (d' & E & H).
    exists d'. split; [exact E|]. unfold settled.
    destruct (fst (send_email _ _ _ _ _)); tauto.
  - assert (exists d', handle st rq db !! k = Some d') as (d' & E).
    { destruct rq as [post now request|smtp now j|j c|j|clock]; simpl in *.
      - unfold generate. simpl. rewrite lookup_insert_ne; [eauto|].
        pose proof (next_id_above _ _ _ Hd). lia.
      - apply Z.eqb_neq in Hs. rewrite send_other by exact Hs. eauto.
      - unfold update_draft. destruct (db !! j) as [e|] eqn:Ej; simpl; [|eauto].
        destruct (decide (j = k)) as [->|Hne].
        + rewrite lookup_insert_eq. eauto.
        + rewrite lookup_insert_ne by exact Hne. eauto.
      - apply Z.eqb_neq in Hdel.
        unfold delete_email. destruct (db !! j) as [e|] eqn:Ej; simpl; [|eauto].
        rewrite lookup_delete_ne by exact Hdel. eauto.
      - eauto. }
    exists d'. split; [exact E|].
    destruct (handle_keeps rq db k d d' Hd E Hs) as [E1 _].
    unfold settled in *. rewrite E1. exact Hset.
Qed.

Lemma run_settled rqs db k d :
  db !! k = Some d -> settled d ->
  forallb (fun rq => negb (deletes k rq)) rqs = true ->
  exists d', run st rqs db !! k = Some d' /\ settled d'.
Proof.
  revert db d. induction rqs as [|rq rqs IH]; intros db d Hd Hset Hdel; simpl in *.
  - eauto.
  - apply andb_true_iff in Hdel as [H1 H2]. apply negb_true_iff in H1.
    destruct (handle_settled rq db k d Hd Hset H1) as (d1 & E1 & S1).
    exact (IH _ _ E1 S1 H2).
Qed.

End StoreLemmas.

(** What the three routes answer when the draft is not in the table. *)
Lemma update_draft_missing (k : Z) (c : string) (db : Store) :
  db !! k = None ->
  update_draft k c db = (db, inr (HTTPException 500 "Error updating draft")).
Proof. intros H. unfold update_draft. now rewrite H. Qed.

Lemma delete_email_missing (k : Z) (db : Store) :
  db !! k = None ->
  delete_email k db = (db, inr (HTTPException 500 "Error deleting email")).
Proof. intros H. unfold delete_email. now rewrite H. Qed.

Lemma send_missing (st : Settings) (smtp : Smtp) (now : PyDate.datetime) (k : Z) (db : Store) :
  db !! k = None ->
  send st smtp now k db = (db, inr (HTTPException 404 "Draft not found"), []).
Proof. intros H. unfold send. now rewrite H. Qed.

(* ===================================================================== *)
(** * Lemmas: the calendar *)
(* ===================================================================== *)

Section Calendar.
Import PyDate.

Lemma all_from_spec p z fuel :
  all_from p z fuel = true -> forall i, z <= i < z + Z.of_nat fuel -> p i = true.
Proof.
  revert z. induction fuel as [|f IH]; intros z H i Hi; [lia|].
  simpl in H. apply andb_true_iff in H as [Hz Hr].
  destruct (Z.eq_dec i z) as [->|Hne]; [exact Hz|].
  apply (IH (z + 1) Hr). lia.
Qed.

Lemma month_and_day_checked (leapyear : bool) n :
  0 <= n < (if leapyear then 366 else 365) -> month_and_day_ok leapyear n = true.
Proof.
  intros H. destruct leapyear.
  - apply (all_from_spec (month_and_day_ok true) 0 366); [vm_compute; reflexivity | lia].
  - apply (all_from_spec (month_and_day_ok false) 0 365); [vm_compute; reflexivity | lia].
Qed.

Lemma ord2ymd_unfold n :
  ord2ymd n =
    let a := (n - 1) / DI400Y in
    let r0 := (n - 1) mod DI400Y in
    let b := r0 / DI100Y in
    let r1 := r0 mod DI100Y in
    let c := r1 / DI4Y in
    let r2 := r1 mod DI4Y in
    let e := r2 / 365 in
    let r3 := r2 mod 365 in
    let year := a * 400 + 1 + b * 100 + c * 4 + e in
    if (e =? 4) || (b =? 4) then (year - 1, 12, 31)
    else
      let '(m, d) := month_and_day ((e =? 3) && (negb (c =? 24) || (b =? 3))) r3 in
      (year, m, d).
Proof.
  unfold ord2ymd, month_and_day. cbv zeta.
  destruct (_ || _); [reflexivity|].
  destruct (_ <? _); reflexivity.
Qed.

Lemma is_leap_spec y :
  is_leap y = true <-> (y mod 4 = 0 /\ (y mod 100 <> 0 \/ y mod 400 = 0)).
Proof.
  unfold is_leap.
  rewrite andb_true_iff, orb_true_iff, negb_true_iff, !Z.eqb_eq, Z.eqb_neq.
  tauto.
Qed.

Lemma ord2ymd_ok n :
  1 <= n ->
  let '(y, m, d) := ord2ymd n in
  1 <= y /\ 1 <= m <= 12 /\ 1 <= d <= days_in_month y m /\ ymd2ord y m d = n.
Proof.
  intros Hn. rewrite ord2ymd_unfold. cbv zeta.
  unfold DI400Y, DI100Y, DI4Y.
  set (a := (n - 1) / 146097). set (r0 := (n - 1) mod 146097).
  set (b := r0 / 36524). set (r1 := r0 mod 36524).
  set (c := r1 / 1461). set (r2 := r1 mod 1461).
  set (e := r2 / 365). set (r3 := r2 mod 365).
  assert (Ha : n - 1 = 146097 * a + r0 /\ 0 <= r0 < 146097 /\ 0 <= a).
  { subst a r0. pose proof (Z.div_mod (n - 1) 146097).
    pose proof (Z.mod_pos_bound (n - 1) 146097).
    pose proof (Z.div_pos (n - 1) 146097). lia. }
  assert (Hb : r0 = 36524 * b + r1 /\ 0 <= r1 < 36524 /\ 0 <= b <= 4).
  { subst b r1. pose proof (Z.div_mod r0 36524).
    pose proof (Z.mod_pos_bound r0 36524).
    assert (0 <= r0 / 36524 < 5); [|lia].
    split; [apply Z.div_pos; lia|]. apply Z.div_lt_upper_bound; lia. }
  assert (Hc : r1 = 1461 * c + r2 /\ 0 <= r2 < 1461 /\ 0 <= c <= 24).
  { subst c r2. pose proof (Z.div_mod r1 1461).
    pose proof (Z.mod_pos_bound r1 1461).
    assert (0 <= r1 / 1461 < 25); [|lia].
    split; [apply Z.div_pos; lia|]. apply Z.div_lt_upper_bound; lia. }
  assert (He : r2 = 365 * e + r3 /\ 0 <= r3 < 365 /\ 0 <= e <= 4).
  { subst e r3. pose proof (Z.div_mod r2 365).
    pose proof (Z.mod_pos_bound r2 365).
    assert (0 <= r2 / 365 < 5); [|lia].
    split; [apply Z.div_pos; lia|]. apply Z.div_lt_upper_bound; lia. }
  clearbody a r0 b r1 c r2 e r3.
  set (year := a * 400 + 1 + b * 100 + c * 4 + e).
  destruct ((e =? 4) || (b =? 4)) eqn:Hsp.
  - (* the last day of a leap year *)
    assert (Hy : exists q, year - 1 = 4 * q /\ ((year - 1) mod 100 <> 0 \/ (year - 1) mod 400 = 0)
                           /\ days_before_year (year - 1) + 366 = n).
    { apply orb_true_iff in Hsp. rewrite !Z.eqb_eq in Hsp.
      unfold days_before_year. subst year.
      destruct Hsp as [-> | ->].
      - exists (100 * a + 25 * b + c + 1).
        assert (c <= 23) by lia. assert (b <= 3) by lia.
        split; [lia|]. split.
        + left. Z.to_euclidean_division_equations. lia.
        + set (y := a * 400 + 1 + b * 100 + c * 4 + 4 - 1 - 1).
          assert (y / 4 = 100 * a + 25 * b + c)
            by (subst y; Z.to_euclidean_division_equations; lia).
          assert (y / 100 = 4 * a + b)
            by (subst y; Z.to_euclidean_division_equations; lia).
          assert (y / 400 = a)
            by (subst y; Z.to_euclidean_division_equations; lia).
          lia.
      - exists (100 * a + 100). Z.to_euclidean_division_equations. lia. }
    destruct Hy as (q & Hq & Hc100 & Hd).
    assert (Hleap : is_leap (year - 1) = true).
    { apply is_leap_spec. split; [|exact Hc100]. rewrite Hq.
      rewrite Z.mul_comm. apply Z.mod_mul. lia. }
    unfold days_in_month, ymd2ord, days_before_month. rewrite Hleap.
    change (DAYS_BEFORE_MONTH 12) with 334. change (DAYS_IN_MONTH 12) with 31.
    change (12 =? 2) with false. change (2 <? 12) with true. cbv iota beta.
    change (false && true) with false. change (true && true) with true.
    cbv iota. subst year. lia.
  - apply orb_false_iff in Hsp. rewrite !Z.eqb_neq in Hsp.
    set (leapyear := (e =? 3) && (negb (c =? 24) || (b =? 3))).
    assert (Hleap : is_leap year = leapyear).
    { subst leapyear year. apply eq_true_iff_eq. rewrite is_leap_spec.
      rewrite andb_true_iff, orb_true_iff, negb_true_iff, !Z.eqb_eq, Z.eqb_neq.
      Z.to_euclidean_division_equations. lia. }
    assert (Hdby : days_before_year year = n - 1 - r3).
    { unfold days_before_year. subst year.
      Z.to_euclidean_division_equations. lia. }
    assert (Hr3 : 0 <= r3 < (if leapyear then 366 else 365)).
    { destruct leapyear; lia. }
    pose proof (month_and_day_checked leapyear r3 Hr3) as Hmd.
    unfold month_and_day_ok in Hmd.
    destruct (month_and_day leapyear r3) as [m d].
    rewrite !andb_true_iff in Hmd. destruct Hmd as ((((H1 & H2) & H3) & H4) & H5).
    apply Z.leb_le in H1, H2, H3, H4. apply Z.eqb_eq in H5.
    unfold days_in_month, ymd2ord, days_before_month. rewrite Hleap.
    assert (Hdim : (if (m =? 2) && leapyear then 29 else DAYS_IN_MONTH m)
                   = DAYS_IN_MONTH m + (if (m =? 2) && leapyear then 1 else 0)).
    { destruct ((m =? 2) && leapyear) eqn:E; [|lia].
      apply andb_true_iff in E as [E _]. apply Z.eqb_eq in E. subst m. reflexivity. }
    rewrite Hdim. subst year. lia.
Qed.

(** ** The ordinal is monotone in the date *)

Lemma month_cases m :
  1 <= m <= 12 ->
  m = 1 \/ m = 2 \/ m = 3 \/ m = 4 \/ m = 5 \/ m = 6
  \/ m = 7 \/ m = 8 \/ m = 9 \/ m = 10 \/ m = 11 \/ m = 12.
Proof. lia. Qed.

Ltac each_month m H :=
  destruct (month_cases m H) as
    [-> | [-> | [-> | [-> | [-> | [-> | [-> | [-> | [-> | [-> | [-> | ->]]]]]]]]]]].

Lemma days_in_month_bounds y m : 1 <= m <= 12 -> 28 <= days_in_month y m <= 31.
Proof.
  intros H. unfold days_in_month.
  each_month m H; destruct (is_leap y); vm_compute; split; discriminate.
Qed.

(** The days before the next month. *)
Lemma days_before_next_month y m :
  1 <= m <= 11 ->
  days_before_month y (m + 1) = days_before_month y m + days_in_month y m.
Proof.
  intros H. unfold days_before_month, days_in_month.
  assert (H' : 1 <= m <= 12) by lia.
  each_month m H'; try lia; destruct (is_leap y); reflexivity.
Qed.

Lemma days_before_month_mono y m m' :
  1 <= m -> m < m' <= 12 ->
  days_before_month y m + days_in_month y m <= days_before_month y m'.
Proof.
  intros H1 H2.
  assert (Hm : 1 <= m <= 12) by lia. assert (Hm' : 1 <= m' <= 12) by lia.
  unfold days_before_month, days_in_month.
  each_month m Hm; each_month m' Hm'; try lia; destruct (is_leap y); vm_compute;
    discriminate.
Qed.

Lemma days_before_year_next y :
  days_before_year (y + 1) = days_before_year y + (if is_leap y then 366 else 365).
Proof.
  unfold days_before_year.
  destruct (is_leap y) eqn:E.
  - apply is_leap_spec in E. Z.to_euclidean_division_equations. lia.
  - assert (E' : ~ (y mod 4 = 0 /\ (y mod 100 <> 0 \/ y mod 400 = 0))).
    { rewrite <- is_leap_spec. congruence. }
    Z.to_euclidean_division_equations. lia.
Qed.

Lemma days_before_year_mono y y' : y <= y' -> days_before_year y <= days_before_year y'.
Proof.
  intros H. unfold days_before_year. Z.to_euclidean_division_equations. lia.
Qed.

Lemma year_end y : days_before_month y 12 + days_in_month y 12
                   = if is_leap y then 366 else 365.
Proof. unfold days_before_month, days_in_month. destruct (is_leap y); reflexivity. Qed.

(** A date lies within its year. *)
Lemma ymd2ord_within_year y m d :
  1 <= m <= 12 -> 1 <= d <= days_in_month y m ->
  days_before_year y < ymd2ord y m d <= days_before_year (y + 1).
Proof.
  intros Hm Hd. unfold ymd2ord. rewrite days_before_year_next, <- year_end.
  assert (0 <= days_before_month y m).
  { unfold days_before_month. each_month m Hm; destruct (is_leap y); vm_compute;
      discriminate. }
  destruct (Z.eq_dec m 12) as [->|Hne]; [lia|].
  pose proof (days_before_month_mono y m 12).
  pose proof (days_in_month_bounds y 12). lia.
Qed.

Lemma ymd2ord_lt y m d y' m' d' :
  1 <= m <= 12 -> 1 <= d <= days_in_month y m ->
  1 <= m' <= 12 -> 1 <= d' <= days_in_month y' m' ->
  ymd_lt y m d y' m' d' -> ymd2ord y m d < ymd2ord y' m' d'.
Proof.
  intros Hm Hd Hm' Hd' [Hy | [-> [Hlt | [-> Hlt]]]].
  - pose proof (ymd2ord_within_year y m d Hm Hd).
    pose proof (ymd2ord_within_year y' m' d' Hm' Hd').
    pose proof (days_before_year_mono (y + 1) y'). lia.
  - unfold ymd2ord. pose proof (days_before_month_mono y' m m'). lia.
  - unfold ymd2ord. lia.
Qed.

Lemma ymd2ord_inj y m d y' m' d' :
  1 <= m <= 12 -> 1 <= d <= days_in_month y m ->
  1 <= m' <= 12 -> 1 <= d' <= days_in_month y' m' ->
  ymd2ord y m d = ymd2ord y' m' d' -> y = y' /\ m = m' /\ d = d'.
Proof.
  intros Hm Hd Hm' Hd' E.
  destruct (Z.lt_trichotomy y y') as [H | [-> | H]].
  - pose proof (ymd2ord_lt y m d y' m' d' Hm Hd Hm' Hd' (or_introl H)). lia.
  - destruct (Z.lt_trichotomy m m') as [H | [-> | H]].
    + pose proof (ymd2ord_lt y' m d y' m' d' Hm Hd Hm' Hd').
      unfold ymd_lt in *. lia.
    + unfold ymd2ord in E. lia.
    + pose proof (ymd2ord_lt y' m' d' y' m d Hm' Hd' Hm Hd).
      unfold ymd_lt in *. lia.
  - pose proof (ymd2ord_lt y' m' d' y m d Hm' Hd' Hm Hd (or_introl H)). lia.
Qed.

(** [fromordinal(d.toordinal())] is [d]. *)
Lemma ord2ymd_ymd2ord y m d :
  1 <= y -> 1 <= m <= 12 -> 1 <= d <= days_in_month y m ->
  ord2ymd (ymd2ord y m d) = (y, m, d).
Proof.
  intros Hy Hm Hd.
  assert (Hn : 1 <= ymd2ord y m d).
  { pose proof (ymd2ord_within_year y m d Hm Hd).
    pose proof (days_before_year_mono 1 y Hy).
    change (days_before_year 1) with 0 in *. lia. }
  pose proof (ord2ymd_ok _ Hn) as H.
  destruct (ord2ymd (ymd2ord y m d)) as [[y' m'] d'].
  destruct H as (_ & Hm' & Hd' & E).
  destruct (ymd2ord_inj _ _ _ _ _ _ Hm' Hd' Hm Hd E) as (-> & -> & ->).
  reflexivity.
Qed.

End Calendar.

Section Datetimes.
Import PyDate.

Lemma days_before_year_10000 : days_before_year 10000 = MAXORDINAL.
Proof. reflexivity. Qed.

Lemma toordinal_bounds d :
  valid d -> 1 <= toordinal d <= MAXORDINAL.
Proof.
  intros (Hy & Hm & Hd & _). unfold toordinal.
  pose proof (ymd2ord_within_year _ _ _ Hm Hd).
  pose proof (days_before_year_mono 1 (year d)).
  pose proof (days_before_year_mono (year d + 1) 10000).
  rewrite days_before_year_10000 in *.
  change (days_before_year 1) with 0 in *. lia.
Qed.

(** Adding days, when the date reached is known. *)
Lemma add_days_to d n y m dd :
  toordinal d + n = ymd2ord y m dd ->
  1 <= y <= 9999 -> 1 <= m <= 12 -> 1 <= dd <= days_in_month y m ->
  add_days d n = Some (mkdatetime y m dd (tod d) (tzinfo d)).
Proof.
  intros E Hy Hm Hd. unfold add_days. rewrite E.
  assert (Hv : valid (mkdatetime y m dd 0 None)) by (repeat split; simpl; lia).
  apply toordinal_bounds in Hv. unfold toordinal in Hv. simpl in Hv.
  rewrite ord2ymd_ymd2ord by lia.
  destruct (Z.ltb_spec 0 (ymd2ord y m dd)); [|lia].
  destruct (Z.leb_spec (ymd2ord y m dd) MAXORDINAL); [reflexivity | lia].
Qed.

(** Adding days within [date.min .. date.max]. *)
Lemma add_days_ok d n :
  valid d -> 0 < toordinal d + n <= MAXORDINAL ->
  exists d', add_days d n = Some d' /\ valid d'
             /\ toordinal d' = toordinal d + n
             /\ tod d' = tod d /\ tzinfo d' = tzinfo d.
Proof.
  intros Hv Hn.
  assert (H1 : 1 <= toordinal d + n) by lia.
  pose proof (ord2ymd_ok _ H1) as H.
  destruct (ord2ymd (toordinal d + n)) as [[y m] dd] eqn:E.
  destruct H as (Hy & Hm & Hd & Ho).
  assert (Hy' : y <= 9999).
  { destruct (Z.le_gt_cases y 9999) as [|Hgt]; [assumption|].
    pose proof (ymd2ord_within_year _ _ _ Hm Hd).
    pose proof (days_before_year_mono 10000 y).
    rewrite days_before_year_10000 in *. lia. }
  exists (mkdatetime y m dd (tod d) (tzinfo d)).
  split; [apply add_days_to; auto; lia|].
  destruct Hv as (_ & _ & _ & Ht).
  repeat split; simpl; auto; lia.
Qed.

Lemma replace_day_first d :
  valid d -> replace_day d 1 = Some (first_of_month d) /\ valid (first_of_month d).
Proof.
  intros (Hy & Hm & Hd & Ht). pose proof (days_in_month_bounds (year d) _ Hm).
  unfold replace_day, first_of_month.
  destruct (Z.leb_spec 1 (days_in_month (year d) (month d))); [|lia].
  split; [reflexivity|]. repeat split; simpl; lia.
Qed.

Lemma next_month_first y m :
  1 <= m <= 12 ->
  let '(y', m') := next_month y m in
  ymd2ord y' m' 1 = ymd2ord y m 1 + days_in_month y m /\ 1 <= m' <= 12
  /\ y <= y' <= y + 1.
Proof.
  intros Hm. unfold next_month.
  destruct (Z.eqb_spec m 12) as [->|Hne].
  - unfold ymd2ord. rewrite days_before_year_next.
    pose proof (year_end y).
    change (days_before_month (y + 1) 1) with
      (0 + (if (2 <? 1) && is_leap (y + 1) then 1 else 0)).
    simpl. lia.
  - unfold ymd2ord. rewrite days_before_next_month by lia. lia.
Qed.

(** The order of two valid datetimes is the order of their ordinals, then
    of their times of day. *)
Lemma lt_of_ordinal a b :
  valid a -> valid b -> toordinal a < toordinal b -> lt a b = true.
Proof.
  intros (_ & Hma & Hda & _) (_ & Hmb & Hdb & _) H.
  unfold lt, toordinal in *.
  destruct (Z.ltb_spec (year a) (year b)) as [|Hy]; [reflexivity|].
  destruct (Z.eqb_spec (year a) (year b)) as [Ey|Hny]; simpl.
  - destruct (Z.ltb_spec (month a) (month b)) as [|Hm]; [reflexivity|].
    destruct (Z.eqb_spec (month a) (month b)) as [Em|Hnm]; simpl.
    + rewrite Ey, Em in H. unfold ymd2ord in H.
      destruct (Z.ltb_spec (day a) (day b)); [reflexivity | lia].
    + pose proof (ymd2ord_lt _ _ _ _ _ _ Hmb Hdb Hma Hda) as L.
      unfold ymd_lt in L. lia.
  - pose proof (ymd2ord_lt _ _ _ _ _ _ Hmb Hdb Hma Hda) as L.
    unfold ymd_lt in L. lia.
Qed.

(** Lines 183-185: the window of round [i] starts [30 * i] days before day
    1 of the current month, at the time of day of the request, and ends on
    the last day of the month it starts in, at the same time of day. *)
Lemma month_window_spec now i :
  in_range now -> 0 <= i <= 5 ->
  exists month_start,
    month_window now i = Some (month_start, last_of_month month_start)
    /\ valid month_start
    /\ toordinal month_start = toordinal (first_of_month now) - 30 * i
    /\ tod month_start = tod now
    /\ tzinfo month_start = Some utc.
Proof.
  intros [Hv Hy] Hi. unfold month_window.
  assert (Hv' : valid (now_utc now)) by exact Hv.
  destruct (replace_day_first _ Hv') as [-> Hf]. simpl.
  assert (Ef : toordinal (first_of_month (now_utc now)) = toordinal (first_of_month now))
    by reflexivity.
  pose proof (toordinal_bounds _ Hf) as Hb.
  assert (Hlow : 366 <= toordinal (first_of_month now)).
  { rewrite <- Ef. destruct Hf as (_ & Hm & Hd & _).
    pose proof (ymd2ord_within_year _ _ _ Hm Hd).
    pose proof (days_before_year_mono 2 (year now)).
    change (days_before_year 2) with 365 in *.
    unfold toordinal. simpl in *. lia. }
  assert (Hhigh : toordinal (first_of_month now) <= days_before_year 9999).
  { rewrite <- Ef. destruct Hf as (_ & Hm & Hd & _).
    pose proof (ymd2ord_within_year _ _ _ Hm Hd).
    pose proof (days_before_year_mono (year now + 1) 9999).
    unfold toordinal. simpl in *. lia. }
  change (days_before_year 9999) with 3651694 in Hhigh.
  destruct (add_days_ok (first_of_month (now_utc now)) (- (30 * i)) Hf)
    as (ms & Es & Hvs & Hos & Hts & Hzs).
  { rewrite Ef. unfold MAXORDINAL. lia. }
  unfold sub_days. rewrite Es. simpl.
  exists ms. rewrite Ef in Hos.
  split; [|repeat split; try apply Hvs; solve [lia | assumption]].
  destruct (replace_day_first _ Hvs) as [-> Hfs]. simpl.
  destruct Hvs as (Hys & Hms & Hds & Htods).
  assert (Eo : toordinal ms = ymd2ord (year ms) (month ms) (day ms)) by reflexivity.
  (* the year of [month_start] is below 9999 *)
  assert (Hys' : year ms <= 9998).
  { destruct (Z.le_gt_cases (year ms) 9998) as [|Hgt]; [assumption|].
    pose proof (ymd2ord_within_year _ _ _ Hms Hds).
    pose proof (days_before_year_mono 9999 (year ms)).
    change (days_before_year 9999) with 3651694 in *. lia. }
  pose proof (days_in_month_bounds (year ms) _ Hms) as Hdim.
  pose proof (next_month_first (year ms) (month ms) Hms) as Hnext.
  destruct (next_month (year ms) (month ms)) as [y' m'].
  destruct Hnext as (Enext & Hm' & Hy').
  pose proof (days_in_month_bounds y' _ Hm') as Hdim'.
  (* 32 days after day 1: a day of the next month *)
  rewrite (add_days_to _ 32 y' m' (33 - days_in_month (year ms) (month ms)));
    [| unfold toordinal, ymd2ord in *; simpl; lia | lia | lia | lia].
  simpl. unfold replace_day at 1. simpl.
  destruct (Z.leb_spec 1 (days_in_month y' m')); [|lia]. simpl.
  (* one day before day 1 of the next month *)
  rewrite (add_days_to _ (- 1) (year ms) (month ms)
             (days_in_month (year ms) (month ms)));
    [| unfold toordinal, ymd2ord in *; simpl; lia | lia | lia | lia].
  simpl. unfold last_of_month. rewrite Hts, Hzs. reflexivity.
Qed.

End Datetimes.

(* ===================================================================== *)
(** * Lemmas: the statistics *)
(* ===================================================================== *)

Section Stats.
Import PyDate.

Lemma ensure_aware_some c : ensure_aware (Some c) = Some (as_utc c).
Proof. unfold ensure_aware, as_utc. destruct (tzinfo c); reflexivity. Qed.

Lemma as_utc_aware c : tzinfo (as_utc c) = Some utc.
Proof. unfold as_utc. destruct (tzinfo c) as [[]|] eqn:E; [exact E | reflexivity]. Qed.

Lemma dt_le_aware a b :
  tzinfo a = Some utc -> tzinfo b = Some utc -> dt_le (Some a) (Some b) = Some (le a b).
Proof. intros Ha Hb. unfold dt_le, cmp_le. simpl. now rewrite Ha, Hb. Qed.

Lemma dt_le_created lo c :
  tzinfo lo = Some utc ->
  dt_le (Some lo) (ensure_aware (Some (created_at c)))
  = Some (le lo (as_utc (created_at c))).
Proof.
  intros Hlo. rewrite ensure_aware_some. apply dt_le_aware; auto using as_utc_aware.
Qed.

Lemma dt_between_aware lo hi c :
  tzinfo lo = Some utc -> tzinfo hi = Some utc ->
  dt_between (Some lo) (ensure_aware (Some (created_at c))) (Some hi)
  = Some (created_within lo hi c).
Proof.
  intros Hlo Hhi. unfold dt_between, created_within.
  rewrite ensure_aware_some, !dt_le_aware by (auto using as_utc_aware). simpl.
  destruct (le lo _); reflexivity.
Qed.

Lemma filter_raising_total {A} (p : A -> option bool) (q : A -> bool) l :
  (forall x, p x = Some (q x)) -> filter_raising p l = Some (List.filter q l).
Proof.
  intros H. induction l as [|x l IH]; [reflexivity|].
  simpl. rewrite H, IH. simpl. destruct (q x); reflexivity.
Qed.

Lemma window_start_spec now i month_start :
  valid month_start ->
  toordinal month_start = toordinal (first_of_month now) - 30 * i ->
  tod month_start = tod now -> tzinfo month_start = Some utc ->
  month_start = window_start now i.
Proof.
  intros (Hy & Hm & Hd & _) Ho Ht Hz. unfold window_start.
  rewrite <- Ho. unfold toordinal at 1. rewrite ord2ymd_ymd2ord by lia.
  destruct month_start. simpl in *. now subst.
Qed.

Lemma month_entry_spec drafts now i :
  in_range now -> 0 <= i <= 5 ->
  month_entry drafts now i = Some (entry_of drafts now i).
Proof.
  intros Hr Hi. unfold month_entry, entry_of.
  destruct (month_window_spec now i Hr Hi) as (ms & -> & Hv & Ho & Ht & Hz).
  rewrite <- (window_start_spec now i ms Hv Ho Ht Hz). simpl.
  rewrite (filter_raising_total _ (created_within ms (last_of_month ms))).
  - reflexivity.
  - intros c. now apply dt_between_aware.
Qed.

Lemma monthly_spec drafts (clock : Clock) :
  (forall k, in_range (clock k)) ->
  monthly drafts clock
  = Some (rev (map (fun i : nat => entry_of drafts (clock (S i)) (Z.of_nat i)) (seq 0 6))).
Proof.
  intros H. unfold monthly. simpl.
  rewrite !month_entry_spec by (auto; lia). reflexivity.
Qed.

Lemma monthly_at drafts now :
  in_range now ->
  monthly drafts (fun _ => now) = Some (map (entry_of drafts now) rounds).
Proof. intros H. now rewrite monthly_spec. Qed.

Lemma week_ago_total now :
  in_range now -> exists w, sub_days (now_utc now) 7 = Some w /\ tzinfo w = Some utc.
Proof.
  intros [Hv Hy].
  assert (Hv' : valid (now_utc now)) by exact Hv.
  destruct (add_days_ok (now_utc now) (- 7) Hv') as (w & E & _ & _ & _ & Hz).
  - pose proof (toordinal_bounds _ Hv').
    destruct Hv' as (_ & Hm & Hd & _).
    pose proof (ymd2ord_within_year _ _ _ Hm Hd).
    pose proof (days_before_year_mono 2 (year now)).
    change (days_before_year 2) with 365 in *.
    unfold toordinal in *. simpl in *. lia.
  - exists w. split; [exact E | exact Hz].
Qed.

(** The report is computed at every instant in range. *)
Lemma compute_stats_total drafts (clock : Clock) :
  (forall k, in_range (clock k)) -> exists r, compute_stats drafts clock = Some r.
Proof.
  intros H. unfold compute_stats.
  destruct (week_ago_total _ (H 0%nat)) as (w & -> & Hz). simpl.
  rewrite (filter_raising_total _ (fun d => le w (as_utc (created_at d)))).
  - simpl. rewrite monthly_spec by exact H. simpl. eauto.
  - intros c. now apply dt_le_created.
Qed.

End Stats.

Lemma in_range_noon : in_range noon_2024_03_15.
Proof. repeat split; vm_compute; discriminate. Qed.

Lemma window_start_facts now i :
  in_range now -> 0 <= i <= 5 ->
  PyDate.valid (window_start now i)
  /\ PyDate.toordinal (window_start now i)
     = PyDate.toordinal (first_of_month now) - 30 * i.
Proof.
  intros Hr Hi.
  destruct (month_window_spec now i Hr Hi) as (ms & _ & Hv & Ho & Ht & Hz).
  rewrite <- (window_start_spec now i ms Hv Ho Ht Hz). auto.
Qed.

Lemma window_start_0 now :
  in_range now -> window_start now 0 = first_of_month (now_utc now).
Proof.
  intros [Hv Hy]. symmetry. apply window_start_spec.
  - apply (replace_day_first (now_utc now)). exact Hv.
  - unfold PyDate.toordinal. simpl. lia.
  - reflexivity.
  - reflexivity.
Qed.

(* ===================================================================== *)
(** * Lemmas: characters, lines and the mailer *)
(* ===================================================================== *)

Section CharLemmas.
Import PyStr.

Lemma forall_char_app p a b :
forall_char p (a ++ b) = forall_char p a && forall_char p b.
Proof.
induction a as [|c a IH]; [reflexivity|].
rewrite append_cons. simpl. rewrite IH. apply andb_assoc.
Qed.

Lemma forall_char_weaken (p q : ascii -> bool) s :
(forall c, p c = true -> q c = true) ->
forall_char p s = true -> forall_char q s = true.
Proof.
intros H. induction s as [|c s IH]; simpl; [reflexivity|].
rewrite !andb_true_iff. intros [Hc Hs]. auto.
Qed.

Lemma forall_char_take p n s :
forall_char p s = true -> forall_char p (take n s) = true.
Proof.
revert s. induction n as [|n IH]; intros [|c s]; simpl; try reflexivity.
rewrite !andb_true_iff. intros [Hc Hs]. auto.
Qed.

(** Element 0 of [s.split(sep)] does not hold [sep]. *)
Lemma split_on_head_free sep s :
forall_char (fun c => negb (Ascii.eqb c sep)) (fst (split_on sep s)) = true.
Proof.
induction s as [|c s IH]; simpl; [reflexivity|].
destruct (split_on sep s) as [h t]. simpl in *.
destruct (Ascii.eqb c sep) eqn:E; simpl; [reflexivity|].
now rewrite E, IH.
Qed.

(** [s.split()] yields words. *)
Lemma split_ws_words s : Forall is_word (split_ws s).
Proof.
induction s as [|c s IH]; simpl; [constructor|].
destruct (isspace c) eqn:Ec; [exact IH|].
destruct s as [|c' s'].
- repeat constructor; [discriminate | simpl; now rewrite Ec].
- destruct (isspace c') eqn:Ec'.
  + constructor; [|exact IH]. split; [discriminate | simpl; now rewrite Ec].
  + destruct (split_ws (String c' s')) as [|w ws].
    * repeat constructor; [discriminate | simpl; now rewrite Ec].
    * inversion IH as [|? ? [Hw1 Hw2] Hws]; subst.
      constructor; [|exact Hws]. split; [discriminate|].
      simpl. now rewrite Ec, Hw2.
Qed.

Lemma join_forall_char p sep l :
forall_char p sep = true ->
Forall (fun w => forall_char p w = true) l ->
forall_char p (join sep l) = true.
Proof.
intros Hsep H. induction H as [|w l Hw Hl IH]; [reflexivity|].
simpl. destruct l as [|w' l']; [exact Hw|].
rewrite !forall_char_app, Hw, Hsep. exact IH.
Qed.

Lemma Forall_firstn {A} (P : A -> Prop) n l : Forall P l -> Forall P (firstn n l).
Proof.
intros H. revert n. induction H as [|x l Hx Hl IH]; intros [|n]; simpl;
  constructor; auto.
Qed.

Lemma LF_is_space : isspace LF = true.
Proof. reflexivity. Qed.

Lemma word_no_line_feed w : is_word w -> no_line_feed w.
Proof.
intros [_ H]. unfold no_line_feed. eapply forall_char_weaken; [|exact H].
intros c Hc. destruct (Ascii.eqb_spec c LF) as [->|]; [|reflexivity].
now rewrite LF_is_space in Hc.
Qed.

Lemma subject_no_line_feed st post prompt tone :
no_line_feed (ed_subject (generate_email_with_subject st post prompt tone)).
Proof.
unfold generate_email_with_subject. simpl.
destruct (_ <? 80).
- apply split_on_head_free.
- apply join_forall_char; [reflexivity|].
  apply Forall_firstn.
  eapply List.Forall_impl; [|apply split_ws_words].
  intros w Hw. now apply word_no_line_feed.
Qed.

Lemma strip_nonempty_head s :
strip s <> "" -> exists c r, strip s = String c r /\ isspace c = false.
Proof.
unfold strip. intros H.
pose proof (rstrip_no_leading_space _ (lstrip_no_leading_space s)) as Hl.
destruct (rstrip (lstrip s)) as [|c r]; [congruence|]. simpl in Hl. eauto.
Qed.

End CharLemmas.

Section Lines.
Import PyStr.

(** [s.split(sep)]: element 0 is a prefix of [s], followed by nothing or by
    the separator. *)
Lemma split_on_head_prefix sep s :
  exists rest, s = fst (split_on sep s) ++ rest
               /\ (rest = "" \/ exists r, rest = String sep r).
Proof.
  induction s as [|c s IH]; simpl.
  - exists "". split; [reflexivity | now left].
  - destruct IH as (rest & E & Hr). destruct (split_on sep s) as [h t]. simpl in *.
    destruct (Ascii.eqb_spec c sep) as [->|Hne]; simpl.
    + exists (String sep s). split; [reflexivity | right; eauto].
    + exists rest. split; [|exact Hr]. rewrite append_cons. congruence.
Qed.

(** [s[:n]] is the prefix of [s] of length [min n (len s)]. *)
Lemma take_prefix n s :
  exists tail, s = take n s ++ tail
               /\ String.length (take n s) = Nat.min n (String.length s).
Proof.
  revert s. induction n as [|n IH]; intros [|c s]; simpl.
  - exists "". split; reflexivity.
  - exists (String c s). split; reflexivity.
  - exists "". split; reflexivity.
  - destruct (IH s) as (tail & E & L). exists tail.
    rewrite append_cons. split; [congruence | now rewrite L].
Qed.

Lemma take_first_line n c :
  first_chars_of_first_line n c (take n (fst (split_on LF c))).
Proof.
  destruct (split_on_head_prefix LF c) as (rest & E & Hr).
  destruct (take_prefix n (fst (split_on LF c))) as (tail & Et & Lt).
  exists (fst (split_on LF c)), rest, tail.
  split; [exact E|]. split; [exact Hr|]. split; [apply split_on_head_free|].
  split; [exact Et | exact Lt].
Qed.

(** Two lines that start the same string are the same line. *)
Lemma first_line_unique (l l' r r' : string) :
  no_line_feed l -> no_line_feed l' ->
  (r = "" \/ exists t, r = String LF t) -> (r' = "" \/ exists t, r' = String LF t) ->
  l ++ r = l' ++ r' -> l = l'.
Proof.
  unfold no_line_feed. revert l'.
  induction l as [|x l IH]; intros [|y l'] Hl Hl' Hr Hr' E;
    rewrite ?append_nil, ?append_cons in E; simpl in Hl, Hl'.
  - reflexivity.
  - destruct Hr as [->|(t & ->)]; [discriminate|]. injection E as <- _.
    rewrite Ascii.eqb_refl in Hl'. discriminate.
  - destruct Hr' as [->|(t & ->)]; [discriminate|]. injection E as -> _.
    rewrite Ascii.eqb_refl in Hl. discriminate.
  - injection E as -> E. apply andb_true_iff in Hl as [_ Hl].
    apply andb_true_iff in Hl' as [_ Hl']. f_equal. now apply (IH l').
Qed.

(** Two prefixes of one string that have the same length are the same. *)
Lemma prefix_length_unique (a a' b b' : string) :
  a ++ b = a' ++ b' -> String.length a = String.length a' -> a = a'.
Proof.
  revert a'. induction a as [|x a IH]; intros [|y a'] E L; try discriminate L.
  - reflexivity.
  - rewrite !append_cons in E. injection E as -> E. injection L as L.
    f_equal. now apply IH.
Qed.

(** There is one subject that is the first [n] characters of the first line
    of [c]. *)
Lemma first_chars_of_first_line_unique n c subj subj' :
  first_chars_of_first_line n c subj -> first_chars_of_first_line n c subj' ->
  subj = subj'.
Proof.
  intros (l & r & t & E & Hr & Hl & El & Ln) (l' & r' & t' & E' & Hr' & Hl' & El' & Ln').
  assert (l = l') by (apply (first_line_unique l l' r r'); auto; congruence).
  subst l'. apply (prefix_length_unique subj subj' t t'); congruence.
Qed.

End Lines.

Section Mailer.

Variables (st : Settings) (smtp : Smtp) (to_email subject content : string).

(** One session hands the message over exactly when the calls before
    [send_message] all return, and succeeds exactly when no call raises. *)
Lemma smtp_session_spec (t : Transport) (m : Message) :
  smtp_session smtp t m
  = (forallb (fun c => negb (smtp t m c)) (session t),
     if forallb (fun c => negb (smtp t m c)) (before_send t) then [(t, m)] else []).
Proof.
  unfold smtp_session. destruct t; simpl;
    repeat match goal with |- context [smtp ?t ?m ?c] => destruct (smtp t m c); simpl end;
    reflexivity.
Qed.

Lemma send_email_spec :
  smtp_configured st = true ->
  let msg := mkMessage subject (email_from st) to_email content in
  let t := transport_of st in
  send_email st smtp to_email subject content
  = (forallb (fun c => negb (smtp t msg c)) (session t),
     if forallb (fun c => negb (smtp t msg c)) (before_send t) then [(t, msg)] else []).
Proof.
  intros H. unfold send_email, transport_of. rewrite H. simpl.
  destruct (smtp_port st =? 465); apply smtp_session_spec.
Qed.

(** Whatever is handed over is the message built on lines 12-15, over the
    transport the port selects. *)
Lemma send_email_handed :
  let msg := mkMessage subject (email_from st) to_email content in
  Forall (fun tm => tm = (transport_of st, msg))
         (snd (send_email st smtp to_email subject content)).
Proof.
  cbv zeta. destruct (smtp_configured st) eqn:H.
  - rewrite (send_email_spec H). simpl.
    destruct (forallb _ (before_send _)); repeat constructor.
  - unfold send_email. rewrite H. constructor.
Qed.

(** When the calls before [send_message] return, the message is handed
    over. *)
Lemma send_email_reached :
  smtp_configured st = true ->
  let msg := mkMessage subject (email_from st) to_email content in
  Forall (fun c => smtp (transport_of st) msg c = false) (before_send (transport_of st)) ->
  snd (send_email st smtp to_email subject content) = [(transport_of st, msg)].
Proof.
  intros H msg Hb. rewrite (send_email_spec H). simpl.
  replace (forallb _ (before_send _)) with true; [reflexivity|].
  symmetry. apply forallb_forall. rewrite List.Forall_forall in Hb.
  intros c Hc. apply negb_true_iff. exact (Hb c Hc).
Qed.

(** [True] is returned only after the message was handed over. *)
Lemma send_email_true :
  fst (send_email st smtp to_email subject content) = true ->
  let msg := mkMessage subject (email_from st) to_email content in
  smtp_configured st = true
  /\ snd (send_email st smtp to_email subject content) = [(transport_of st, msg)].
Proof.
  cbv zeta. destruct (smtp_configured st) eqn:H.
  - rewrite (send_email_spec H). simpl. intros Hok. split; [reflexivity|].
    replace (forallb _ (before_send _)) with true; [reflexivity|].
    symmetry. apply forallb_forall. intros c Hc.
    rewrite forallb_forall in Hok. apply Hok.
    destruct (transport_of st); simpl in *; tauto.
  - unfold send_email. rewrite H. discriminate.
Qed.

End Mailer.

Section Rounding.

Lemma div_half_even_nearest n d :
  0 < d -> nearest_half_even n d (PyNum.div_half_even n d).
Proof.
  intros Hd. unfold nearest_half_even, PyNum.div_half_even.
  pose proof (Z.div_mod n d ltac:(lia)) as E.
  pose proof (Z.mod_pos_bound n d Hd) as B.
  set (q := n / d) in *. set (r := n mod d) in *.
  destruct (Z.ltb_spec (2 * r) d) as [H1|H1].
  - replace (n - q * d) with r by lia. rewrite Z.abs_eq by lia. split; lia.
  - destruct (Z.ltb_spec d (2 * r)) as [H2|H2].
    + replace (n - (q + 1) * d) with (r - d) by lia.
      rewrite Z.abs_neq by lia. split; lia.
    + assert (Hr : 2 * r = d) by lia.
      destruct (Z.even q) eqn:Eq.
      * replace (n - q * d) with r by lia. rewrite Z.abs_eq by lia. split; [lia|auto].
      * replace (n - (q + 1) * d) with (r - d) by lia.
        rewrite Z.abs_neq by lia. split; [lia|]. intros _.
        rewrite Z.add_1_r, Z.even_succ, <- Z.negb_even, Eq. reflexivity.
Qed.

(** At most one integer is nearest with the tie to even. *)
Lemma nearest_half_even_unique n d t t' :
  0 < d -> nearest_half_even n d t -> nearest_half_even n d t' -> t = t'.
Proof.
  intros Hd [H1 E1] [H2 E2].
  assert (Hc : t = t' \/ (t' = t + 1 /\ 2 * (n - t * d) = d)
               \/ (t = t' + 1 /\ 2 * (n - t' * d) = d)) by nia.
  destruct Hc as [H|[[-> H]|[-> H]]]; [exact H| |].
  - assert (Z.even t = true) by (apply E1; lia).
    assert (Z.even (t + 1) = true) by (apply E2; nia).
    rewrite Z.add_1_r, Z.even_succ, <- Z.negb_even in *. destruct (Z.even t); discriminate.
  - assert (Z.even t' = true) by (apply E2; lia).
    assert (Z.even (t' + 1) = true) by (apply E1; nia).
    rewrite Z.add_1_r, Z.even_succ, <- Z.negb_even in *. destruct (Z.even t'); discriminate.
Qed.

Lemma round1_rounded x : rounded_to_tenth x (PyNum.round1 x).
Proof.
  unfold rounded_to_tenth, PyNum.round1.
  destruct (Prim2SF x) as [s|s| |s m e]; try reflexivity.
  eexists. split; [|destruct s; reflexivity].
  destruct (0 <=? e) eqn:He; [reflexivity|].
  apply div_half_even_nearest. apply Z.pow_pos_nonneg; [lia|].
  apply Z.leb_gt in He. lia.
Qed.

(** [rounded_to_tenth] leaves one value only. *)
Lemma rounded_to_tenth_unique x y : rounded_to_tenth x y -> y = PyNum.round1 x.
Proof.
  unfold rounded_to_tenth, PyNum.round1.
  destruct (Prim2SF x) as [s|s| |s m e]; try (intros ->; reflexivity).
  intros (t & Ht & ->).
  destruct (0 <=? e) eqn:He; [subst t; destruct s; reflexivity|].
  assert (Hd : 0 < 2 ^ (- e)).
  { apply Z.pow_pos_nonneg; [lia|]. apply Z.leb_gt in He. lia. }
  rewrite (nearest_half_even_unique _ _ _ _ Hd Ht (div_half_even_nearest _ _ Hd)).
  destruct s; reflexivity.
Qed.

End Rounding.

(* ===================================================================== *)
(** * Lemmas: strings over all code points *)
(* ===================================================================== *)

Section UnicodeStrings.
Import PyUni.
Local Open Scope list_scope.

(** The white space of [str.split], [str.strip] and [str.isspace]: the 29
    code points for which [chr(c).isspace()] holds. *)
Lemma uni_isspace_table (c : N) :
  isspace c = true
  <-> In c [9; 10; 11; 12; 13; 28; 29; 30; 31; 32; 133; 160; 5760;
            8192; 8193; 8194; 8195; 8196; 8197; 8198; 8199; 8200; 8201; 8202;
            8232; 8233; 8239; 8287; 12288]%N.
Proof.
  unfold isspace.
  rewrite !orb_true_iff, !andb_true_iff, !N.leb_le, !N.eqb_eq. simpl In. lia.
Qed.

Lemma uni_lstrip_head s :
  match lstrip s with [] => True | c :: _ => isspace c = false end.
Proof.
  induction s as [|c r IH]; simpl; [exact I|].
  destruct (isspace c) eqn:E; [exact IH | exact E].
Qed.

Lemma uni_rstrip_head c r :
  isspace c = false -> exists r', rstrip (c :: r) = c :: r'.
Proof.
  intros E. simpl. destruct (rstrip r) as [|c' r'].
  - rewrite E. now exists [].
  - now exists (c' :: r').
Qed.

Lemma uni_rstrip_idem s : rstrip (rstrip s) = rstrip s.
Proof.
  induction s as [|c r IH]; simpl; [reflexivity|].
  destruct (rstrip r) as [|c' r'] eqn:E.
  - destruct (isspace c) eqn:Ec; simpl; [reflexivity | now rewrite Ec].
  - simpl in *. now rewrite IH.
Qed.

Lemma uni_strip_idem s : strip (strip s) = strip s.
Proof.
  unfold strip. pose proof (uni_lstrip_head s) as H.
  destruct (lstrip s) as [|c r]; [reflexivity|].
  destruct (uni_rstrip_head c r H) as (r' & E). rewrite E.
  simpl lstrip. rewrite H. rewrite <- E. apply uni_rstrip_idem.
Qed.

(** A string that ends with a character that is not white space is left
    alone by [rstrip]. *)
Lemma uni_rstrip_snoc s c : isspace c = false -> rstrip (s ++ [c]) = s ++ [c].
Proof.
  intros E. induction s as [|x s IH]; simpl.
  - now rewrite E.
  - rewrite IH. destruct s; reflexivity.
Qed.

Lemma uni_strip_fixed c s c' :
  isspace c = false -> isspace c' = false ->
  strip (c :: s ++ [c']) = c :: s ++ [c'].
Proof.
  intros E E'. unfold strip. simpl lstrip. rewrite E.
  apply (uni_rstrip_snoc (c :: s) c' E').
Qed.

Lemma uni_fallback_content_shape lower prompt tone :
  exists c s, isspace c = false
              /\ fallback_content lower prompt tone = c :: s ++ [93%N].
Proof.
  unfold fallback_content, fallback_greeting, fallback_closing.
  destruct (mem (lower tone) informal_tones).
  - exists 72%N,
      (of_string "i there," ++ nl ++ nl ++ prompt ++ nl ++ nl
       ++ of_string "Best," ++ nl ++ of_string "[Your Name").
    split; [reflexivity|]. rewrite <- !app_assoc. reflexivity.
  - exists 68%N,
      (of_string "ear Sir/Madam," ++ nl ++ nl ++ prompt ++ nl ++ nl
       ++ of_string "Best regards," ++ nl ++ of_string "[Your Name").
    split; [reflexivity|]. rewrite <- !app_assoc. reflexivity.
Qed.

(** The content the generator returns is already stripped. *)
Lemma uni_content_is_stripped lower st post prompt tone :
  strip (ed_content (generate_email_with_subject lower st post prompt tone))
  = ed_content (generate_email_with_subject lower st post prompt tone).
Proof.
  assert (Hf : strip (fallback_content lower prompt tone)
               = fallback_content lower prompt tone).
  { destruct (uni_fallback_content_shape lower prompt tone) as (c & s & E & ->).
    now apply uni_strip_fixed. }
  unfold generate_email_with_subject, generate_email_content. simpl.
  destruct (negb _); [exact Hf|].
  destruct (post _) as [| |text]; try exact Hf.
  destruct (truthy (strip text)); [apply uni_strip_idem | exact Hf].
Qed.

(** Element 0 of [s.split(sep)] is the first line of [s]. *)
Lemma uni_split_on_first_line s : first_line_of s (fst (split_on LF s)).
Proof.
  induction s as [|c s IH]; simpl.
  - split; [intros []|]. exists []. split; [reflexivity | now left].
  - destruct IH as (Hn & rest & E & Hr). destruct (split_on LF s) as [h t]. simpl in *.
    destruct (N.eqb_spec c LF) as [->|Hne]; simpl.
    + split; [intros []|]. exists (LF :: s). split; [reflexivity | right; eauto].
    + split; [intros [H|H]; [congruence | exact (Hn H)]|].
      exists rest. split; [simpl; f_equal; exact E | exact Hr].
Qed.

(** A prefix that ends where the first character of one kind stands is
    determined. *)
Lemma prefix_unique (p : N -> bool) (w w' s s' : str) :
  Forall (fun c => p c = false) w -> Forall (fun c => p c = false) w' ->
  (s = [] \/ exists c r, s = c :: r /\ p c = true) ->
  (s' = [] \/ exists c r, s' = c :: r /\ p c = true) ->
  w ++ s = w' ++ s' -> w = w' /\ s = s'.
Proof.
  intros Hw. revert w'. induction Hw as [|x w Hx Hw IH]; intros w' Hw' Hs Hs' E.
  - destruct Hw' as [|y w' Hy Hw']; [now split|]. simpl in E.
    destruct Hs as [->|(c & r & -> & Hc)]; [discriminate|].
    injection E as E _. subst. congruence.
  - destruct Hw' as [|y w' Hy Hw']; simpl in E.
    + destruct Hs' as [->|(c & r & -> & Hc)]; [discriminate|].
      injection E as E _. subst. congruence.
    + injection E as E1 E. subst y.
      destruct (IH w' Hw' Hs Hs' E) as [-> ->]. now split.
Qed.

Lemma first_line_of_unique c l l' : first_line_of c l -> first_line_of c l' -> l = l'.
Proof.
  intros (Hn & r & E & Hr) (Hn' & r' & E' & Hr').
  assert (F : forall w, ~ In LF w -> Forall (fun c => (c =? LF)%N = false) w).
  { intros w Hw. apply List.Forall_forall. intros x Hx.
    apply N.eqb_neq. intros ->. exact (Hw Hx). }
  assert (G : forall s, (s = [] \/ exists r, s = LF :: r) ->
                        s = [] \/ exists c r, s = c :: r /\ (c =? LF)%N = true).
  { intros s [->|(t & ->)]; [now left | right]. exists LF, t. now split. }
  apply (prefix_unique (fun c => (c =? LF)%N) l l' r r'); auto. congruence.
Qed.

(** [split()] from a character that is not white space: the token that
    starts there, and the tokens of what follows it. *)
Lemma uni_split_ws_token r : forall c,
  isspace c = false ->
  exists w s,
    r = w ++ s
    /\ Forall (fun c => isspace c = false) w
    /\ (s = [] \/ exists c' s', s = c' :: s' /\ isspace c' = true)
    /\ split_ws (c :: r) = (c :: w) :: split_ws s.
Proof.
  induction r as [|c' r IH]; intros c E.
  - exists [], []. simpl. rewrite E. repeat split; auto.
  - destruct (isspace c') eqn:E'.
    + exists [], (c' :: r). split; [reflexivity|]. split; [constructor|].
      split; [right; eauto|]. simpl. now rewrite E, E'.
    + destruct (IH c' E') as (w & s & -> & Hw & Hs & Hsp).
      exists (c' :: w), s. split; [reflexivity|]. split; [now constructor|].
      split; [exact Hs|].
      change (split_ws (c :: c' :: w ++ s))
        with (if isspace c then split_ws (c' :: w ++ s)
              else if isspace c' then [c] :: split_ws (c' :: w ++ s)
                   else match split_ws (c' :: w ++ s) with
                        | w0 :: ws => (c :: w0) :: ws
                        | [] => [[c]]
                        end).
      now rewrite E, E', Hsp.
Qed.

Lemma uni_split_ws_tokens_upto n : forall s,
  (length s <= n)%nat -> tokens_of s (split_ws s).
Proof.
  induction n as [|n IH]; intros [|c r] Hl; simpl in Hl; try lia; try apply tokens_end.
  destruct (isspace c) eqn:E.
  - cbn [split_ws]. rewrite E. apply tokens_space; [exact E|]. apply IH. lia.
  - destruct (uni_split_ws_token r c E) as (w & s & -> & Hw & Hs & ->).
    apply (tokens_token (c :: w) s).
    + discriminate.
    + now constructor.
    + exact Hs.
    + apply IH. rewrite length_app in Hl. lia.
Qed.

(** [s.split()] is the list of the tokens of [s]. *)
Lemma uni_split_ws_tokens s : tokens_of s (split_ws s).
Proof. apply (uni_split_ws_tokens_upto (length s)). lia. Qed.

Lemma tokens_of_unique s ws : tokens_of s ws -> forall ws', tokens_of s ws' -> ws = ws'.
Proof.
  induction 1 as [|c s ws Hc H IH|w s ws Hne Hw Hs H IH]; intros ws' H'.
  - inversion H' as [| |w' s' ws0 Hne' Hw' Hs' H0 E]; [reflexivity|].
    destruct w'; [congruence | discriminate].
  - inversion H' as [|c0 s0 ws0 Hc0 H0|w' s' ws0 Hne' Hw' Hs' H0 E]; subst.
    + now apply IH.
    + destruct w' as [|x w']; [congruence|]. injection E as -> _.
      inversion Hw'; congruence.
  - remember (w ++ s) as t eqn:Et.
    destruct H' as [|c0 s0 ws0 Hc0 H0|w' s' ws0 Hne' Hw' Hs' H0].
    + destruct w; [congruence | discriminate].
    + destruct w as [|x w]; [congruence|]. injection Et as -> _.
      inversion Hw; congruence.
    + destruct (prefix_unique isspace w' w s' s Hw' Hw Hs' Hs Et) as [-> ->].
      f_equal. now apply IH.
Qed.

(** [" ".join(ws)] puts one space between each two. *)
Lemma uni_join_spaced ws : join [SPACE] ws = spaced ws.
Proof.
  destruct ws as [|w ws]; [reflexivity|]. unfold spaced. revert w.
  induction ws as [|v ws IH]; intros w.
  - simpl. now rewrite app_nil_r.
  - change (join [SPACE] (w :: v :: ws)) with (w ++ [SPACE] ++ join [SPACE] (v :: ws)).
    rewrite (IH v). reflexivity.
Qed.

End UnicodeStrings.

(** On code points below 256 the functions of [PyUni] are those of
    [PyStr]. *)
Section Agreement.
Local Open Scope list_scope.

Lemma of_string_cons c s : PyUni.of_string (String c s) = N_of_ascii c :: PyUni.of_string s.
Proof. reflexivity. Qed.

Lemma of_string_app a b : PyUni.of_string (a ++ b)%string = PyUni.of_string a ++ PyUni.of_string b.
Proof.
  induction a as [|c a IH]; [reflexivity|].
  rewrite append_cons, !of_string_cons, IH. reflexivity.
Qed.

Lemma isspace_agrees c : PyUni.isspace (N_of_ascii c) = PyStr.isspace c.
Proof.
  unfold PyUni.isspace, PyStr.isspace. cbv zeta.
  pose proof (N_ascii_bounded c) as B.
  set (n := N_of_ascii c) in *.
  replace (n =? 5760)%N with false by (symmetry; apply N.eqb_neq; lia).
  replace (8192 <=? n)%N with false by (symmetry; apply N.leb_gt; lia).
  replace (n =? 8232)%N with false by (symmetry; apply N.eqb_neq; lia).
  replace (n =? 8233)%N with false by (symmetry; apply N.eqb_neq; lia).
  replace (n =? 8239)%N with false by (symmetry; apply N.eqb_neq; lia).
  replace (n =? 8287)%N with false by (symmetry; apply N.eqb_neq; lia).
  replace (n =? 12288)%N with false by (symmetry; apply N.eqb_neq; lia).
  simpl. now rewrite !orb_false_r.
Qed.

Lemma lstrip_agrees s : PyUni.lstrip (PyUni.of_string s) = PyUni.of_string (PyStr.lstrip s).
Proof.
  induction s as [|c s IH]; [reflexivity|].
  rewrite of_string_cons. cbn [PyUni.lstrip PyStr.lstrip].
  rewrite isspace_agrees. destruct (PyStr.isspace c); [exact IH | reflexivity].
Qed.

Lemma rstrip_agrees s : PyUni.rstrip (PyUni.of_string s) = PyUni.of_string (PyStr.rstrip s).
Proof.
  induction s as [|c s IH]; [reflexivity|].
  rewrite of_string_cons. cbn [PyUni.rstrip PyStr.rstrip].
  rewrite IH, isspace_agrees.
  destruct (PyStr.rstrip s); [destruct (PyStr.isspace c)|]; reflexivity.
Qed.

Lemma strip_agrees s : PyUni.strip (PyUni.of_string s) = PyUni.of_string (PyStr.strip s).
Proof. unfold PyUni.strip, PyStr.strip. now rewrite lstrip_agrees, rstrip_agrees. Qed.

Lemma split_on_agrees s :
  PyUni.split_on PyUni.LF (PyUni.of_string s)
  = (PyUni.of_string (fst (PyStr.split_on PyStr.LF s)),
     map PyUni.of_string (snd (PyStr.split_on PyStr.LF s))).
Proof.
  induction s as [|c s IH]; [reflexivity|].
  rewrite of_string_cons. cbn [PyUni.split_on PyStr.split_on]. rewrite IH.
  destruct (PyStr.split_on PyStr.LF s) as [h t]. simpl fst. simpl snd.
  destruct (Ascii.eqb_spec c PyStr.LF) as [->|Hne].
  - reflexivity.
  - replace (N_of_ascii c =? PyUni.LF)%N with false; [reflexivity|].
    symmetry. apply N.eqb_neq. intros H. apply Hne.
    rewrite <- (ascii_N_embedding c), H. reflexivity.
Qed.

Lemma split_ws_agrees s :
  PyUni.split_ws (PyUni.of_string s) = map PyUni.of_string (PyStr.split_ws s).
Proof.
  induction s as [|c s IH]; [reflexivity|].
  rewrite of_string_cons.
  destruct s as [|c' s].
  - cbn [PyUni.split_ws PyStr.split_ws PyUni.of_string list_ascii_of_string map].
    rewrite isspace_agrees. destruct (PyStr.isspace c); reflexivity.
  - rewrite of_string_cons in *.
    change (PyUni.split_ws (N_of_ascii c :: N_of_ascii c' :: PyUni.of_string s))
      with (if PyUni.isspace (N_of_ascii c) then PyUni.split_ws (N_of_ascii c' :: PyUni.of_string s)
            else if PyUni.isspace (N_of_ascii c')
                 then [N_of_ascii c] :: PyUni.split_ws (N_of_ascii c' :: PyUni.of_string s)
                 else match PyUni.split_ws (N_of_ascii c' :: PyUni.of_string s) with
                      | w :: ws => (N_of_ascii c :: w) :: ws
                      | [] => [[N_of_ascii c]]
                      end).
    change (PyStr.split_ws (String c (String c' s)))
      with (if PyStr.isspace c then PyStr.split_ws (String c' s)
            else if PyStr.isspace c'
                 then String c "" :: PyStr.split_ws (String c' s)
                 else match PyStr.split_ws (String c' s) with
                      | w :: ws => String c w :: ws
                      | [] => [String c ""]
                      end).
    rewrite IH, !isspace_agrees.
    destruct (PyStr.isspace c); [reflexivity|].
    destruct (PyStr.isspace c'); [reflexivity|].
    destruct (PyStr.split_ws (String c' s)); reflexivity.
Qed.

Lemma join_agrees sep ws :
  PyUni.join (PyUni.of_string sep) (map PyUni.of_string ws) = PyUni.of_string (PyStr.join sep ws).
Proof.
  induction ws as [|w ws IH]; [reflexivity|].
  destruct ws as [|v ws]; [reflexivity|].
  change (PyStr.join sep (w :: v :: ws)) with (w ++ sep ++ PyStr.join sep (v :: ws))%string.
  change (PyUni.join (PyUni.of_string sep) (map PyUni.of_string (w :: v :: ws)))
    with (PyUni.of_string w ++ PyUni.of_string sep
          ++ PyUni.join (PyUni.of_string sep) (map PyUni.of_string (v :: ws))).
  now rewrite IH, !of_string_app.
Qed.

Lemma len_agrees s : PyUni.len (PyUni.of_string s) = PyStr.len s.
Proof.
  unfold PyUni.len, PyStr.len. f_equal.
  induction s as [|c s IH]; [reflexivity|]. rewrite of_string_cons. simpl. now rewrite IH.
Qed.

Lemma truthy_agrees s : PyUni.truthy (PyUni.of_string s) = PyStr.truthy s.
Proof. destruct s; reflexivity. Qed.

Lemma eqb_agrees a : forall b, PyUni.eqb (PyUni.of_string a) (PyUni.of_string b) = String.eqb a b.
Proof.
  induction a as [|c a IH]; intros [|d b]; try reflexivity.
  rewrite !of_string_cons. cbn [PyUni.eqb String.eqb]. rewrite IH.
  destruct (Ascii.eqb_spec c d) as [->|Hne].
  - now rewrite N.eqb_refl.
  - replace (N_of_ascii c =? N_of_ascii d)%N with false; [reflexivity|].
    symmetry. apply N.eqb_neq. intros H. apply Hne.
    rewrite <- (ascii_N_embedding c), <- (ascii_N_embedding d), H. reflexivity.
Qed.

Lemma mem_informal_agrees t :
  PyUni.mem (PyUni.of_string t) PyUni.informal_tones = PyStr.mem t informal_tones.
Proof.
  unfold PyUni.mem, PyStr.mem, PyUni.informal_tones, informal_tones. simpl.
  now rewrite !eqb_agrees.
Qed.

(** The generator on code points, given a lower-casing and a backend that
    agree with those on code points below 256, returns what the generator on
    code points below 256 returns. *)
Lemma generator_agrees lower st post upost prompt tone :
  lower (PyUni.of_string tone) = PyUni.of_string (PyStr.lower tone) ->
  upost (PyUni.of_string (payload_prompt prompt tone))
  = of_reply (post (payload_prompt prompt tone)) ->
  PyUni.generate_email_with_subject lower st upost (PyUni.of_string prompt) (PyUni.of_string tone)
  = PyUni.mkEmailData
      (PyUni.of_string (ed_content (generate_email_with_subject st post prompt tone)))
      (PyUni.of_string (ed_subject (generate_email_with_subject st post prompt tone))).
Proof.
  intros Hl Hp.
  assert (Hpp : PyUni.payload_prompt (PyUni.of_string prompt) (PyUni.of_string tone)
                = PyUni.of_string (payload_prompt prompt tone)).
  { unfold PyUni.payload_prompt, payload_prompt. now rewrite !of_string_app. }
  assert (Hf : PyUni.fallback_content lower (PyUni.of_string prompt) (PyUni.of_string tone)
               = PyUni.of_string (fallback_content prompt tone)).
  { unfold PyUni.fallback_content, fallback_content, PyUni.fallback_greeting,
      fallback_greeting, PyUni.fallback_closing, fallback_closing.
    rewrite Hl, mem_informal_agrees.
    destruct (PyStr.mem (PyStr.lower tone) informal_tones);
      now rewrite !of_string_app. }
  set (fallback := PyUni.fallback_content lower (PyUni.of_string prompt)
                     (PyUni.of_string tone)) in *.
  assert (Hc : match PyUni.generate_email_content st upost (PyUni.of_string prompt)
                       (PyUni.of_string tone)
               with
               | Some c => if PyUni.truthy c then c else fallback
               | None => fallback
               end
               = PyUni.of_string
                   (ed_content (generate_email_with_subject st post prompt tone))).
  { unfold PyUni.generate_email_content, generate_email_with_subject,
      generate_email_content. cbn [ed_content].
    rewrite Hpp, Hp, Hf.
    destruct (negb (email_api_ready st)); [reflexivity|].
    destruct (post _) as [| |text]; cbn [of_reply]; try reflexivity.
    rewrite strip_agrees, truthy_agrees. destruct (PyStr.truthy _); reflexivity. }
  assert (Hs : ed_subject (generate_email_with_subject st post prompt tone)
               = let first_line :=
                   fst (PyStr.split_on PyStr.LF
                          (PyStr.strip
                             (ed_content (generate_email_with_subject st post prompt tone))))
                 in
                 if PyStr.len first_line <? 80 then first_line
                 else PyStr.join " " (firstn 7 (PyStr.split_ws prompt)))
    by reflexivity.
  rewrite Hs. clear Hs.
  set (c := ed_content (generate_email_with_subject st post prompt tone)) in *.
  unfold PyUni.generate_email_with_subject. cbv zeta. fold fallback. rewrite Hc.
  f_equal.
  rewrite strip_agrees, split_on_agrees. cbn [fst]. rewrite len_agrees.
  destruct (_ <? 80); [reflexivity|].
  rewrite split_ws_agrees, List.firstn_map. apply (join_agrees " ").
Qed.

End Agreement.

(* ===================================================================== *)
(** * The code on concrete inputs *)
(* ===================================================================== *)

Example generate_formal_fallback :
  generate_email_with_subject default_settings no_backend "renew license" "formal"
  = mkEmailData
      ("Dear Sir/Madam," ++ PyStr.nl ++ PyStr.nl ++ "renew license" ++ PyStr.nl
       ++ PyStr.nl ++ "Best regards," ++ PyStr.nl ++ "[Your Name]")
      "Dear Sir/Madam,".
Proof. reflexivity. Qed.

Example generate_casual_fallback :
  ed_content (generate_email_with_subject default_settings no_backend "lunch?" "CASUAL")
  = "Hi there," ++ PyStr.nl ++ PyStr.nl ++ "lunch?" ++ PyStr.nl ++ PyStr.nl
    ++ "Best," ++ PyStr.nl ++ "[Your Name]".
Proof. reflexivity. Qed.

Example split_words : PyStr.split_ws "  renew   my license " = ["renew"; "my"; "license"].
Proof. reflexivity. Qed.

Example send_subject_empty_content :
  send_subject (sample_draft 1 "" (Some "Your license") "formal" "draft" noon_2024_03_15)
  = "Email".
Proof. reflexivity. Qed.

Example send_subject_stored :
  send_subject (sample_draft 1 "Dear Sir/Madam," (Some "Your license") "formal" "draft"
                  noon_2024_03_15)
  = "Your license".
Proof. reflexivity. Qed.

Example send_subject_first_line :
  send_subject (sample_draft 1 ("Dear Sir/Madam," ++ PyStr.nl ++ "renew license") None
                  "formal" "draft" noon_2024_03_15)
  = "Dear Sir/Madam,".
Proof. reflexivity. Qed.

#[warnings="-inexact-float"]
Example success_rate_one_of_three :
  (success_rate <$> compute_stats three_drafts (at_instant noon_2024_03_15))
  = Some (PyNum.Float 33.3%float).
Proof. vm_compute. reflexivity. Qed.

Example success_rate_no_draft :
  (success_rate <$> compute_stats [] (at_instant noon_2024_03_15))
  = Some (PyNum.Int 0).
Proof. vm_compute. reflexivity. Qed.

(** A tie at one decimal place: 1 of 16 is 6.25 percent, rounded to even. *)
#[warnings="-inexact-float"]
Example round1_tie :
  PyNum.round1 (PrimFloat.mul (PyNum.truediv 1 16) (PyNum.of_Z 100)) = 6.2%float.
Proof. vm_compute. reflexivity. Qed.

(** 23 of 80 is 28.75 percent; the product of floating point is
    28.749999999999996, and its rounding 28.7. *)
#[warnings="-inexact-float"]
Example success_rate_23_of_80 :
  (success_rate <$> compute_stats drafts_23_of_80 (at_instant noon_2024_03_15))
  = Some (PyNum.Float 28.7%float).
Proof. vm_compute. reflexivity. Qed.

Example send_email_relay_up :
  send_email mail_settings relay_up "ann@example.org" "Hello" "Hi"
  = (true, [(SMTP_STARTTLS,
             mkMessage "Hello" "robot@example.org" "ann@example.org" "Hi")]).
Proof. reflexivity. Qed.

Example send_email_login_refused :
  send_email mail_settings relay_refuses_login "ann@example.org" "Hello" "Hi"
  = (false, []).
Proof. reflexivity. Qed.

Example send_email_message_refused :
  send_email mail_settings relay_refuses_message "ann@example.org" "Hello" "Hi"
  = (false, [(SMTP_STARTTLS,
              mkMessage "Hello" "robot@example.org" "ann@example.org" "Hi")]).
Proof. reflexivity. Qed.

Example send_subject_fifty_characters :
  send_subject long_line_draft = "Dear Sir/Madam, I am writing to renew my fishing l".
Proof. reflexivity. Qed.

Example split_words_any_white_space :
  PyUni.split_ws wordy_prompt
  = map PyUni.of_string
        ["please"; "renew"; "my"; "fishing"; "license"; "for"; "the"; "next"; "two";
         "years"].
Proof. reflexivity. Qed.

Example subject_of_long_first_line :
  PyUni.ed_subject
    (PyUni.generate_email_with_subject (fun t => t) api_settings
       (fun _ => PyUni.ApiText long_first_line_text) wordy_prompt
       (PyUni.of_string "formal"))
  = PyUni.of_string "please renew my fishing license for the".
Proof. reflexivity. Qed.

Example most_common_ties :
  most_common (Counter ["c"; "b"; "a"; "c"; "a"; "b"; "d"])
  = [("c", 2); ("b", 2); ("a", 2); ("d", 1)].
Proof. reflexivity. Qed.

Example stats_out_of_range :
  status_code_of
    (get_stats ∅ (at_instant (PyDate.mkdatetime 9999 12 15 0 None))) = 500.
Proof. vm_compute. reflexivity. Qed.

(* ===================================================================== *)
(** * The properties *)
(* ===================================================================== *)

(** C1, as the code has it. The status of a draft starts at ["draft"] with no
    send time, under an id no row has; a request that is not a send of that
    draft changes neither its status nor its send time; a send of a stored
    draft sets the status to ["sent"] and the send time to the instant of the
    send when the dispatcher succeeds (response 200), and sets the status to
    ["failed"] and leaves the send time as it was when the dispatcher fails
    (response 500); and a draft whose status is ["sent"] or ["failed"] stays
    in the table with one of these two statuses through every sequence of
    requests that does not delete it: a further send moves it between the
    two, and nothing moves it back to ["draft"]. *)
Theorem status_life_cycle (st : Settings) :
  (forall post now request db,
      db !! next_id db = None
      /\ exists d, fst (generate st post now request db) !! next_id db = Some d
                   /\ status d = "draft" /\ sent_at d = None)
  /\ (forall rq db k d d',
         db !! k = Some d -> handle st rq db !! k = Some d' -> sends k rq = false ->
         status d' = status d /\ sent_at d' = sent_at d)
  /\ (forall smtp now k db d,
         db !! k = Some d ->
         exists d', fst (fst (send st smtp now k db)) !! k = Some d'
           /\ (if fst (send_email st smtp (recipient d) (send_subject d) (content d))
               then status d' = "sent" /\ sent_at d' = Some (as_stored (now_utc now))
                    /\ status_code_of (snd (fst (send st smtp now k db))) = 200
               else status d' = "failed" /\ sent_at d' = sent_at d
                    /\ status_code_of (snd (fst (send st smtp now k db))) = 500))
  /\ (forall rqs db k d,
         db !! k = Some d -> settled d ->
         forallb (fun rq => negb (deletes k rq)) rqs = true ->
         exists d', run st rqs db !! k = Some d' /\ settled d').
Proof.
  split; [|split; [|split]].
  - intros. split; [apply next_id_fresh | apply generate_new].
  - apply handle_keeps.
  - apply send_found.
  - apply run_settled.
Qed.

Lemma status_life_cycle_witness :
  exists d, after_failed_send !! 1 = Some d /\ settled d
            /\ exists d', after_third_send !! 1 = Some d' /\ settled d'.
Proof.
  assert (H : exists d, after_failed_send !! 1 = Some d /\ status d = "failed").
  { vm_compute. eexists. split; reflexivity. }
  destruct H as (d & Hd & Hs). exists d.
  assert (Hset : settled d) by (right; exact Hs).
  split; [exact Hd|]. split; [exact Hset|].
  exact (proj2 (proj2 (proj2 (status_life_cycle mail_settings)))
           [ReqSend relay_up noon_2024_03_15 1; ReqSend relay_down noon_2024_03_15 1]
           after_failed_send 1 d Hd Hset eq_refl).
Defined.

(** C1, as stated, fails: a draft whose send failed is sent again with the
    relay up and becomes ["sent"]; sent a third time with the relay down it
    becomes ["failed"] again, this time with its send time still set. *)
Lemma status_not_final :
  (status <$> after_failed_send !! 1) = Some "failed"
  /\ (status <$> after_second_send !! 1) = Some "sent"
  /\ (status <$> after_third_send !! 1) = Some "failed"
  /\ (sent_at <$> after_third_send !! 1)
     = Some (Some (as_stored (now_utc noon_2024_03_15))).
Proof. vm_compute. repeat split; reflexivity. Qed.

(** C2. With no draft 1 in the table, [update_draft] and [delete_email]
    answer 500, not 404: their [except Exception] catches the
    [HTTPException(404)] they raise. [send], which re-raises
    [HTTPException] first, answers 404. *)
Theorem missing_draft_status_codes :
  status_code_of (snd (update_draft 1 "new text" ∅)) = 500
  /\ status_code_of (snd (delete_email 1 ∅)) = 500
  /\ status_code_of (snd (fst (send mail_settings relay_up noon_2024_03_15 1 ∅))) = 404.
Proof. repeat split; reflexivity. Qed.

(** C3. At noon on 15 March 2024 the window of round 0 runs from noon on
    1 March to noon on 31 March, and the window of round 1 from noon on
    31 January to noon on 31 January: neither is a whole calendar month. A
    draft sent at 9 am on 1 March is counted in no entry, and the draft of
    10 January is counted under round 2 only. *)
Theorem window_is_not_the_calendar_month :
  month_window noon_2024_03_15 0
  = Some (PyDate.mkdatetime 2024 3 1 43200000000 (Some PyDate.utc),
          PyDate.mkdatetime 2024 3 31 43200000000 (Some PyDate.utc))
  /\ month_window noon_2024_03_15 1
     = Some (PyDate.mkdatetime 2024 1 31 43200000000 (Some PyDate.utc),
             PyDate.mkdatetime 2024 1 31 43200000000 (Some PyDate.utc))
  /\ monthly two_sent_drafts (at_instant noon_2024_03_15)
     = Some [mkMonthEntry "Oct" 0 0; mkMonthEntry "Nov" 0 0; mkMonthEntry "Dec" 0 0;
             mkMonthEntry "Jan" 1 0; mkMonthEntry "Jan" 0 0; mkMonthEntry "Mar" 0 0].
Proof. repeat split; vm_compute; reflexivity. Qed.

(** C4, as the code has it. At every instant in range the report is
    computed, for every list of drafts: with no draft the success rate is the
    integer 0, and with at least one draft it is a float, the product
    [total_sent / total_emails * 100] of floating point rounded to one
    decimal: the tenth nearest to the value of that float, the even one at a
    tie. *)
Theorem success_rate_defined (drafts : list Draft) (clock : Clock) :
  (forall k, in_range (clock k)) ->
  exists r,
    compute_stats drafts clock = Some r
    /\ (total_emails drafts = 0 <-> drafts = [])
    /\ (drafts = [] -> success_rate r = PyNum.Int 0)
    /\ (drafts <> [] ->
        exists y,
          success_rate r = PyNum.Float y
          /\ rounded_to_tenth
               (PrimFloat.mul
                  (PrimFloat.div (PyNum.of_Z (total_sent r))
                                 (PyNum.of_Z (total_emails drafts)))
                  (PyNum.of_Z 100)) y).
Proof.
  intros H. destruct (compute_stats_total drafts clock H) as (r & E).
  exists r. split; [exact E|].
  destruct (compute_stats_fields _ _ _ E) as (Hs & _ & _ & Hr & _).
  rewrite Hr, Hs. unfold raw_success_rate, total_emails.
  destruct drafts as [|d l].
  - repeat split; try reflexivity; congruence.
  - simpl length. rewrite Nat2Z.inj_succ.
    destruct (Z.eqb_spec (Z.succ (Z.of_nat (length l))) 0) as [E0|_]; [lia|].
    split; [split; [lia | congruence]|]. split; [congruence|].
    intros _. eexists. split; [reflexivity | apply round1_rounded].
Qed.

#[warnings="-inexact-float"]
Lemma success_rate_defined_witness :
  (forall k, in_range (at_instant noon_2024_03_15 k))
  /\ exists r,
      compute_stats three_drafts (at_instant noon_2024_03_15) = Some r
      /\ success_rate r = PyNum.Float 33.3%float.
Proof.
  assert (H : forall k, in_range (at_instant noon_2024_03_15 k))
    by (intros k; exact in_range_noon).
  split; [exact H|].
  destruct (success_rate_defined three_drafts (at_instant noon_2024_03_15) H)
    as (r & E & _ & _ & Hr).
  destruct (Hr ltac:(discriminate)) as (y & Ey & Hy).
  exists r. split; [exact E|]. rewrite Ey. f_equal.
  destruct (compute_stats_fields _ _ _ E) as (Hs & _).
  rewrite Hs in Hy. rewrite (rounded_to_tenth_unique _ _ Hy).
  vm_compute. reflexivity.
Defined.

(** C4, as stated, fails: with 23 drafts sent out of 80 the rate is 28.75
    exactly, which rounds to 28.8 whether ties go to the even digit or
    upwards; the product of floating point is just below 28.75 and the
    report says 28.7. *)
Lemma success_rate_not_exact :
  exists r,
    compute_stats drafts_23_of_80 (at_instant noon_2024_03_15) = Some r
    /\ total_sent r = 23 /\ total_emails drafts_23_of_80 = 80
    /\ success_rate r = PyNum.Float (PrimFloat.div (PyNum.of_Z 287) (PyNum.of_Z 10))
    /\ (forall t, nearest_half_even (10 * (23 * 100)) 80 t -> t = 288)
    /\ (forall t, nearest_half_up (10 * (23 * 100)) 80 t -> t = 288)
    /\ success_rate r <> PyNum.Float (PrimFloat.div (PyNum.of_Z 288) (PyNum.of_Z 10)).
Proof.
  destruct (compute_stats drafts_23_of_80 (at_instant noon_2024_03_15)) as [r|] eqn:E;
    [|vm_compute in E; discriminate].
  exists r. split; [reflexivity|].
  destruct (compute_stats_fields _ _ _ E) as (Hs & _ & _ & Hr & _).
  rewrite Hs, Hr. clear E Hs Hr.
  split; [vm_compute; reflexivity|]. split; [reflexivity|].
  split; [vm_compute; reflexivity|].
  split; [|split].
  - intros t [H1 H2].
    assert (Ht : t = 287 \/ t = 288) by lia.
    destruct Ht as [-> | ->]; [|reflexivity]. specialize (H2 eq_refl). discriminate.
  - intros t [H1 H2].
    assert (Ht : t = 287 \/ t = 288) by lia.
    destruct Ht as [-> | ->]; [|reflexivity]. specialize (H2 eq_refl). lia.
  - intros Hq.
    apply (f_equal (fun v => match v with
                             | PyNum.Float f => Prim2SF f
                             | PyNum.Int _ => S754_nan
                             end)) in Hq.
    vm_compute in Hq. discriminate.
Qed.

(** C5. When every draft has one of the three known statuses, the three
    totals of the report add up to the number of drafts. *)
Theorem totals_add_up (drafts : list Draft) :
  Forall known_status drafts ->
  forall (clock : Clock) (r : StatsReport),
    compute_stats drafts clock = Some r ->
    total_sent r + total_drafts r + total_failed r = total_emails drafts.
Proof.
  intros Hk clock r H.
  destruct (compute_stats_fields _ _ _ H) as (-> & -> & -> & _).
  now apply status_counts_partition.
Qed.

Lemma totals_add_up_witness :
  Forall known_status three_drafts
  /\ exists r,
      compute_stats three_drafts (at_instant noon_2024_03_15) = Some r
      /\ total_sent r + total_drafts r + total_failed r = total_emails three_drafts.
Proof.
  assert (H : Forall known_status three_drafts).
  { unfold three_drafts, known_status.
    repeat first [apply List.Forall_cons | apply List.Forall_nil]; simpl; auto. }
  split; [exact H|].
  destruct (compute_stats three_drafts (at_instant noon_2024_03_15)) as [r|] eqn:E;
    [|vm_compute in E; discriminate].
  exists r. split; [reflexivity|].
  exact (totals_add_up three_drafts H (at_instant noon_2024_03_15) r E).
Defined.

(** C6, as the code has it. At every instant in range, [monthly_stats] has
    exactly 6 entries, those of rounds 5, 4, 3, 2, 1, 0 of the loop in this
    order; the entry of round [i] is labelled with the month of the date
    [30 * i] days before day 1 of the current month and counts the drafts
    created from that date to the last day of its month; these dates grow
    from one entry to the next (oldest first), and the last entry is that of
    the current month. *)
Theorem monthly_stats_six_entries (drafts : list Draft) (now : PyDate.datetime) :
  in_range now ->
  exists r,
    compute_stats drafts (at_instant now) = Some r
    /\ length (monthly_stats r) = 6%nat
    /\ monthly_stats r = map (entry_of drafts now) rounds
    /\ map me_month (monthly_stats r)
       = map (fun i => PyDate.month_abbr (PyDate.month (window_start now i))) rounds
    /\ (forall i, In i rounds ->
          PyDate.toordinal (window_start now i)
          = PyDate.toordinal (first_of_month now) - 30 * i)
    /\ StronglySorted (fun a b => PyDate.lt a b = true) (map (window_start now) rounds)
    /\ PyDate.month (window_start now 0) = PyDate.month now.
Proof.
  intros Hr.
  destruct (compute_stats_total drafts (at_instant now) (fun _ => Hr)) as (r & E).
  exists r. split; [exact E|].
  destruct (compute_stats_fields _ _ _ E) as (_ & _ & _ & _ & _ & Hm).
  unfold at_instant in Hm. rewrite (monthly_at drafts now Hr) in Hm.
  injection Hm as Hm. rewrite <- Hm.
  assert (Hw : forall i, 0 <= i <= 5 ->
                 PyDate.valid (window_start now i)
                 /\ PyDate.toordinal (window_start now i)
                    = PyDate.toordinal (first_of_month now) - 30 * i)
    by (intros i Hi; now apply window_start_facts).
  split; [reflexivity|]. split; [reflexivity|]. split; [reflexivity|].
  split; [|split].
  - intros i Hi. apply Hw. unfold rounds in Hi. simpl in Hi. lia.
  - assert (Hlt : forall i j, 0 <= j < i -> i <= 5 ->
                    PyDate.lt (window_start now i) (window_start now j) = true).
    { intros i j Hj Hi.
      destruct (Hw i) as [Vi Oi]; [lia|]. destruct (Hw j) as [Vj Oj]; [lia|].
      apply lt_of_ordinal; [exact Vi | exact Vj | lia]. }
    unfold rounds. simpl.
    repeat first [ apply SSorted_cons | apply SSorted_nil
                 | apply List.Forall_cons | apply List.Forall_nil ];
      apply Hlt; lia.
  - rewrite window_start_0 by exact Hr. reflexivity.
Qed.

Lemma monthly_stats_six_entries_witness :
  in_range noon_2024_03_15
  /\ exists r,
      compute_stats two_sent_drafts (at_instant noon_2024_03_15) = Some r
      /\ length (monthly_stats r) = 6%nat.
Proof.
  split; [exact in_range_noon|].
  destruct (monthly_stats_six_entries two_sent_drafts noon_2024_03_15 in_range_noon)
    as (r & E & L & _).
  exists r. split; [exact E | exact L].
Defined.

(** C6, as stated, fails: at noon on 15 March 2024 the six labels are Oct,
    Nov, Dec, Jan, Jan, Mar, not the six calendar months from October to
    March: February is skipped and January appears twice. *)
Lemma months_skipped_and_repeated :
  (map me_month <$> monthly [] (at_instant noon_2024_03_15))
  = Some ["Oct"; "Nov"; "Dec"; "Jan"; "Jan"; "Mar"]
  /\ calendar_labels noon_2024_03_15 = ["Oct"; "Nov"; "Dec"; "Jan"; "Feb"; "Mar"].
Proof. split; vm_compute; reflexivity. Qed.

(** C7. When the backend is not configured, raises, or returns no text, the
    content is the greeting chosen by the tone, a blank line, the prompt, a
    blank line and the closing chosen by the tone; for a friendly or casual
    tone these are ["Hi there,"] and ["Best,\n[Your Name]"], and for any other
    tone the content starts with ["Dear Sir/Madam,"] and ends with
    ["Best regards,\n[Your Name]"]. *)
Theorem fallback_template (st : Settings) (post : Backend) (prompt tone : string) :
  backend_unusable st post prompt tone ->
  let content := ed_content (generate_email_with_subject st post prompt tone) in
  content = fallback_greeting tone ++ PyStr.nl ++ PyStr.nl ++ prompt
            ++ PyStr.nl ++ PyStr.nl ++ fallback_closing tone
  /\ (PyStr.mem (PyStr.lower tone) ["friendly"; "casual"] = true ->
      fallback_greeting tone = "Hi there,"
      /\ fallback_closing tone = "Best," ++ PyStr.nl ++ "[Your Name]")
  /\ (PyStr.mem (PyStr.lower tone) ["friendly"; "casual"] = false ->
      PyStr.startswith content "Dear Sir/Madam,"
      /\ PyStr.endswith content ("Best regards," ++ PyStr.nl ++ "[Your Name]")).
Proof.
  intros H content. subst content. rewrite (unusable_falls_back _ _ _ _ H).
  unfold fallback_content, fallback_greeting, fallback_closing, informal_tones.
  split; [reflexivity|]. split; intros ->.
  - split; reflexivity.
  - split.
    + eexists. reflexivity.
    + exists ("Dear Sir/Madam," ++ PyStr.nl ++ PyStr.nl ++ prompt ++ PyStr.nl ++ PyStr.nl).
      rewrite !append_assoc_str. reflexivity.
Qed.

Lemma fallback_template_witness :
  backend_unusable default_settings (fun _ => ApiText "ignored") "renew license" "formal"
  /\ let content :=
       ed_content (generate_email_with_subject default_settings
                     (fun _ => ApiText "ignored") "renew license" "formal") in
     PyStr.startswith content "Dear Sir/Madam,"
     /\ PyStr.endswith content ("Best regards," ++ PyStr.nl ++ "[Your Name]").
Proof.
  assert (H : backend_unusable default_settings (fun _ => ApiText "ignored")
                "renew license" "formal") by (left; reflexivity).
  split; [exact H|].
  exact (proj2 (proj2 (fallback_template default_settings (fun _ => ApiText "ignored")
                         "renew license" "formal" H)) eq_refl).
Defined.

(** C8. For every prompt, tone, settings and backend, over strings of any
    characters: the content the generator returns has a first line, and the
    subject is that line when it has fewer than 80 characters, and otherwise
    the first 7 white-space-separated tokens of the prompt with one space
    between each two. *)
Theorem subject_derivation
    (lower : PyUni.str -> PyUni.str) (st : Settings) (post : PyUni.Backend)
    (prompt tone : PyUni.str) :
  let r := PyUni.generate_email_with_subject lower st post prompt tone in
  exists line tokens,
    first_line_of (PyUni.ed_content r) line
    /\ tokens_of prompt tokens
    /\ ((length line < 80)%nat -> PyUni.ed_subject r = line)
    /\ ((80 <= length line)%nat -> PyUni.ed_subject r = spaced (firstn 7 tokens)).
Proof.
  intros r.
  set (line := fst (PyUni.split_on PyUni.LF (PyUni.ed_content r))).
  exists line, (PyUni.split_ws prompt).
  split; [apply uni_split_on_first_line|].
  split; [apply uni_split_ws_tokens|].
  assert (E : PyUni.ed_subject r
              = if PyUni.len line <? 80 then line
                else PyUni.join [PyUni.SPACE] (firstn 7 (PyUni.split_ws prompt))).
  { pose proof (uni_content_is_stripped lower st post prompt tone) as H.
    subst line r. unfold PyUni.generate_email_with_subject in *. simpl in *.
    now rewrite H. }
  rewrite E, uni_join_spaced. unfold PyUni.len.
  split; intros H; destruct (Z.ltb_spec (Z.of_nat (length line)) 80);
    try reflexivity; lia.
Qed.

Lemma subject_derivation_witness :
  PyUni.ed_subject
    (PyUni.generate_email_with_subject (fun t => t) api_settings
       (fun _ => PyUni.ApiText long_first_line_text) wordy_prompt
       (PyUni.of_string "formal"))
  = PyUni.of_string "please renew my fishing license for the"
  /\ PyUni.ed_subject
       (PyUni.generate_email_with_subject (fun t => t) default_settings
          (fun _ => PyUni.ApiRaised) wordy_prompt (PyUni.of_string "formal"))
     = PyUni.of_string "Dear Sir/Madam,".
Proof.
  split.
  - destruct (subject_derivation (fun t => t) api_settings
                (fun _ => PyUni.ApiText long_first_line_text) wordy_prompt
                (PyUni.of_string "formal"))
      as (line & tokens & Hl & Ht & _ & Hlong).
    rewrite (first_line_of_unique _ _ _ Hl (uni_split_on_first_line _)) in Hlong.
    rewrite (tokens_of_unique _ _ Ht _ (uni_split_ws_tokens _)) in Hlong.
    rewrite Hlong; [vm_compute; reflexivity | vm_compute; lia].
  - destruct (subject_derivation (fun t => t) default_settings
                (fun _ => PyUni.ApiRaised) wordy_prompt (PyUni.of_string "formal"))
      as (line & tokens & Hl & _ & Hshort & _).
    rewrite (first_line_of_unique _ _ _ Hl (uni_split_on_first_line _)) in Hshort.
    rewrite Hshort; [vm_compute; reflexivity | vm_compute; lia].
Defined.

(** C9. [popular_tones] is [most_common] of the counter of the tones: each
    tone of the drafts appears once, with the number of its occurrences, the
    larger counts first and, among equal counts, the tone met first in the
    drafts first; the tones a, b, a, c, a, b give a: 3, b: 2, c: 1. *)
Theorem popular_tones_by_count (drafts : list Draft) :
  let tones := map tone drafts in
  let pt := most_common (Counter tones) in
  (forall clock r, compute_stats drafts clock = Some r -> popular_tones r = pt)
  /\ NoDup (map fst pt)
  /\ (forall t n, In (t, n) pt <-> In t tones /\ n = occurrences t tones)
  /\ StronglySorted (tone_before tones) pt
  /\ most_common (Counter ["a"; "b"; "a"; "c"; "a"; "b"])
     = [("a", 3); ("b", 2); ("c", 1)].
Proof.
  intros tones pt.
  destruct (Counter_spec tones) as (Hnd & Hin & Hget & Hs).
  assert (Hp : Permutation pt (Counter tones)) by apply most_common_perm.
  split; [|split; [|split; [|split]]].
  - intros clock r H. now destruct (compute_stats_fields _ _ _ H) as (_ & _ & _ & _ & -> & _).
  - rewrite (Permutation_map fst Hp). exact Hnd.
  - intros t n. split.
    + intros H. eapply Permutation_in in H; [|exact Hp].
      assert (Ht : In t tones).
      { apply Hin. change t with (fst (t, n)). now apply in_map. }
      split; [exact Ht|].
      apply In_get_count in H; [|exact Hnd]. rewrite (Hget t Ht) in H. congruence.
    + intros [Ht ->]. eapply Permutation_in; [symmetry; exact Hp|].
      apply get_count_In. now apply Hget.
  - apply most_common_sorted.
    exact (StronglySorted_keys
             (fun a b => (first_index a tones < first_index b tones)%nat) _ Hs).
  - reflexivity.
Qed.

Lemma popular_tones_by_count_witness :
  exists r,
    compute_stats tone_drafts (at_instant noon_2024_03_15) = Some r
    /\ popular_tones r = [("a", 3); ("b", 2); ("c", 1)].
Proof.
  destruct (compute_stats tone_drafts (at_instant noon_2024_03_15)) as [r|] eqn:E;
    [|vm_compute in E; discriminate].
  exists r. split; [reflexivity|].
  exact (proj1 (popular_tones_by_count tone_drafts) (at_instant noon_2024_03_15) r E).
Defined.

(** C10. When [send] finds the draft and SMTP is configured, every message
    handed to the relay carries one subject, and the message is handed over
    whenever the calls before [send_message] return. That subject is
    ["Email"] when the content is empty, whatever the stored subject; when
    the content is not empty it is the stored subject if there is one and it
    is not empty, and otherwise the first 50 characters of the first line of
    the content. *)
Theorem dispatch_subject
    (st : Settings) (smtp : Smtp) (now : PyDate.datetime)
    (draft_id : Z) (db : Store) (draft : Draft) :
  db !! draft_id = Some draft ->
  smtp_configured st = true ->
  exists subj,
    let msg := mkMessage subj (email_from st) (recipient draft) (content draft) in
    Forall (fun tm => tm = (transport_of st, msg)) (snd (send st smtp now draft_id db))
    /\ (Forall (fun c => smtp (transport_of st) msg c = false)
               (before_send (transport_of st)) ->
        snd (send st smtp now draft_id db) = [(transport_of st, msg)])
    /\ (content draft = "" -> subj = "Email")
    /\ (content draft <> "" -> forall s, subject draft = Some s -> s <> "" -> subj = s)
    /\ (content draft <> "" -> subject draft = None \/ subject draft = Some "" ->
        first_chars_of_first_line 50 (content draft) subj).
Proof.
  intros Hget Hconf. exists (send_subject draft).
  assert (Hout : snd (send st smtp now draft_id db)
                 = snd (send_email st smtp (recipient draft) (send_subject draft)
                          (content draft))).
  { unfold send. rewrite Hget.
    destruct (send_email _ _ _ _ _) as [[|] out]; reflexivity. }
  cbv zeta. rewrite Hout.
  split; [apply send_email_handed|].
  split; [now apply send_email_reached|].
  unfold send_subject. destruct (content draft) as [|c r] eqn:Ec.
  - repeat split; congruence.
  - split; [congruence|]. split.
    + intros _ s -> Hs. destruct s; [congruence | reflexivity].
    + intros _ [-> | ->]; apply take_first_line.
Qed.

Lemma dispatch_subject_witness :
  (exists subj,
      snd (send mail_settings relay_up noon_2024_03_15 2 {[2 := long_line_draft]})
      = [(SMTP_STARTTLS,
          mkMessage subj "robot@example.org" "ann@example.org" (content long_line_draft))]
      /\ subj = "Dear Sir/Madam, I am writing to renew my fishing l")
  /\ (exists subj,
        let d := sample_draft 1 "" (Some "Your license") "formal" "draft"
                   noon_2024_03_15 in
        snd (send mail_settings relay_up noon_2024_03_15 1 {[1 := d]})
        = [(SMTP_STARTTLS, mkMessage subj "robot@example.org" "ann@example.org" "")]
        /\ subj = "Email")
  /\ (exists subj,
        let d := sample_draft 1 "Dear Sir/Madam," (Some "Your license") "formal" "draft"
                   noon_2024_03_15 in
        snd (send mail_settings relay_up noon_2024_03_15 1 {[1 := d]})
        = [(SMTP_STARTTLS,
            mkMessage subj "robot@example.org" "ann@example.org" "Dear Sir/Madam,")]
        /\ subj = "Your license").
Proof.
  assert (Hup : forall m, Forall (fun c => relay_up SMTP_STARTTLS m c = false)
                                 (before_send SMTP_STARTTLS))
    by (intros m; repeat constructor).
  split; [|split].
  - assert (Hget : ({[2 := long_line_draft]} : Store) !! 2 = Some long_line_draft)
      by (vm_compute; reflexivity).
    destruct (dispatch_subject mail_settings relay_up noon_2024_03_15 2
                {[2 := long_line_draft]} long_line_draft Hget eq_refl)
      as (subj & _ & Hr & _ & _ & H3).
    exists subj. split; [exact (Hr (Hup _))|].
    assert (Hs : first_chars_of_first_line 50 (content long_line_draft) subj)
      by (apply H3; [discriminate | now left]).
    exact (first_chars_of_first_line_unique _ _ _ _ Hs
             (take_first_line 50 (content long_line_draft))).
  - set (d := sample_draft 1 "" (Some "Your license") "formal" "draft" noon_2024_03_15).
    assert (Hget : ({[1 := d]} : Store) !! 1 = Some d) by (vm_compute; reflexivity).
    destruct (dispatch_subject mail_settings relay_up noon_2024_03_15 1 {[1 := d]} d
                Hget eq_refl) as (subj & _ & Hr & H1 & _).
    exists subj. split; [exact (Hr (Hup _)) | exact (H1 eq_refl)].
  - set (d := sample_draft 1 "Dear Sir/Madam," (Some "Your license") "formal" "draft"
                noon_2024_03_15).
    assert (Hget : ({[1 := d]} : Store) !! 1 = Some d) by (vm_compute; reflexivity).
    destruct (dispatch_subject mail_settings relay_up noon_2024_03_15 1 {[1 := d]} d
                Hget eq_refl) as (subj & _ & Hr & _ & H2 & _).
    exists subj. split; [exact (Hr (Hup _))|].
    apply (H2 ltac:(discriminate) "Your license"); [reflexivity | discriminate].
Defined.

(* ===================================================================== *)
(** * Further properties of the code *)
(* ===================================================================== *)

Lemma smtp_configured_false (st : Settings) :
  smtp_configured st = false <-> smtp_field_missing st.
Proof.
  unfold smtp_configured, smtp_field_missing. simpl.
  rewrite !andb_false_iff, !truthy_false. intuition discriminate.
Qed.

Lemma smtp_configured_true (st : Settings) :
  smtp_configured st = true <-> ~ smtp_field_missing st.
Proof.
  rewrite <- smtp_configured_false. destruct (smtp_configured st); intuition congruence.
Qed.

(** X1. When the host, the user name, the password or the sender address of
    SMTP is empty, [send_email] returns [False] and hands nothing to the
    relay, whatever the port, the relay and the message. *)
Theorem send_email_not_configured
    (st : Settings) (smtp : Smtp) (to_email subject content : string) :
  smtp_field_missing st ->
  send_email st smtp to_email subject content = (false, []).
Proof.
  intros H. apply smtp_configured_false in H. unfold send_email. now rewrite H.
Qed.

Lemma send_email_not_configured_witness :
  smtp_field_missing default_settings
  /\ send_email default_settings relay_up "ann@example.org" "Hello" "Hi" = (false, []).
Proof.
  assert (H : smtp_field_missing default_settings) by (left; reflexivity).
  split; [exact H|].
  exact (send_email_not_configured default_settings relay_up _ _ _ H).
Defined.

(** X2. When the four SMTP fields are set, [send_email] talks to the relay
    over implicit TLS when the port is 465 and with STARTTLS otherwise. It
    hands over at most one message, the one that carries the subject, the
    configured sender, the recipient and the body it was given, and it does
    so exactly when connecting, the STARTTLS handshake (on a port other than
    465) and the login all return. It returns [True] exactly when, in
    addition, [send_message] and the closing [QUIT] return; so [True] is
    returned only after the message was handed over. *)
Theorem send_email_configured
    (st : Settings) (smtp : Smtp) (to_email subject content : string) :
  ~ smtp_field_missing st ->
  let msg := mkMessage subject (email_from st) to_email content in
  let transport := if smtp_port st =? 465 then SMTP_SSL else SMTP_STARTTLS in
  let before :=
    if smtp_port st =? 465 then [Connect; Login]
    else [Connect; Ehlo; StartTls; EhloAfterTls; Login] in
  let returns c := smtp transport msg c = false in
  let out := send_email st smtp to_email subject content in
  (snd out = [] \/ snd out = [(transport, msg)])
  /\ (snd out = [(transport, msg)] <-> Forall returns before)
  /\ (fst out = true <-> Forall returns (before ++ [SendMessage; Quit])).
Proof.
  intros H. apply smtp_configured_true in H. cbv zeta.
  rewrite (send_email_spec st smtp to_email subject content H). unfold transport_of.
  destruct (smtp_port st =? 465); simpl;
    rewrite ?List.Forall_cons_iff, ?List.Forall_nil_iff; cbv beta;
    repeat match goal with |- context [smtp ?t ?m ?c] => destruct (smtp t m c) end;
    simpl; intuition (try discriminate; auto).
Qed.

Lemma send_email_configured_witness :
  ~ smtp_field_missing ssl_settings
  /\ snd (send_email ssl_settings relay_up "ann@example.org" "Hello" "Hi")
     = [(SMTP_SSL, mkMessage "Hello" "robot@example.org" "ann@example.org" "Hi")]
  /\ fst (send_email ssl_settings relay_up "ann@example.org" "Hello" "Hi") = true.
Proof.
  assert (H : ~ smtp_field_missing ssl_settings).
  { apply smtp_configured_true. reflexivity. }
  split; [exact H|].
  destruct (send_email_configured ssl_settings relay_up "ann@example.org" "Hello" "Hi" H)
    as (_ & Hb & Hok).
  split.
  - apply Hb. repeat constructor.
  - apply Hok. repeat constructor.
Defined.

(** X3. A send of a stored draft while an SMTP field is empty marks the draft
    ["failed"], changes nothing else in the table, answers 500 "Failed to
    send email" and hands nothing to the relay. *)
Theorem send_without_smtp
    (st : Settings) (smtp : Smtp) (now : PyDate.datetime)
    (draft_id : Z) (db : Store) (draft : Draft) :
  smtp_field_missing st ->
  db !! draft_id = Some draft ->
  send st smtp now draft_id db
  = (<[draft_id := set_status "failed" draft]> db,
     inr (HTTPException 500 "Failed to send email"), []).
Proof.
  intros H Hd. apply smtp_configured_false in H.
  unfold send, send_email. now rewrite Hd, H.
Qed.

Lemma send_without_smtp_witness :
  smtp_field_missing default_settings
  /\ (status <$> fst (fst (send default_settings relay_up noon_2024_03_15 1
                             one_draft_table)) !! 1) = Some "failed"
  /\ snd (send default_settings relay_up noon_2024_03_15 1 one_draft_table) = [].
Proof.
  assert (H : smtp_field_missing default_settings) by (left; reflexivity).
  assert (Hd : one_draft_table !! 1
               = Some (sample_draft 1 "Dear Sir/Madam," (Some "Your license") "formal"
                         "draft" noon_2024_03_15))
    by (vm_compute; reflexivity).
  split; [exact H|].
  rewrite (send_without_smtp default_settings relay_up noon_2024_03_15 1
             one_draft_table _ H Hd).
  split; [vm_compute; reflexivity | reflexivity].
Defined.

(** X4. [send] writes nothing but the status and the send time of the draft
    it is asked to send: every other row is untouched, the other fields of
    that draft are kept, the set of ids is the same, and a missing id leaves
    the table as it is. *)
Theorem send_writes_status_only
    (st : Settings) (smtp : Smtp) (now : PyDate.datetime)
    (draft_id : Z) (db : Store) :
  let db' := fst (fst (send st smtp now draft_id db)) in
  (forall k, k <> draft_id -> db' !! k = db !! k)
  /\ (db !! draft_id = None -> db' = db)
  /\ (forall d, db !! draft_id = Some d ->
        exists d', db' !! draft_id = Some d' /\ same_but_status d d')
  /\ dom db' = dom db.
Proof.
  unfold send. destruct (db !! draft_id) as [d|] eqn:Hd.
  - destruct (send_email _ _ _ _ _) as [[|] out]; simpl.
    + split; [intros k Hk; now rewrite lookup_insert_ne|].
      split; [discriminate|]. split.
      * intros ? [= <-]. rewrite lookup_insert_eq. eexists. split; [reflexivity|].
        repeat split.
      * apply dom_insert_lookup_L. rewrite Hd. eauto.
    + split; [intros k Hk; now rewrite lookup_insert_ne|].
      split; [discriminate|]. split.
      * intros ? [= <-]. rewrite lookup_insert_eq. eexists. split; [reflexivity|].
        repeat split.
      * apply dom_insert_lookup_L. rewrite Hd. eauto.
  - simpl. repeat split; auto. discriminate.
Qed.

Lemma send_writes_status_only_witness :
  exists d',
    fst (fst (send mail_settings relay_up noon_2024_03_15 1 one_draft_table)) !! 1 = Some d'
    /\ content d' = "Dear Sir/Madam," /\ subject d' = Some "Your license".
Proof.
  assert (Hd : one_draft_table !! 1
               = Some (sample_draft 1 "Dear Sir/Madam," (Some "Your license") "formal"
                         "draft" noon_2024_03_15))
    by (vm_compute; reflexivity).
  destruct (proj1 (proj2 (proj2 (send_writes_status_only mail_settings relay_up
              noon_2024_03_15 1 one_draft_table))) _ Hd) as (d' & E & S).
  exists d'. split; [exact E|].
  destruct S as (_ & _ & Hc & _ & _ & _ & _ & Hs). split; [exact Hc | exact Hs].
Defined.

(** X5. [update_draft] on a stored draft answers "Draft updated", stores the
    new content and keeps every other field of the draft (its subject and
    status too), every other row and the set of ids; of two updates in a
    row, the last one wins. *)
Theorem update_draft_replaces_content
    (draft_id : Z) (c : string) (db : Store) (d : Draft) :
  db !! draft_id = Some d ->
  let db' := fst (update_draft draft_id c db) in
  snd (update_draft draft_id c db) = inl "Draft updated"
  /\ (exists d', db' !! draft_id = Some d' /\ content d' = c /\ same_but_content d d')
  /\ (forall k, k <> draft_id -> db' !! k = db !! k)
  /\ dom db' = dom db
  /\ (forall c0, fst (update_draft draft_id c (fst (update_draft draft_id c0 db))) = db').
Proof.
  intros Hd. unfold update_draft. rewrite Hd. simpl.
  split; [reflexivity|]. split.
  { rewrite lookup_insert_eq. eexists. split; [reflexivity|]. repeat split. }
  split; [intros k Hk; now rewrite lookup_insert_ne|].
  split; [apply dom_insert_lookup_L; rewrite Hd; eauto|].
  intros c0. rewrite lookup_insert_eq. simpl. now rewrite insert_insert_eq.
Qed.

Lemma update_draft_replaces_content_witness :
  exists d', fst (update_draft 1 "See you on Monday." one_draft_table) !! 1 = Some d'
             /\ content d' = "See you on Monday."
             /\ subject d' = Some "Your license".
Proof.
  assert (Hd : one_draft_table !! 1
               = Some (sample_draft 1 "Dear Sir/Madam," (Some "Your license") "formal"
                         "draft" noon_2024_03_15))
    by (vm_compute; reflexivity).
  destruct (proj1 (proj2 (update_draft_replaces_content 1 "See you on Monday."
              one_draft_table _ Hd))) as (d' & E & Hc & S).
  exists d'. split; [exact E|]. split; [exact Hc|].
  destruct S as (_ & _ & _ & _ & _ & _ & _ & _ & Hs). exact Hs.
Defined.

(** X6. [delete_email] on a stored draft answers "Email deleted
    successfully" and removes that row and no other (the table has one row
    less); deleting the same id again answers 500 and leaves the table as
    it is. *)
Theorem delete_email_removes (draft_id : Z) (db : Store) (d : Draft) :
  db !! draft_id = Some d ->
  let db' := fst (delete_email draft_id db) in
  snd (delete_email draft_id db) = inl "Email deleted successfully"
  /\ db' !! draft_id = None
  /\ (forall k, k <> draft_id -> db' !! k = db !! k)
  /\ size db = S (size db')
  /\ delete_email draft_id db' = (db', inr (HTTPException 500 "Error deleting email")).
Proof.
  intros Hd.
  assert (E : delete_email draft_id db
              = (delete draft_id db, inl "Email deleted successfully")).
  { unfold delete_email. now rewrite Hd. }
  rewrite E. simpl.
  split; [reflexivity|]. split; [apply lookup_delete_eq|].
  split; [intros k Hk; now rewrite lookup_delete_ne|].
  split.
  - rewrite <- (insert_delete_id db draft_id d Hd) at 1.
    rewrite map_size_insert_None; [reflexivity | apply lookup_delete_eq].
  - apply delete_email_missing. apply lookup_delete_eq.
Qed.

Lemma delete_email_removes_witness :
  fst (delete_email 1 one_draft_table) !! 1 = None
  /\ size one_draft_table = S (size (fst (delete_email 1 one_draft_table))).
Proof.
  assert (Hd : one_draft_table !! 1
               = Some (sample_draft 1 "Dear Sir/Madam," (Some "Your license") "formal"
                         "draft" noon_2024_03_15))
    by (vm_compute; reflexivity).
  destruct (delete_email_removes 1 one_draft_table _ Hd) as (_ & H1 & _ & H2 & _).
  split; [exact H1 | exact H2].
Defined.

(** X7. With an id that is not in the table, [update_draft], [delete_email]
    and [send] leave the table unchanged and nothing is handed to the relay;
    the first two answer 500 and [send] answers 404. *)
Theorem missing_id_changes_nothing
    (st : Settings) (smtp : Smtp) (now : PyDate.datetime)
    (draft_id : Z) (c : string) (db : Store) :
  db !! draft_id = None ->
  fst (update_draft draft_id c db) = db
  /\ fst (delete_email draft_id db) = db
  /\ fst (fst (send st smtp now draft_id db)) = db
  /\ snd (send st smtp now draft_id db) = []
  /\ status_code_of (snd (update_draft draft_id c db)) = 500
  /\ status_code_of (snd (delete_email draft_id db)) = 500
  /\ status_code_of (snd (fst (send st smtp now draft_id db))) = 404.
Proof.
  intros H.
  rewrite (update_draft_missing _ c _ H), (delete_email_missing _ _ H),
    (send_missing st smtp now _ _ H).
  repeat split.
Qed.

Lemma missing_id_changes_nothing_witness :
  one_draft_table !! 7 = None
  /\ fst (delete_email 7 one_draft_table) = one_draft_table
  /\ snd (send mail_settings relay_up noon_2024_03_15 7 one_draft_table) = [].
Proof.
  assert (H : one_draft_table !! 7 = None) by (vm_compute; reflexivity).
  destruct (missing_id_changes_nothing mail_settings relay_up noon_2024_03_15 7 ""
              one_draft_table H) as (_ & H1 & _ & H2 & _).
  split; [exact H|]. split; [exact H1 | exact H2].
Defined.

(** X8. [generate] always answers with a draft; that draft is stored under
    an id no row had, reading that id back gives the draft that was returned,
    the rows that were there are unchanged and the table has one row more.
    The draft carries the prompt, recipient, tone and type of the request,
    the status ["draft"], no send time, the instant of the insert, and the
    content and subject of the generator. *)
Theorem generate_then_read
    (st : Settings) (post : Backend) (now : PyDate.datetime)
    (request : GenerateRequest) (db : Store) :
  exists draft,
    snd (generate st post now request db) = inl draft
    /\ db !! id draft = None
    /\ fst (generate st post now request db) !! id draft = Some draft
    /\ (forall k d, db !! k = Some d ->
          fst (generate st post now request db) !! k = Some d)
    /\ size (fst (generate st post now request db)) = S (size db)
    /\ prompt draft = rq_prompt request /\ recipient draft = rq_recipient request
    /\ tone draft = rq_tone request /\ type_ draft = rq_type request
    /\ status draft = "draft" /\ sent_at draft = None /\ created_at draft = now
    /\ content draft
       = ed_content (generate_email_with_subject st post (rq_prompt request)
                       (rq_tone request))
    /\ subject draft
       = Some (ed_subject (generate_email_with_subject st post (rq_prompt request)
                             (rq_tone request))).
Proof.
  unfold generate. simpl. eexists. split; [reflexivity|]. simpl.
  split; [apply next_id_fresh|].
  split; [apply lookup_insert_eq|].
  split.
  { intros k d Hd. pose proof (next_id_above _ _ _ Hd) as Hlt.
    rewrite lookup_insert_ne by lia. exact Hd. }
  split; [apply map_size_insert_None, next_id_fresh|].
  repeat split.
Qed.

Lemma generate_then_read_witness :
  exists draft,
    snd (generate mail_settings no_backend noon_2024_03_15 sample_request one_draft_table)
    = inl draft
    /\ fst (generate mail_settings no_backend noon_2024_03_15 sample_request
              one_draft_table) !! id draft = Some draft
    /\ fst (generate mail_settings no_backend noon_2024_03_15 sample_request
              one_draft_table) !! 1 = one_draft_table !! 1.
Proof.
  assert (Hd : one_draft_table !! 1
               = Some (sample_draft 1 "Dear Sir/Madam," (Some "Your license") "formal"
                         "draft" noon_2024_03_15))
    by (vm_compute; reflexivity).
  destruct (generate_then_read mail_settings no_backend noon_2024_03_15 sample_request
              one_draft_table) as (draft & E & _ & Hr & Hk & _).
  exists draft. split; [exact E|]. split; [exact Hr|].
  rewrite Hd. exact (Hk 1 _ Hd).
Defined.

(** X9. A send after an update dispatches the updated content. With SMTP
    configured and a new content that is not empty, whatever is handed to
    the relay is one message to the recipient of the draft from the
    configured sender, whose body is the new content and whose subject is
    still the subject stored when the draft was created (or, if that is
    missing or empty, the first 50 characters of the first line of the new
    content). The message is handed over whenever the calls before
    [send_message] return, and an answer 200 means it was handed over. *)
Theorem send_after_update
    (st : Settings) (smtp : Smtp) (now : PyDate.datetime)
    (draft_id : Z) (c : string) (db : Store) (d : Draft) :
  db !! draft_id = Some d ->
  ~ smtp_field_missing st ->
  c <> "" ->
  exists subj,
    let msg := mkMessage subj (email_from st) (recipient d) c in
    let transport := if smtp_port st =? 465 then SMTP_SSL else SMTP_STARTTLS in
    let before :=
      if smtp_port st =? 465 then [Connect; Login]
      else [Connect; Ehlo; StartTls; EhloAfterTls; Login] in
    let r := send st smtp now draft_id (fst (update_draft draft_id c db)) in
    Forall (fun tm => tm = (transport, msg)) (snd r)
    /\ (Forall (fun call => smtp transport msg call = false) before ->
        snd r = [(transport, msg)])
    /\ (status_code_of (snd (fst r)) = 200 -> snd r = [(transport, msg)])
    /\ (forall s, subject d = Some s -> s <> "" -> subj = s)
    /\ (subject d = None \/ subject d = Some "" -> first_chars_of_first_line 50 c subj).
Proof.
  intros Hd Hconf Hc. apply smtp_configured_true in Hconf.
  unfold update_draft. rewrite Hd. simpl.
  set (d' := set_content c d).
  exists (send_subject d'). cbv zeta.
  pose proof (send_email_handed st smtp (recipient d') (send_subject d') (content d')) as Hh.
  pose proof (send_email_reached st smtp (recipient d') (send_subject d') (content d') Hconf)
    as Hr.
  pose proof (send_email_true st smtp (recipient d') (send_subject d') (content d')) as Ht.
  assert (Eb : before_send (transport_of st)
               = if smtp_port st =? 465 then [Connect; Login]
                 else [Connect; Ehlo; StartTls; EhloAfterTls; Login])
    by (unfold transport_of; destruct (smtp_port st =? 465); reflexivity).
  rewrite Eb in Hr. unfold transport_of in Hh, Hr, Ht.
  unfold send. rewrite lookup_insert_eq.
  destruct (send_email st smtp (recipient d') (send_subject d') (content d'))
    as [[|] out]; simpl in *.
  - destruct (Ht eq_refl) as [_ ->].
    repeat split; auto.
    all: unfold send_subject; simpl; destruct c as [|a c']; try congruence; simpl.
    + intros s -> Hs. destruct s; [congruence | reflexivity].
    + intros [-> | ->]; apply (take_first_line 50 (String a c')).
  - repeat split; auto; try discriminate.
    all: unfold send_subject; simpl; destruct c as [|a c']; try congruence; simpl.
    + intros s -> Hs. destruct s; [congruence | reflexivity].
    + intros [-> | ->]; apply (take_first_line 50 (String a c')).
Qed.

Lemma send_after_update_witness :
  exists subj,
    snd (send mail_settings relay_up noon_2024_03_15 1
           (fst (update_draft 1 "See you on Monday." one_draft_table)))
    = [(SMTP_STARTTLS,
        mkMessage subj "robot@example.org" "ann@example.org" "See you on Monday.")]
    /\ subj = "Your license".
Proof.
  assert (Hd : one_draft_table !! 1
               = Some (sample_draft 1 "Dear Sir/Madam," (Some "Your license") "formal"
                         "draft" noon_2024_03_15))
    by (vm_compute; reflexivity).
  assert (Hconf : ~ smtp_field_missing mail_settings)
    by (apply smtp_configured_true; reflexivity).
  assert (Hc : "See you on Monday." <> "") by discriminate.
  destruct (send_after_update mail_settings relay_up noon_2024_03_15 1
              "See you on Monday." one_draft_table _ Hd Hconf Hc)
    as (subj & _ & Hr & _ & Hs & _).
  exists subj. split.
  - apply Hr. repeat constructor.
  - apply (Hs "Your license"); [reflexivity | discriminate].
Defined.

(** X10. The content the generator returns is never empty, starts with a
    character that is not white space and is unchanged by [strip]. *)
Theorem generated_content_not_blank
    (st : Settings) (post : Backend) (prompt tone : string) :
  let c := ed_content (generate_email_with_subject st post prompt tone) in
  c <> "" /\ PyStr.strip c = c
  /\ exists a r, c = String a r /\ PyStr.isspace a = false.
Proof.
  intros c.
  assert (Hs : PyStr.strip c = c) by apply content_is_stripped.
  assert (Hne : c <> "").
  { subst c. unfold generate_email_with_subject, generate_email_content. simpl.
    assert (Hf : fallback_content prompt tone <> "").
    { destruct (fallback_content_shape prompt tone) as (a & s & _ & ->). discriminate. }
    destruct (negb _); [exact Hf|].
    destruct (post _) as [| |text]; try exact Hf.
    destruct (PyStr.strip text) eqn:E; simpl; [exact Hf | discriminate]. }
  split; [exact Hne|]. split; [exact Hs|].
  rewrite <- Hs in Hne. destruct (strip_nonempty_head c Hne) as (a & r & E & Ha).
  exists a, r. split; [congruence | exact Ha].
Qed.

(** X11. The subject the generator returns holds no line feed, and it is
    either shorter than 80 characters or the first 7 words of the prompt
    joined by single spaces. *)
Theorem generated_subject_one_line
    (st : Settings) (post : Backend) (prompt tone : string) :
  let r := generate_email_with_subject st post prompt tone in
  no_line_feed (ed_subject r)
  /\ (PyStr.len (ed_subject r) < 80
      \/ ed_subject r = PyStr.join " " (firstn 7 (PyStr.split_ws prompt))).
Proof.
  intros r. split; [apply subject_no_line_feed|].
  subst r. unfold generate_email_with_subject. simpl.
  destruct (Z.ltb_spec (PyStr.len (fst (PyStr.split_on PyStr.LF (PyStr.strip
    match generate_email_content st post prompt tone with
    | Some c => if PyStr.truthy c then c else fallback_content prompt tone
    | None => fallback_content prompt tone
    end)))) 80); [left; assumption | right; reflexivity].
Qed.

(** X12. When the backend is switched off or its key or URL is empty, the
    generator does not depend on the backend: it is not called. *)
Theorem backend_not_called_unless_ready
    (st : Settings) (post post' : Backend) (prompt tone : string) :
  email_api_configured st = false \/ email_api_key st = "" \/ email_api_url st = "" ->
  generate_email_with_subject st post prompt tone
  = generate_email_with_subject st post' prompt tone.
Proof.
  intros H.
  assert (E : email_api_ready st = false).
  { unfold email_api_ready. rewrite !andb_false_iff, !truthy_false. tauto. }
  unfold generate_email_with_subject, generate_email_content. now rewrite E.
Qed.

Lemma backend_not_called_unless_ready_witness :
  generate_email_with_subject default_settings (canned_backend "Hello") "renew license" "formal"
  = generate_email_with_subject default_settings no_backend "renew license" "formal".
Proof.
  exact (backend_not_called_unless_ready default_settings (canned_backend "Hello")
           no_backend "renew license" "formal" (or_introl eq_refl)).
Defined.

(** X13. When the backend is configured and returns a text that is not
    blank, the content is that text, stripped; the template is not used. *)
Theorem backend_text_is_used
    (st : Settings) (post : Backend) (prompt tone text : string) :
  email_api_configured st = true -> email_api_key st <> "" -> email_api_url st <> "" ->
  post (payload_prompt prompt tone) = ApiText text ->
  PyStr.strip text <> "" ->
  ed_content (generate_email_with_subject st post prompt tone) = PyStr.strip text.
Proof.
  intros Hc Hk Hu Hp Ht.
  assert (E : email_api_ready st = true).
  { unfold email_api_ready. rewrite Hc.
    destruct (email_api_key st); [congruence|].
    destruct (email_api_url st); [congruence | reflexivity]. }
  unfold generate_email_with_subject, generate_email_content. rewrite E, Hp. simpl.
  destruct (PyStr.strip text); [congruence | reflexivity].
Qed.

Lemma backend_text_is_used_witness :
  ed_content (generate_email_with_subject api_settings
                (canned_backend "  Hello Ann,  ") "greet Ann" "friendly")
  = "Hello Ann,".
Proof.
  assert (Hk : email_api_key api_settings <> "") by discriminate.
  assert (Hu : email_api_url api_settings <> "") by discriminate.
  assert (Ht : PyStr.strip "  Hello Ann,  " <> "") by discriminate.
  exact (backend_text_is_used api_settings (canned_backend "  Hello Ann,  ")
           "greet Ann" "friendly" "  Hello Ann,  " eq_refl Hk Hu eq_refl Ht).
Defined.

Section Reachable.

Variable st : Settings.

Lemma send_subject_one_line d :
(exists s, subject d = Some s /\ no_line_feed s) -> no_line_feed (send_subject d).
Proof.
intros (s & Es & Hs). unfold send_subject. rewrite Es.
destruct (PyStr.truthy (content d)); [|reflexivity].
destruct (PyStr.truthy s); [exact Hs|].
apply forall_char_take, split_on_head_free.
Qed.

Lemma handle_ok rq db : table_ok db -> table_ok (handle st rq db).
Proof.
intros Hok k d. destruct rq as [post now request|smtp now j|j c|j|clock]; simpl.
- unfold generate. simpl. destruct (decide (next_id db = k)) as [<-|Hne].
  + rewrite lookup_insert_eq. intros [= <-].
    repeat split; simpl; try discriminate; auto.
    * right. left. reflexivity.
    * eexists. split; [reflexivity | apply subject_no_line_feed].
  + rewrite lookup_insert_ne by exact Hne. apply Hok.
- unfold send. destruct (db !! j) as [e|] eqn:Ej; [|apply Hok].
  destruct (send_email _ _ _ _ _) as [[|] out]; simpl.
  + destruct (decide (j = k)) as [->|Hne].
    * rewrite lookup_insert_eq. intros [= <-].
      destruct (Hok _ _ Ej) as (Hid & _ & _ & _ & Hsub).
      repeat split; simpl; try discriminate; auto.
      -- left. reflexivity.
      -- intros _. eexists. split; reflexivity.
    * rewrite lookup_insert_ne by exact Hne. apply Hok.
  + destruct (decide (j = k)) as [->|Hne].
    * rewrite lookup_insert_eq. intros [= <-].
      destruct (Hok _ _ Ej) as (Hid & _ & _ & _ & Hsub).
      repeat split; simpl; try discriminate; auto.
      right. right. reflexivity.
    * rewrite lookup_insert_ne by exact Hne. apply Hok.
- unfold update_draft. destruct (db !! j) as [e|] eqn:Ej; simpl; [|apply Hok].
  destruct (decide (j = k)) as [->|Hne].
  + rewrite lookup_insert_eq. intros [= <-]. exact (Hok _ _ Ej).
  + rewrite lookup_insert_ne by exact Hne. apply Hok.
- unfold delete_email. destruct (db !! j) as [e|] eqn:Ej; simpl; [|apply Hok].
  destruct (decide (j = k)) as [->|Hne].
  + rewrite lookup_delete_eq. discriminate.
  + rewrite lookup_delete_ne by exact Hne. apply Hok.
- apply Hok.
Qed.

Lemma run_ok rqs db : table_ok db -> table_ok (run st rqs db).
Proof.
revert db. induction rqs as [|rq rqs IH]; intros db H; simpl; [exact H|].
apply IH, handle_ok, H.
Qed.

Lemma empty_ok : table_ok ∅.
Proof. intros k d H. rewrite lookup_empty in H. discriminate. Qed.

End Reachable.

(** The rows of a table are its values, each once. *)
Lemma rows_Permutation (db : Store) : Permutation (rows db) (map snd (map_to_list db)).
Proof. unfold rows. apply Permutation_map, merge_sort_Permutation. Qed.

Lemma rows_In (db : Store) d : In d (rows db) <-> exists k, db !! k = Some d.
Proof.
  split.
  - intros H. eapply Permutation_in in H; [|apply rows_Permutation].
    apply in_map_iff in H as ([k d'] & <- & H).
    exists k. apply elem_of_map_to_list, list_elem_of_In. exact H.
  - intros (k & H). eapply Permutation_in; [symmetry; apply rows_Permutation|].
    apply in_map_iff. exists (k, d). split; [reflexivity|].
    apply list_elem_of_In, elem_of_map_to_list. exact H.
Qed.

Lemma rows_length (db : Store) : length (rows db) = size db.
Proof.
  rewrite (Permutation_length (rows_Permutation db)), length_map.
  apply length_map_to_list.
Qed.

(** X14. Every row of a table reached from the empty table by any sequence
    of requests is stored under its own id, has status ["draft"], ["sent"] or
    ["failed"], has no send time while its status is ["draft"], has a send
    time when its status is ["sent"] (stored without a time zone, as SQLite
    keeps it), and has a subject of one line. *)
Theorem reachable_rows_are_well_formed
    (st : Settings) (rqs : list Request) (k : Z) (d : Draft) :
  run st rqs ∅ !! k = Some d -> row_ok k d.
Proof. apply run_ok, empty_ok. Qed.

Lemma reachable_rows_are_well_formed_witness :
  exists d, after_third_send !! 1 = Some d /\ row_ok 1 d.
Proof.
  destruct (after_third_send !! 1) as [d|] eqn:E; [|vm_compute in E; discriminate].
  exists d. split; [reflexivity|].
  exact (reachable_rows_are_well_formed mail_settings
           [ReqGenerate no_backend noon_2024_03_15 sample_request;
            ReqSend relay_down noon_2024_03_15 1;
            ReqSend relay_up noon_2024_03_15 1;
            ReqSend relay_down noon_2024_03_15 1] 1 d E).
Defined.

(** X15. On every table reached from the empty table, and at every instant
    in range, [get_stats] answers with a report whose three totals add up to
    the number of rows. *)
Theorem reachable_stats_add_up
    (st : Settings) (rqs : list Request) (clock : Clock) :
  (forall k, in_range (clock k)) ->
  exists r,
    get_stats (run st rqs ∅) clock = inl r
    /\ total_sent r + total_drafts r + total_failed r
       = Z.of_nat (size (run st rqs ∅)).
Proof.
  intros H. set (db := run st rqs ∅).
  destruct (compute_stats_total (rows db) clock H) as (r & E).
  exists r. unfold get_stats. rewrite E. split; [reflexivity|].
  destruct (compute_stats_fields _ _ _ E) as (-> & -> & -> & _).
  rewrite status_counts_partition.
  - unfold total_emails. now rewrite rows_length.
  - apply List.Forall_forall. intros d Hd. apply rows_In in Hd as (k & Hk).
    apply (run_ok st rqs ∅ empty_ok) in Hk. apply Hk.
Qed.

Lemma reachable_stats_add_up_witness :
  (forall k, in_range (at_instant noon_2024_03_15 k))
  /\ exists r,
      get_stats after_third_send (at_instant noon_2024_03_15) = inl r
      /\ total_sent r + total_drafts r + total_failed r = 1.
Proof.
  assert (H : forall k, in_range (at_instant noon_2024_03_15 k))
    by (intros k; exact in_range_noon).
  split; [exact H|].
  destruct (reachable_stats_add_up mail_settings
              [ReqGenerate no_backend noon_2024_03_15 sample_request;
               ReqSend relay_down noon_2024_03_15 1;
               ReqSend relay_up noon_2024_03_15 1;
               ReqSend relay_down noon_2024_03_15 1]
              (at_instant noon_2024_03_15) H) as (r & E & S).
  exists r. split; [exact E|]. rewrite S. vm_compute. reflexivity.
Defined.

(** X16. Whatever requests came before, no message handed to the relay by
    [send] has a line feed in its subject. *)
Theorem dispatched_subject_one_line
    (st : Settings) (rqs : list Request) (smtp : Smtp) (now : PyDate.datetime)
    (draft_id : Z) :
  Forall (fun tm : Transport * Message => no_line_feed (msg_subject (snd tm)))
         (snd (send st smtp now draft_id (run st rqs ∅))).
Proof.
  unfold send. destruct (run st rqs ∅ !! draft_id) as [d|] eqn:Ed; [|constructor].
  destruct (run_ok st rqs ∅ empty_ok _ _ Ed) as (_ & _ & _ & _ & Hsub).
  pose proof (send_subject_one_line d Hsub) as Hs.
  pose proof (send_email_handed st smtp (recipient d) (send_subject d) (content d)) as Hh.
  destruct (send_email _ _ _ _ _) as [[|] out]; simpl in *;
    (eapply List.Forall_impl; [|exact Hh]); intros tm ->; exact Hs.
Qed.



Section Order.
Import PyDate.

Lemma lt_iff a b :
lt a b = true <->
year a < year b
\/ (year a = year b
    /\ (month a < month b
        \/ (month a = month b
            /\ (day a < day b \/ (day a = day b /\ tod a < tod b))))).
Proof.
unfold lt.
rewrite !orb_true_iff, !andb_true_iff, !orb_true_iff, !andb_true_iff,
  !orb_true_iff, !andb_true_iff, !Z.ltb_lt, !Z.eqb_eq.
tauto.
Qed.

Lemma lt_false_iff a b :
lt a b = false <->
~ (year a < year b
   \/ (year a = year b
       /\ (month a < month b
           \/ (month a = month b
               /\ (day a < day b \/ (day a = day b /\ tod a < tod b)))))).
Proof. rewrite <- lt_iff. destruct (lt a b); intuition congruence. Qed.

(** The order of two valid datetimes, by their ordinals and times of day. *)
Lemma lt_ordinal_iff a b :
valid a -> valid b ->
lt a b = true <->
toordinal a < toordinal b \/ (toordinal a = toordinal b /\ tod a < tod b).
Proof.
intros Va Vb. split.
- intros H.
  destruct (Z.lt_trichotomy (toordinal a) (toordinal b)) as [Hlt | [Heq | Hgt]].
  + now left.
  + right. split; [exact Heq|].
    destruct Va as (_ & Hma & Hda & _), Vb as (_ & Hmb & Hdb & _).
    destruct (ymd2ord_inj _ _ _ _ _ _ Hma Hda Hmb Hdb Heq) as (Ey & Em & Ed).
    apply lt_iff in H. lia.
  + apply (lt_of_ordinal b a Vb Va) in Hgt.
    apply lt_iff in H, Hgt. lia.
- intros [Hlt | [Heq Ht]]; [now apply lt_of_ordinal|].
  destruct Va as (_ & Hma & Hda & _), Vb as (_ & Hmb & Hdb & _).
  destruct (ymd2ord_inj _ _ _ _ _ _ Hma Hda Hmb Hdb Heq) as (Ey & Em & Ed).
  apply lt_iff. lia.
Qed.

#[global] Instance newer_first_total : Total newer_first.
Proof.
intros a b. unfold newer_first.
destruct (lt (created_at a) (created_at b)) eqn:E; [right | now left].
apply lt_iff in E. apply lt_false_iff. lia.
Qed.

#[global] Instance newer_first_trans : Transitive newer_first.
Proof.
intros a b c. unfold newer_first. rewrite !lt_false_iff. lia.
Qed.

End Order.

Lemma count_if_ext {A} (p q : A -> bool) l :
  (forall x, In x l -> p x = q x) -> count_if p l = count_if q l.
Proof.
  induction l as [|x l IH]; intros H; [reflexivity|].
  rewrite !count_if_cons, H by (now left). rewrite IH; [reflexivity|].
  intros y Hy. apply H. now right.
Qed.

Lemma count_if_filter_le {A} (p q : A -> bool) l :
  count_if p (List.filter q l) <= count_if p l.
Proof.
  induction l as [|x l IH]; [reflexivity|]. simpl.
  destruct (q x); rewrite !count_if_cons; destruct (p x); lia.
Qed.

Lemma sum_counts_add t c : sum_counts (counter_add t c) = sum_counts c + 1.
Proof.
  induction c as [|[k n] c IH]; simpl; [reflexivity|].
  destruct (String.eqb k t); simpl; lia.
Qed.

Lemma sum_counts_Counter l : sum_counts (Counter l) = Z.of_nat (length l).
Proof.
  induction l as [|t l IH] using rev_ind; [reflexivity|].
  rewrite Counter_snoc, sum_counts_add, IH, length_app. simpl. lia.
Qed.

Lemma sum_counts_perm c c' : Permutation c c' -> sum_counts c = sum_counts c'.
Proof. induction 1; simpl; lia. Qed.

(** X18. [get_emails] answers with every row of the table, each once, no row
    before a row created later. *)
Theorem get_emails_newest_first (db : Store) :
  exists l,
    get_emails db = inl l
    /\ Permutation l (rows db)
    /\ length l = size db
    /\ (forall d, In d l <-> exists k, db !! k = Some d)
    /\ StronglySorted newer_first l.
Proof.
  exists (merge_sort newer_first (rows db)).
  assert (Hp : Permutation (merge_sort newer_first (rows db)) (rows db))
    by apply merge_sort_Permutation.
  split; [reflexivity|]. split; [exact Hp|].
  split; [rewrite (Permutation_length Hp); apply rows_length|].
  split.
  - intros d. rewrite <- rows_In. split; apply Permutation_in; [exact Hp | now symmetry].
  - apply StronglySorted_merge_sort; apply _.
Qed.

(** X19. The counts of [popular_tones] add up to the number of drafts, every
    listed tone has a count of at least 1, and the mapping is empty exactly
    when there is no draft. *)
Theorem popular_tones_counts_add_up
    (drafts : list Draft) (clock : Clock) (r : StatsReport) :
  compute_stats drafts clock = Some r ->
  sum_counts (popular_tones r) = total_emails drafts
  /\ Forall (fun e => 1 <= snd e) (popular_tones r)
  /\ (popular_tones r = [] <-> drafts = []).
Proof.
  intros H. destruct (compute_stats_fields _ _ _ H) as (_ & _ & _ & _ & -> & _).
  set (tones := map tone drafts).
  pose proof (most_common_perm (Counter tones)) as Hp.
  destruct (Counter_spec tones) as (Hnd & Hin & Hget & _).
  assert (Hsum : sum_counts (most_common (Counter tones)) = total_emails drafts).
  { rewrite (sum_counts_perm _ _ Hp), sum_counts_Counter.
    unfold total_emails, tones. now rewrite length_map. }
  split; [exact Hsum|]. split.
  - apply List.Forall_forall. intros [t n] He. simpl.
    eapply Permutation_in in He; [|exact Hp].
    assert (Ht : In t tones).
    { apply Hin. change t with (fst (t, n)). now apply in_map. }
    apply In_get_count in He; [|exact Hnd]. rewrite (Hget t Ht) in He.
    injection He as <-. pose proof (occurrences_pos t tones Ht). lia.
  - split.
    + intros E. rewrite E in Hsum. unfold total_emails in Hsum. simpl in Hsum.
      destruct drafts; [reflexivity | simpl in Hsum; lia].
    + intros ->. reflexivity.
Qed.

Lemma popular_tones_counts_add_up_witness :
  exists r,
    compute_stats tone_drafts (at_instant noon_2024_03_15) = Some r
    /\ sum_counts (popular_tones r) = 6.
Proof.
  destruct (compute_stats tone_drafts (at_instant noon_2024_03_15)) as [r|] eqn:E;
    [|vm_compute in E; discriminate].
  exists r. split; [reflexivity|].
  exact (proj1 (popular_tones_counts_add_up tone_drafts _ r E)).
Defined.

(** X20. At every instant in range, each entry of [monthly_stats] has a
    [sent] count between 0 and [total_sent] and a [drafts] count between 0
    and [total_drafts]. *)
Theorem monthly_counts_within_totals (drafts : list Draft) (clock : Clock) :
  (forall k, in_range (clock k)) ->
  exists r,
    compute_stats drafts clock = Some r
    /\ Forall (fun e => 0 <= me_sent e <= total_sent r
                        /\ 0 <= me_drafts e <= total_drafts r)
              (monthly_stats r).
Proof.
  intros H. destruct (compute_stats_total drafts clock H) as (r & E).
  exists r. split; [exact E|].
  destruct (compute_stats_fields _ _ _ E) as (-> & -> & _ & _ & _ & Hm).
  rewrite (monthly_spec drafts clock H) in Hm. injection Hm as <-.
  assert (Hany : forall now i,
             let e := entry_of drafts now i in
             0 <= me_sent e <= count_if (has_status "sent") drafts
             /\ 0 <= me_drafts e <= count_if (has_status "draft") drafts).
  { intros now i. unfold entry_of. simpl.
    repeat split; try apply count_if_nonneg; apply count_if_filter_le. }
  apply List.Forall_forall. intros e He. simpl in He.
  decompose [or] He; subst; try apply Hany; contradiction.
Qed.

Lemma monthly_counts_within_totals_witness :
  (forall k, in_range (at_instant noon_2024_03_15 k))
  /\ exists r,
      compute_stats two_sent_drafts (at_instant noon_2024_03_15) = Some r
      /\ Forall (fun e => 0 <= me_sent e <= total_sent r
                          /\ 0 <= me_drafts e <= total_drafts r)
                (monthly_stats r).
Proof.
  assert (H : forall k, in_range (at_instant noon_2024_03_15 k))
    by (intros k; exact in_range_noon).
  split; [exact H|].
  exact (monthly_counts_within_totals two_sent_drafts (at_instant noon_2024_03_15) H).
Defined.

Section Recent.
Import PyDate.

Lemma as_utc_fields c :
toordinal (as_utc c) = toordinal c /\ tod (as_utc c) = tod c
/\ (valid c -> valid (as_utc c)).
Proof.
unfold as_utc.
destruct (tzinfo c); (split; [reflexivity|]; split; [reflexivity|]);
  intros Hv; exact Hv.
Qed.

Lemma compute_stats_recent drafts (clock : Clock) r w :
compute_stats drafts clock = Some r ->
sub_days (now_utc (clock 0%nat)) 7 = Some w -> tzinfo w = Some utc ->
recent_activity r = count_if (fun d => le w (as_utc (created_at d))) drafts.
Proof.
unfold compute_stats. intros H Hw Hz. rewrite Hw in H. simpl in H.
rewrite (filter_raising_total _ (fun d => le w (as_utc (created_at d)))) in H
  by (intros c; now apply dt_le_created).
simpl in H. destruct (monthly drafts clock); [|discriminate].
simpl in H. injection H as <-. reflexivity.
Qed.

Lemma le_week_ago now w c :
valid w -> valid c ->
toordinal w = toordinal now - 7 -> tod w = tod now ->
le w (as_utc c) = created_since_week_ago now c.
Proof.
intros Vw Vc Ho Ht.
destruct (as_utc_fields c) as (Eo & Et & Hv). specialize (Hv Vc).
unfold le, created_since_week_ago. rewrite <- Ho, <- Ht.
pose proof (lt_ordinal_iff (as_utc c) w Hv Vw) as Hlt.
rewrite Eo, Et in Hlt.
destruct (lt (as_utc c) w); simpl.
- assert (Hc : toordinal c < toordinal w
               \/ toordinal c = toordinal w /\ tod c < tod w) by (now apply Hlt).
  symmetry. apply orb_false_iff. split.
  + apply Z.ltb_ge. lia.
  + apply andb_false_iff.
    destruct (Z.eqb_spec (toordinal c) (toordinal w)); [right|now left].
    apply Z.leb_gt. lia.
- assert (Hc : ~ (toordinal c < toordinal w
                  \/ toordinal c = toordinal w /\ tod c < tod w)).
  { intros Hc. apply Hlt in Hc. discriminate. }
  symmetry. apply orb_true_iff.
  destruct (Z.ltb_spec (toordinal w) (toordinal c)); [now left | right].
  apply andb_true_iff. split; [apply Z.eqb_eq | apply Z.leb_le]; lia.
Qed.

End Recent.

(** X21. At every instant in range, [recent_activity] is the number of
    drafts whose creation time, read as UTC whether it is naive or aware, is
    no earlier than exactly 7 days before the first clock reading (a draft
    created exactly 7 days before counts, and so does one created later
    than the reading); it lies between 0 and the number of drafts. *)
Theorem recent_activity_last_seven_days (drafts : list Draft) (clock : Clock) :
  (forall k, in_range (clock k)) ->
  Forall (fun d => PyDate.valid (created_at d)) drafts ->
  exists r,
    compute_stats drafts clock = Some r
    /\ recent_activity r
       = count_if (fun d => created_since_week_ago (clock 0%nat) (created_at d)) drafts
    /\ 0 <= recent_activity r <= total_emails drafts.
Proof.
  intros H Hv. destruct (compute_stats_total drafts clock H) as (r & E).
  exists r. split; [exact E|].
  destruct (H 0%nat) as [Hnow Hy].
  assert (Hnow' : PyDate.valid (now_utc (clock 0%nat))) by exact Hnow.
  destruct (add_days_ok (now_utc (clock 0%nat)) (- 7) Hnow')
    as (w & Ew & Vw & Ow & Tw & Zw).
  { pose proof (toordinal_bounds _ Hnow').
    destruct Hnow' as (_ & Hm & Hd & _).
    pose proof (ymd2ord_within_year _ _ _ Hm Hd).
    pose proof (days_before_year_mono 2 (PyDate.year (clock 0%nat))).
    change (PyDate.days_before_year 2) with 365 in *.
    unfold PyDate.toordinal in *. simpl in *. lia. }
  rewrite (compute_stats_recent drafts clock r w E Ew Zw).
  assert (Hrec : count_if (fun d => PyDate.le w (as_utc (created_at d))) drafts
                 = count_if (fun d => created_since_week_ago (clock 0%nat) (created_at d))
                            drafts).
  { apply count_if_ext. intros d Hd. rewrite List.Forall_forall in Hv.
    apply le_week_ago; auto. }
  rewrite Hrec. split; [reflexivity|].
  split; [apply count_if_nonneg | apply count_if_le_length].
Qed.

Lemma recent_activity_last_seven_days_witness :
  (forall k, in_range (at_instant noon_2024_03_15 k))
  /\ Forall (fun d => PyDate.valid (created_at d)) march_drafts
  /\ exists r,
      compute_stats march_drafts (at_instant noon_2024_03_15) = Some r
      /\ recent_activity r = 2.
Proof.
  assert (H : forall k, in_range (at_instant noon_2024_03_15 k))
    by (intros k; exact in_range_noon).
  assert (Hv : Forall (fun d => PyDate.valid (created_at d)) march_drafts).
  { unfold march_drafts.
    repeat first [apply List.Forall_cons | apply List.Forall_nil];
      repeat split; vm_compute; discriminate. }
  split; [exact H|]. split; [exact Hv|].
  destruct (recent_activity_last_seven_days march_drafts
              (at_instant noon_2024_03_15) H Hv) as (r & E & R & _).
  exists r. split; [exact E|]. rewrite R. vm_compute. reflexivity.
Defined.

(** X22. At every instant in range and for every round [i] from 0 to 5, the
    window of the round is computed; it starts [30 * i] days before day 1 of
    the current month, at the time of day of the request, it ends on the
    last day of the month it starts in, at the same time of day, and it
    starts no later than it ends. In round 0 it starts on day 1 of the
    current month. *)
Theorem month_window_by_design (now : PyDate.datetime) (i : Z) :
  in_range now -> 0 <= i <= 5 ->
  exists month_start,
    month_window now i = Some (month_start, last_of_month month_start)
    /\ PyDate.valid month_start
    /\ PyDate.toordinal month_start = PyDate.toordinal (first_of_month now) - 30 * i
    /\ PyDate.tod month_start = PyDate.tod now
    /\ PyDate.le month_start (last_of_month month_start) = true
    /\ (i = 0 -> month_start = first_of_month (now_utc now)).
Proof.
  intros Hr Hi.
  destruct (month_window_spec now i Hr Hi) as (ms & E & Hv & Ho & Ht & Hz).
  exists ms. split; [exact E|]. split; [exact Hv|]. split; [exact Ho|].
  split; [exact Ht|]. split.
  - unfold PyDate.le. apply negb_true_iff, lt_false_iff.
    destruct Hv as (_ & _ & Hd & _). unfold last_of_month. simpl. lia.
  - intros ->. rewrite (window_start_spec now 0 ms Hv Ho Ht Hz).
    now apply window_start_0.
Qed.

Lemma month_window_by_design_witness :
  in_range noon_2024_03_15
  /\ exists month_start,
      month_window noon_2024_03_15 3 = Some (month_start, last_of_month month_start)
      /\ PyDate.toordinal month_start
         = PyDate.toordinal (first_of_month noon_2024_03_15) - 90.
Proof.
  split; [exact in_range_noon|].
  destruct (month_window_by_design noon_2024_03_15 3 in_range_noon ltac:(lia))
    as (ms & E & _ & Ho & _).
  exists ms. split; [exact E | exact Ho].
Defined.
